(** * Verification of the Lambda deployment commands

    A shallow embedding of [src/command/create.js] (the [create] command)
    and of the S3 event-source command ([addS3EventSource]), together with
    the properties of their provisioning pipelines.

    Promise chains are embedded as a writer/state/error monad: every
    [.then] is a [bind], a rejected promise (or an exception thrown inside
    a handler) is an [Err], the closure variables of a command are the
    threaded state, and every externally observable action (remote call,
    file-system mutation, progress message, timer) is an event appended to
    the trace.  Results of external collaborators are read from a [World]
    record, so that every theorem quantifies over all their behaviours. *)

From Stdlib Require Import ZArith Lia Ascii String List.
From stdpp Require Import base option list strings pretty.
Import ListNotations.

Set Warnings "-register-all".

Local Open Scope string_scope.
Local Open Scope list_scope.
Local Open Scope Z_scope.

(** ** JavaScript values, truthiness and [parseInt] *)

Module Js.

(** The fragment of JavaScript values that the option handling of the
    commands touches.  A number is [NaN] ([VNum None]) or the value of a
    double that is an integer, as an element of [Z]; [2^1024] and
    [-2^1024], which no double reaches, stand for [Infinity] and
    [-Infinity]. *)
Inductive value : Type :=
| VUndefined
| VStr (s : string)
| VNum (n : option Z).

Definition truthy (v : value) : bool :=
  match v with
  | VUndefined => false
  | VStr s => negb (String.eqb s "")
  | VNum (Some z) => negb (z =? 0)%Z
  | VNum None => false
  end.

(** [a && b] and [a || b]; both operands are pure here, so evaluating the
    right one eagerly is unobservable. *)
Definition and (a b : value) : value := if truthy a then b else a.
Definition or (a b : value) : value := if truthy a then a else b.

(** An option that was not supplied reads as [undefined]. *)
Definition of_opt (o : option string) : value :=
  match o with
  | Some s => VStr s
  | None => VUndefined
  end.

Definition supplied (o : option string) : bool := truthy (of_opt o).

(** String conversion as done by template literals and [+]. *)
Definition show (o : option string) : string :=
  match o with
  | Some s => s
  | None => "undefined"
  end.

Definition nl : string := String (ascii_of_nat 10) EmptyString.

(** [StrWhiteSpaceChar].  A string is the sequence of its code units, one
    [ascii] each, so the strings of this development are those whose
    units are all below 256 (the messages of the commands, which are
    only compared and passed on, are written as their UTF-8 bytes).  Of
    the white space of ECMAScript, the units in that range are 9 to 13
    (tab, line feed, vertical tab, form feed, carriage return), 32
    (space) and 160 (no-break space). *)
Definition is_white_space (c : ascii) : bool :=
  let n := nat_of_ascii c in
  ((9 <=? n)%nat && (n <=? 13)%nat) || (n =? 32)%nat || (n =? 160)%nat.

Fixpoint trim_start (s : string) : string :=
  match s with
  | String c r => if is_white_space c then trim_start r else s
  | EmptyString => s
  end.

Definition digit_value (c : ascii) : option Z :=
  let n := Z.of_nat (nat_of_ascii c) in
  if ((48 <=? n) && (n <=? 57))%Z then Some (n - 48) else None.

(** The longest prefix of decimal digits, as a number; [None] when the
    prefix is empty. *)
Fixpoint digits_prefix (s : string) (acc : option Z) : option Z :=
  match s with
  | String c r =>
      match digit_value c with
      | Some d => digits_prefix r (Some (10 * default 0 acc + d))
      | None => acc
      end
  | EmptyString => acc
  end.

(** The number value of a mathematical integer: the double nearest to
    it, ties going to the even significand of 53 bits.  An integer of at
    most 53 bits is its own value; a magnitude that rounds beyond the
    largest double, [2^1024 - 2^971], gives [Infinity].  (ECMAScript
    allows [parseInt] to replace the digits after the twentieth by zeros
    before it rounds; this is the value without that approximation.) *)
Definition to_double (z : Z) : Z :=
  let m := Z.abs z in
  let excess := Z.log2 m + 1 - 53 in
  if excess <=? 0 then z
  else
    let q := Z.shiftr m excess in
    let r := m - Z.shiftl q excess in
    let half := Z.shiftl 1 (excess - 1) in
    let q := if (half <? r) || ((r =? half) && Z.odd q) then q + 1 else q in
    Z.sgn z * Z.min (Z.shiftl q excess) (2 ^ 1024).

(** [parseInt(s, 10)]: leading white space is skipped, one sign is
    accepted, parsing stops at the first character that is not a decimal
    digit, and no digit at all gives [NaN]; the integer that was read is
    returned as a number, that is, rounded to a double. *)
Definition parseInt10 (s : string) : option Z :=
  to_double <$>
  match trim_start s with
  | String "-" r => Z.opp <$> digits_prefix r None
  | String "+" r => digits_prefix r None
  | t => digits_prefix t None
  end.

(** [parseInt(v, 10)] on a value: the argument is converted to a string
    first. *)
Definition parseInt (v : value) : value :=
  match v with
  | VStr s => VNum (parseInt10 s)
  | VUndefined => VNum (parseInt10 "undefined")
  | VNum (Some z) => VNum (Some z)
  | VNum None => VNum None
  end.

(** Values a promise can be rejected with: a bare string
    ([Promise.reject('...')]), a provider error object carrying a
    classification [code], or a value without properties.  The last
    constructor is the retry engine's: the final error of a run that used
    up its attempts, tagged as such. *)
Inductive error : Type :=
| ErrUndefined
| ErrString (message : string)
| ErrObject (code : option string) (message : string)
| ErrRetryExhausted (last : error).

(** [error.code] *)
Definition error_code (e : error) : option string :=
  match e with
  | ErrObject c _ => c
  | _ => None
  end.

Inductive result (A : Type) : Type :=
| Ok (a : A)
| Err (e : error).
Arguments Ok {A} a.
Arguments Err {A} e.

(** [s.split(sep)] for a one-character separator. *)
Fixpoint split_on (sep : ascii) (s : string) : list string :=
  match s with
  | EmptyString => [EmptyString]
  | String c r =>
      if Ascii.eqb c sep then EmptyString :: split_on sep r
      else match split_on sep r with
           | h :: t => String c h :: t
           | [] => [String c EmptyString]
           end
  end.

(** [s.trim()], on the same white space as [trim_start]. *)
Fixpoint rev_onto (s acc : string) : string :=
  match s with
  | EmptyString => acc
  | String c r => rev_onto r (String c acc)
  end.

Definition trim (s : string) : string :=
  let t := trim_start (rev_onto (trim_start s) EmptyString) in
  rev_onto t EmptyString.

(** Plain data as handed to [JSON.stringify] or returned to the caller.
    An object is its list of properties in insertion order. *)
Inductive json : Type :=
| JUndefined
| JBool (b : bool)
| JStr (s : string)
| JArr (items : list json)
| JObj (fields : list (string * json)).

Fixpoint assoc_get {A : Type} (k : string) (fs : list (string * A)) : option A :=
  match fs with
  | [] => None
  | (k', v) :: r => if String.eqb k k' then Some v else assoc_get k r
  end.

(** [obj[k] = v]: an existing property keeps its place, a new one goes
    last. *)
Fixpoint assoc_set {A : Type} (k : string) (v : A) (fs : list (string * A))
  : list (string * A) :=
  match fs with
  | [] => [(k, v)]
  | (k', v') :: r =>
      if String.eqb k k' then (k, v) :: r else (k', v') :: assoc_set k v r
  end.

(** [obj.k]; a missing property reads as [undefined]. *)
Definition jget (k : string) (j : json) : json :=
  match j with
  | JObj fs => default JUndefined (assoc_get k fs)
  | _ => JUndefined
  end.

Definition jset (k : string) (v : json) (j : json) : json :=
  match j with
  | JObj fs => JObj (assoc_set k v fs)
  | other => other
  end.


Definition jtruthy (j : json) : bool :=
  match j with
  | JUndefined => false
  | JBool b => b
  | JStr s => negb (String.eqb s "")
  | JArr _ | JObj _ => true
  end.

Definition jopt (o : option string) : json :=
  match o with
  | Some s => JStr s
  | None => JUndefined
  end.

(** [a || b] and [a && f(a)] on optional strings. *)
Definition or_opt (a b : option string) : option string :=
  if supplied a then a else b.

(** [s.indexOf('.') >= 0] *)
Fixpoint contains_char (c : ascii) (s : string) : bool :=
  match s with
  | EmptyString => false
  | String d r => Ascii.eqb d c || contains_char c r
  end.

End Js.


(** ** Promise chains

    A computation reads and updates the state [S] of its command, appends
    events of type [E] to the trace, and settles as [Ok] or [Err]. *)

Module Promise.

Section Monad.
Context {S E : Type}.

Definition M (A : Type) : Type := S -> list E * S * Js.result A.

Definition resolve {A} (a : A) : M A := fun st => ([], st, Js.Ok a).
Definition reject {A} (e : Js.error) : M A := fun st => ([], st, Js.Err e).

(** [m.then(f)] *)
Definition bind {A B} (m : M A) (f : A -> M B) : M B :=
  fun st =>
    match m st with
    | (ev1, st1, Js.Ok a) =>
        match f a st1 with
        | (ev2, st2, r) => (ev1 ++ ev2, st2, r)
        end
    | (ev1, st1, Js.Err e) => (ev1, st1, Js.Err e)
    end.

(** [m.catch(h)] *)
Definition catch {A} (m : M A) (h : Js.error -> M A) : M A :=
  fun st =>
    match m st with
    | (ev1, st1, Js.Ok a) => (ev1, st1, Js.Ok a)
    | (ev1, st1, Js.Err e) =>
        match h e st1 with
        | (ev2, st2, r) => (ev1 ++ ev2, st2, r)
        end
    end.

Definition emit (e : E) : M unit := fun st => ([e], st, Js.Ok tt).
Definition get : M S := fun st => ([], st, Js.Ok st).
Definition modify (f : S -> S) : M unit := fun st => ([], f st, Js.Ok tt).

(** Settle with the outcome an external collaborator produced. *)
Definition settle {A} (r : Js.result A) : M A := fun st => ([], st, r).

(** An external call: the event, then its outcome. *)
Definition call {A} (e : E) (r : Js.result A) : M A :=
  bind (emit e) (fun _ => settle r).

(** [Promise.all] over calls that have all been started: every call
    runs, and the first rejection (in the order the calls settle, taken
    to be the order they were started in) is the one reported.  When
    several calls are rejected, which rejection comes first is a choice
    of this definition, not of the code. *)
Fixpoint all {A} (ms : list (M A)) : M (list A) :=
  match ms with
  | [] => resolve []
  | m :: rest =>
      fun st =>
        match m st with
        | (ev1, st1, r1) =>
            match all rest st1 with
            | (ev2, st2, r2) =>
                (ev1 ++ ev2, st2,
                 match r1, r2 with
                 | Js.Err e, _ => Js.Err e
                 | Js.Ok _, Js.Err e => Js.Err e
                 | Js.Ok a, Js.Ok l => Js.Ok (a :: l)
                 end)
            end
        end
  end.

(** Modelled from the spec: the retry engine (the module behind
    [require('oh-no-i-insist')] is not under src/).  It invokes the
    operation; success is returned at once; a failure that
    [isRetryable] rejects is propagated unchanged; a retryable failure
    with attempts remaining runs [onRetry], waits [delayMs] on the
    scheduling context and invokes the operation again; attempts are
    capped at [maxAttempts], and a retryable failure at the cap
    propagates the last error tagged as retry-exhausted. *)
Fixpoint retry_loop {A} (operation : M A) (wait : M unit)
    (isRetryable : Js.error -> bool) (onRetry : M unit)
    (remaining : nat) : M A :=
  catch operation (fun e =>
    if isRetryable e then
      match remaining with
      | Datatypes.S n =>
          bind onRetry (fun _ =>
          bind wait (fun _ =>
          retry_loop operation wait isRetryable onRetry n))
      | O => reject (Js.ErrRetryExhausted e)
      end
    else reject e).

(** Modelled from the spec: the contract [retry(operation, delayMs,
    maxAttempts, isRetryable, onRetry, schedulingContext)]; the first
    attempt is followed by at most [maxAttempts - 1] further ones. *)
Definition retry {A} (operation : M A) (delayMs : Js.value)
    (maxAttempts : Z) (isRetryable : Js.error -> bool)
    (onRetry : M unit) (schedulingContext : Js.value -> M unit) : M A :=
  retry_loop operation (schedulingContext delayMs) isRetryable onRetry
    (Z.to_nat (maxAttempts - 1)).

Definition events {A} (x : list E * S * Js.result A) : list E := x.1.1.
Definition final {A} (x : list E * S * Js.result A) : S := x.1.2.
Definition outcome {A} (x : list E * S * Js.result A) : Js.result A := x.2.

(** Every event of every run of [m] satisfies [P]. *)
Definition emits_only (P : E -> Prop) {A} (m : M A) : Prop :=
  forall st, Forall P (events (m st)).

(** Every value a run of [m] settles with satisfies [Q]. *)
Definition returns_only {A} (Q : A -> Prop) (m : M A) : Prop :=
  forall st evs st' a, m st = (evs, st', Js.Ok a) -> Q a.
End Monad.

Arguments M : clear implicits.

End Promise.

Import Js Promise.

Notation "'let*' x ':=' m 'in' k" := (bind m (fun x => k))
  (at level 10, x pattern, m at level 100, k at level 200).
Notation "m '>>' k" := (bind m (fun _ => k))
  (at level 60, right associativity).
(** [m.then(f)], chained as in the source: [m >>= f >>= g] is
    [m.then(f).then(g)]. *)
Notation "m '>>=' f" := (bind m f) (at level 50, left associativity).

(** ** The [create] command ([src/command/create.js]) *)

Module Create.

(** The command-line options the command reads.  Options that carry text
    are [None] when not supplied; flags are booleans; [memory] and
    [timeout] are numbers. *)
Record Options : Type := {
  region : option string;
  handler : option string;
  api_module : option string;
  deploy_proxy_api : bool;
  name : option string;
  description : option string;
  version : option string;
  source : option string;
  config : option string;
  policies : option string;
  allow_recursion : bool;
  role : option string;
  runtime : option string;
  memory : option Z;
  timeout : option Z;
  cache_api_config : option string;
  keep : bool;
  use_s3_bucket : option string;
  s3_key : option string;
  s3_see : option string;
  aws_delay : option string;
  aws_retries : option string;
  env_kms_key_arn : option string;
  Layers : option string
}.

Record RoleMetadata : Type := { RoleName : string; Arn : string }.
Record PackageJson : Type :=
  { pkg_name : option string; pkg_description : option string }.
Record OwnerInfo : Type := { account : string; partition : string }.
Record FunctionCode : Type :=
  { ZipFile : option string; S3Bucket : option string; S3Key : option string }.

(** What [createFunction] answers: the configuration of the new function,
    of which the command reads the name and the published version. *)
Record FunctionConfiguration : Type :=
  { fc_FunctionName : string; fc_Version : string }.

(** The same object as the command carries it along, [api] being the
    property that [createWebApi] adds ([JUndefined] until then). *)
Record LambdaMetadata : Type :=
  { FunctionName : string; Version : string; api : json }.

Definition metadata_of (response : FunctionConfiguration) : LambdaMetadata :=
  {| FunctionName := fc_FunctionName response;
     Version := fc_Version response;
     api := JUndefined |}.

(** A loaded api module: what [apiConfig()] returned ([None] when the
    module has no usable configuration) and, when the module exports
    [postDeploy], how that hook settles. *)
Record ApiModule : Type :=
  { apiConfig : option string; postDeploy : option (result json) }.

Record CreateFunctionParams : Type := {
  cf_Code : FunctionCode;
  cf_FunctionName : option string;
  cf_Description : option string;
  cf_MemorySize : option Z;
  cf_Timeout : option Z;
  cf_Environment : option (list (string * string));
  cf_KMSKeyArn : option string;
  cf_Handler : string;
  cf_Role : string;
  cf_Runtime : string;
  cf_Publish : bool;
  cf_Layers : option (list string)
}.

(** Everything outside the command: the process environment, the [path]
    and file-system helpers, and how each collaborator and remote call
    settles.  [lambda_createFunction n] is the outcome of the [n]-th
    function-creation request the service receives;
    [lambda_alias_fault label] is a provider failure of an alias request
    for [label], if any. *)
Record World : Type := {
  cwd : string;
  env_AWS_DELAY : option string;
  tmpdir : string;
  path_sep : string;
  path_join : string -> string -> string;
  path_dirname : string -> string;
  path_basename : string -> string;
  path_resolve : string -> string;
  isDir : string -> bool;
  isFile : string -> bool;
  fileExists : string -> bool;
  recursiveList : string -> list string;
  isRoleArn : string -> bool;
  apiGWUrl : string -> option string -> string -> string;
  initEnvVarsFromOptions : result (option (list (string * string)));
  readJson : string -> result PackageJson;
  getOwnerInfo : result OwnerInfo;
  mkdtemp : result string;
  collectFiles : result string;
  validatePackage : result string;
  cleanUpPackage : result string;
  zipdir : result string;
  iam_getRole : string -> result RoleMetadata;
  iam_createRole : string -> result RoleMetadata;
  iam_putRolePolicy : result unit;
  addPolicy : string -> string -> string -> result unit;
  lambadCode : result FunctionCode;
  lambda_createFunction : nat -> result FunctionConfiguration;
  lambda_alias_fault : string -> option error;
  require_api_module : string -> result ApiModule;
  createRestApi : result string;
  rebuildWebApi : result unit;
  deployProxyApi : LambdaMetadata -> result LambdaMetadata;
  writeFile : result unit;
  rmDir : result unit;
  unlinkSync : result unit
}.

(** The alias table of the Lambda service: which version a label of a
    function points at.  Entries are ((function, label), version), at
    most one per function and label. *)
Definition AliasTable : Type := list (string * string * string).

Fixpoint alias_lookup (table : AliasTable) (fn label : string) : option string :=
  match table with
  | [] => None
  | (f, l, v) :: rest =>
      if String.eqb f fn && String.eqb l label then Some v
      else alias_lookup rest fn label
  end.

(** Point [label] of [fn] at [ver]: an entry that is there is replaced, a
    new one is added. *)
Fixpoint alias_point (table : AliasTable) (fn label ver : string) : AliasTable :=
  match table with
  | [] => [(fn, label, ver)]
  | (f, l, v) :: rest =>
      if String.eqb f fn && String.eqb l label then (fn, label, ver) :: rest
      else (f, l, v) :: alias_point rest fn label ver
  end.

(** The variables of the [create] closure, the alias table of the Lambda
    service and the number of function-creation requests the service has
    received. *)
Record State : Type := {
  roleMetadata : option RoleMetadata;
  s3Key : option string;
  packageArchive : option string;
  functionDesc : option string;
  customEnvVars : option (list (string * string));
  functionName : option string;
  workingDir : option string;
  ownerAccount : option string;
  awsPartition : option string;
  packageFileDir : option string;
  aliases : AliasTable;
  createFunction_requests : nat
}.

Definition initial (remote_aliases : AliasTable) : State :=
  {| roleMetadata := None; s3Key := None; packageArchive := None;
     functionDesc := None; customEnvVars := None; functionName := None;
     workingDir := None; ownerAccount := None; awsPartition := None;
     packageFileDir := None; aliases := remote_aliases;
     createFunction_requests := 0%nat |}.

Inductive Event : Type :=
| LogStage (message : string)
| ConsoleError
| InitEnvVarsFromOptions
| ReadJson (path : string)
| GetOwnerInfo (region : option string)
| Mkdtemp (prefix : string)
| CollectFiles (source : string) (workingDir : option string)
| ValidatePackage (dir : string)
| CleanUpPackage (dir : string)
| Zipdir (dir : string)
| IamGetRole (RoleName : string)
| IamCreateRole (RoleName : string)
| IamPutRolePolicy (RoleName PolicyName : string) (partition : option string)
| AddPolicy (policyName roleName fileName : string)
| LambadCode (archive bucket sse key : option string)
| LambdaCreateFunction (params : CreateFunctionParams)
| LambdaCreateAlias (FunctionName FunctionVersion Name : string)
| LambdaUpdateAlias (FunctionName FunctionVersion Name : string)
| SetTimeout (delay : value)
| RequireApiModule (path : string)
| CreateRestApi (name : string)
| RebuildWebApi (FunctionName alias apiId : string)
| PostDeploy
| DeployProxyApi (FunctionName : string)
| WriteFile (path : string) (data : json)
| RmDir (dir : option string)
| UnlinkSync (path : option string).

Definition Pipeline : Type -> Type := M State Event.

Section Command.
Variable options : Options.
Variable world : World.

(** [options['aws-delay'] && parseInt(options['aws-delay'], 10)
     || (process.env.AWS_DELAY && parseInt(process.env.AWS_DELAY, 10))
     || 5000] *)
Definition awsDelay : value :=
  Js.or
    (Js.or
       (Js.and (of_opt (aws_delay options))
               (parseInt (of_opt (aws_delay options))))
       (Js.and (of_opt (env_AWS_DELAY world))
               (parseInt (of_opt (env_AWS_DELAY world)))))
    (VNum (Some 5000)).

(** [options['aws-retries'] && parseInt(options['aws-retries'], 10) || 5] *)
Definition awsRetries : value :=
  Js.or
    (Js.and (of_opt (aws_retries options))
            (parseInt (of_opt (aws_retries options))))
    (VNum (Some 5)).

Definition source_dir : string :=
  if supplied (source options) then default "" (source options)
  else cwd world.

Definition configFile : string :=
  if supplied (config options) then default "" (config options)
  else path_join world source_dir "sln.json".

Definition policyFiles (policies : string) : list string :=
  let files := recursiveList world policies in
  let files :=
    if isDir world policies
    then map (fun filePath => path_join world policies filePath) files
    else files in
  filter (fun f => isFile world f = true) files.

Definition check (failed : bool) (message : string) : option string :=
  if failed then Some message else None.

(** The first check that fails decides. *)
Definition orelse (a b : option string) : option string :=
  match a with
  | Some m => Some m
  | None => b
  end.

Definition memory_error : option string :=
  match memory options with
  | Some m =>
      orelse (check (m <? 128)
                "提供的内存值必须大于或等于 Lambda 限制的最小内存值")
     (orelse (check (3008 <? m)
                "提供的内存值必须小于或等于 Lambda 限制的最大内存值")
             (check (negb (Z.rem m 64 =? 0))
                "提供的内存值必须是64的整数倍"))
  | None => None
  end.

Definition timeout_error : option string :=
  match timeout options with
  | Some t =>
      orelse (check (t <? 1) "超时时间必须大于1")
             (check (9000 <? t) "超时时间必须小于900")
  | None => None
  end.

Definition validationError : option string :=
  let has_handler := supplied (handler options) in
  let has_api := supplied (api_module options) in
  orelse (check (negb (supplied (region options)))
            ("AWS region 参数未定义，请使用 --region 定义该参数值" +:+ nl))
 (orelse (check (negb has_handler && negb has_api)
            ("Lambda handler 参数未定义，请使用 --handler 定义该参数值" +:+ nl))
 (orelse (check (has_handler && has_api)
            ("不能同时使用 handler 和 api-module 两个参数" +:+ nl))
 (orelse (check (negb has_handler && deploy_proxy_api options)
            ("deploy-proxy-api 需要一个 handler，请使用 --handler 定义该参数值" +:+ nl))
 (orelse (check (has_handler &&
                 negb (contains_char "." (default "" (handler options))))
            ("未指定 Lambda 处理函数，请使用 --handler 指定函数" +:+ nl))
 (orelse (check (has_api &&
                 contains_char "." (default "" (api_module options)))
            ("Api module 模块名不能和已存在的文件名或函数名重名" +:+ nl))
 (orelse (check (negb (isDir world (path_dirname world configFile)))
            ("无法将内容写入 " +:+ configFile +:+ nl))
 (orelse (if fileExists world configFile
          then if supplied (config options)
               then Some (show (config options) +:+ " + 已存在" +:+ nl)
               else Some "sln.json 已经在项目文件夹下"
          else None)
 (orelse (check (negb (fileExists world
                         (path_join world source_dir "package.json")))
            ("项目目录下不存在 package.json 文件" +:+ nl))
 (orelse (check (supplied (policies options) &&
                 bool_decide (policyFiles (default "" (policies options)) = []))
            ("没有文件匹配 " +:+ show (policies options) +:+ nl))
 (orelse memory_error
 (orelse timeout_error
 (orelse (check (allow_recursion options && supplied (role options) &&
                 isRoleArn world (default "" (role options)))
            ("参数 allow-recursion 和 role 冲突" +:+ nl))
         (check (supplied (s3_key options) &&
                 negb (supplied (use_s3_bucket options)))
            ("--s3-key 需要和 --use-s3-bucket 一起使用" +:+ nl)))))))))))))).

(** *** Closure variables *)

Definition set_customEnvVars v (st : State) : State :=
  {| roleMetadata := roleMetadata st; s3Key := s3Key st;
     packageArchive := packageArchive st; functionDesc := functionDesc st;
     customEnvVars := v; functionName := functionName st;
     workingDir := workingDir st; ownerAccount := ownerAccount st;
     awsPartition := awsPartition st; packageFileDir := packageFileDir st;
     aliases := aliases st;
     createFunction_requests := createFunction_requests st |}.

Definition set_packageInfo n d (st : State) : State :=
  {| roleMetadata := roleMetadata st; s3Key := s3Key st;
     packageArchive := packageArchive st; functionDesc := d;
     customEnvVars := customEnvVars st; functionName := n;
     workingDir := workingDir st; ownerAccount := ownerAccount st;
     awsPartition := awsPartition st; packageFileDir := packageFileDir st;
     aliases := aliases st;
     createFunction_requests := createFunction_requests st |}.

Definition set_ownerInfo a p (st : State) : State :=
  {| roleMetadata := roleMetadata st; s3Key := s3Key st;
     packageArchive := packageArchive st; functionDesc := functionDesc st;
     customEnvVars := customEnvVars st; functionName := functionName st;
     workingDir := workingDir st; ownerAccount := a;
     awsPartition := p; packageFileDir := packageFileDir st;
     aliases := aliases st;
     createFunction_requests := createFunction_requests st |}.

Definition set_workingDir v (st : State) : State :=
  {| roleMetadata := roleMetadata st; s3Key := s3Key st;
     packageArchive := packageArchive st; functionDesc := functionDesc st;
     customEnvVars := customEnvVars st; functionName := functionName st;
     workingDir := v; ownerAccount := ownerAccount st;
     awsPartition := awsPartition st; packageFileDir := packageFileDir st;
     aliases := aliases st;
     createFunction_requests := createFunction_requests st |}.

Definition set_packageFileDir v (st : State) : State :=
  {| roleMetadata := roleMetadata st; s3Key := s3Key st;
     packageArchive := packageArchive st; functionDesc := functionDesc st;
     customEnvVars := customEnvVars st; functionName := functionName st;
     workingDir := workingDir st; ownerAccount := ownerAccount st;
     awsPartition := awsPartition st; packageFileDir := v;
     aliases := aliases st;
     createFunction_requests := createFunction_requests st |}.

Definition set_packageArchive v (st : State) : State :=
  {| roleMetadata := roleMetadata st; s3Key := s3Key st;
     packageArchive := v; functionDesc := functionDesc st;
     customEnvVars := customEnvVars st; functionName := functionName st;
     workingDir := workingDir st; ownerAccount := ownerAccount st;
     awsPartition := awsPartition st; packageFileDir := packageFileDir st;
     aliases := aliases st;
     createFunction_requests := createFunction_requests st |}.

Definition set_roleMetadata v (st : State) : State :=
  {| roleMetadata := v; s3Key := s3Key st;
     packageArchive := packageArchive st; functionDesc := functionDesc st;
     customEnvVars := customEnvVars st; functionName := functionName st;
     workingDir := workingDir st; ownerAccount := ownerAccount st;
     awsPartition := awsPartition st; packageFileDir := packageFileDir st;
     aliases := aliases st;
     createFunction_requests := createFunction_requests st |}.

Definition set_s3Key v (st : State) : State :=
  {| roleMetadata := roleMetadata st; s3Key := v;
     packageArchive := packageArchive st; functionDesc := functionDesc st;
     customEnvVars := customEnvVars st; functionName := functionName st;
     workingDir := workingDir st; ownerAccount := ownerAccount st;
     awsPartition := awsPartition st; packageFileDir := packageFileDir st;
     aliases := aliases st;
     createFunction_requests := createFunction_requests st |}.

Definition set_aliases v (st : State) : State :=
  {| roleMetadata := roleMetadata st; s3Key := s3Key st;
     packageArchive := packageArchive st; functionDesc := functionDesc st;
     customEnvVars := customEnvVars st; functionName := functionName st;
     workingDir := workingDir st; ownerAccount := ownerAccount st;
     awsPartition := awsPartition st; packageFileDir := packageFileDir st;
     aliases := v;
     createFunction_requests := createFunction_requests st |}.

Definition count_createFunction (st : State) : State :=
  {| roleMetadata := roleMetadata st; s3Key := s3Key st;
     packageArchive := packageArchive st; functionDesc := functionDesc st;
     customEnvVars := customEnvVars st; functionName := functionName st;
     workingDir := workingDir st; ownerAccount := ownerAccount st;
     awsPartition := awsPartition st; packageFileDir := packageFileDir st;
     aliases := aliases st;
     createFunction_requests := S (createFunction_requests st) |}.

(** Reading [roleMetadata.Role] before the role was loaded throws. *)
Definition the_role : Pipeline RoleMetadata :=
  let* st := get in
  match roleMetadata st with
  | Some r => resolve r
  | None => reject (ErrObject None "TypeError")
  end.

Definition logStage (message : string) : Pipeline unit :=
  emit (LogStage message).

(** *** The steps *)

Definition getPackageInfo : Pipeline (string * option string) :=
  logStage "加载项目package包配置" >>
  let packageJson := path_join world source_dir "package.json" in
  let* jsonConfig := call (ReadJson packageJson) (readJson world packageJson) in
  let name := or_opt (name options) (pkg_name jsonConfig) in
  let description :=
    or_opt (description options)
      (if supplied (pkg_description jsonConfig)
       then trim <$> pkg_description jsonConfig
       else pkg_description jsonConfig) in
  if negb (supplied name)
  then reject (ErrString "项目名称缺失，请在package.json或使用 --name 指定")
  else resolve (default "" name, description).

(** [error => error && error.code === 'InvalidParameterValueException'] *)
Definition error_truthy (e : error) : bool :=
  match e with
  | ErrUndefined => false
  | ErrString s => negb (String.eqb s "")
  | ErrObject _ _ | ErrRetryExhausted _ => true
  end.

Definition isRetryable (e : error) : bool :=
  error_truthy e &&
  bool_decide (error_code e = Some "InvalidParameterValueException").

Definition number (v : value) : Z :=
  match v with
  | VNum (Some z) => z
  | _ => 0
  end.

(** [lambda.createFunction(params).promise()] *)
Definition createFunction (params : CreateFunctionParams)
  : Pipeline LambdaMetadata :=
  let* st := get in
  modify count_createFunction >>
  let* response :=
    call (LambdaCreateFunction params)
         (lambda_createFunction world (createFunction_requests st)) in
  resolve (metadata_of response).

(** The parameters of the [createFunction] call. *)
Definition createFunctionParams (st : State)
    (functionName functionDesc : option string)
    (functionCode : FunctionCode) (roleArn : string) : CreateFunctionParams :=
  {| cf_Code := functionCode;
     cf_FunctionName := functionName;
     cf_Description := functionDesc;
     cf_MemorySize := memory options;
     cf_Timeout := timeout options;
     cf_Environment := customEnvVars st;
     cf_KMSKeyArn := env_kms_key_arn options;
     cf_Handler :=
       if supplied (handler options) then default "" (handler options)
       else show (api_module options) +:+ ".proxyRouter";
     cf_Role := roleArn;
     cf_Runtime :=
       if supplied (runtime options) then default "" (runtime options)
       else "nodejs12.x";
     cf_Publish := true;
     cf_Layers :=
       if supplied (Layers options)
       then split_on "," <$> Layers options
       else None |}.

(** The operation handed to [retry]: one function-creation request. *)
Definition createLambda_attempt (params : CreateFunctionParams)
  : Pipeline LambdaMetadata :=
  logStage "创建 Lambda 函数" >> createFunction params.

Definition onRetry : Pipeline unit := logStage "等待 IAM 角色生效".

(** The scheduling context: a timer of the given delay. *)
Definition setTimeout (delay : value) : Pipeline unit :=
  emit (SetTimeout delay).

Definition createLambda (functionName functionDesc : option string)
    (functionCode : FunctionCode) (roleArn : string)
  : Pipeline LambdaMetadata :=
  let* st := get in
  retry
    (createLambda_attempt
       (createFunctionParams st functionName functionDesc functionCode roleArn))
    awsDelay
    (number awsRetries)
    isRetryable
    onRetry
    setTimeout.

(** Modelled from the spec: the alias requests of the function service
    (the Lambda client is not under src/).  Creating a label the
    service already has is refused as a conflict, repointing a label it
    does not have as not found; either request binds the label to the
    version. *)
Definition createAlias (fn ver label : string) : Pipeline unit :=
  emit (LambdaCreateAlias fn ver label) >>
  match lambda_alias_fault world label with
  | Some e => reject e
  | None =>
      let* st := get in
      if bool_decide (is_Some (alias_lookup (aliases st) fn label))
      then reject (ErrObject (Some "ResourceConflictException") label)
      else modify (set_aliases (alias_point (aliases st) fn label ver))
  end.

(** Modelled from the spec: the update request of the same service. *)
Definition updateAlias (fn ver label : string) : Pipeline unit :=
  emit (LambdaUpdateAlias fn ver label) >>
  match lambda_alias_fault world label with
  | Some e => reject e
  | None =>
      let* st := get in
      if bool_decide (is_Some (alias_lookup (aliases st) fn label))
      then modify (set_aliases (alias_point (aliases st) fn label ver))
      else reject (ErrObject (Some "ResourceNotFoundException") label)
  end.

(** Modelled from the spec: [markAlias] ([../util/mark-alias] is not under
    src/), the alias manager's [ensureAlias]: attempt the creation; if
    the service already has an alias with that label, update it to
    point at the version instead. *)
Definition markAlias (functionName versionName versionAlias : string)
  : Pipeline unit :=
  catch (createAlias functionName versionName versionAlias)
    (fun e =>
       if bool_decide (error_code e = Some "ResourceConflictException")
       then updateAlias functionName versionName versionAlias
       else reject e).

Definition markAliases (lambdaData : LambdaMetadata)
  : Pipeline LambdaMetadata :=
  logStage "创建当前版本别名" >>
  markAlias (FunctionName lambdaData) "$LATEST" "latest" >>
  (if supplied (version options)
   then markAlias (FunctionName lambdaData) (Version lambdaData)
          (default "" (version options))
   else resolve tt) >>
  resolve lambdaData.

Definition with_api (a : json) (m : LambdaMetadata) : LambdaMetadata :=
  {| FunctionName := FunctionName m; Version := Version m; api := a |}.

Definition createWebApi (lambdaMetadata : LambdaMetadata)
    (packageDir : option string) : Pipeline LambdaMetadata :=
  let alias :=
    if supplied (version options) then default "" (version options)
    else "latest" in
  logStage "创建 REST Api" >>
  match packageDir, api_module options with
  | Some dir, Some module =>
      let apiModulePath := path_join world dir module in
      emit (RequireApiModule (path_resolve world apiModulePath)) >>
      match require_api_module world (path_resolve world apiModulePath) with
      | Err _ =>
          emit ConsoleError >>
          reject (ErrString ("无法从 " +:+ apiModulePath +:+
                             " 加载api配置文件" +:+ nl))
      | Ok apiModule =>
          match apiConfig apiModule with
          | None =>
              reject (ErrString ("没有 apiConfig 定义在模块 " +:+ module +:+ nl))
          | Some config =>
              let* id := call (CreateRestApi (FunctionName lambdaMetadata))
                              (createRestApi world) in
              let created :=
                JObj [("id", JStr id);
                      ("module", JStr module);
                      ("url", JStr (apiGWUrl world id (region options) alias))] in
              call (RebuildWebApi (FunctionName lambdaMetadata) alias id)
                   (rebuildWebApi world) >>
              let* postDeployResult :=
                match postDeploy apiModule with
                | Some r => call PostDeploy r
                | None => resolve JUndefined
                end in
              resolve
                (with_api
                   (if jtruthy postDeployResult
                    then jset "deploy" postDeployResult created
                    else created)
                   lambdaMetadata)
          end
      end
  | _, _ =>
      (* [path.join] throws on an argument that is not a string; the
         [catch] block reports the still undefined path. *)
      emit ConsoleError >>
      reject (ErrString ("无法从 undefined 加载api配置文件" +:+ nl))
  end.

(** The object both [saveConfig] and [formatResult] start from. *)
Definition lambda_section (r : RoleMetadata) (m : LambdaMetadata) : json :=
  let lambda :=
    JObj [("role", JStr (RoleName r));
          ("name", JStr (FunctionName m));
          ("region", jopt (region options))] in
  if supplied (role options) then jset "sharedRole" (JBool true) lambda
  else lambda.

(** The object handed to [JSON.stringify] and written to [configFile]. *)
Definition saved_config (r : RoleMetadata) (m : LambdaMetadata) : json :=
  let config := JObj [("lambda", lambda_section r m)] in
  if jtruthy (api m)
  then jset "api" (JObj [("id", jget "id" (api m));
                         ("module", jget "module" (api m))]) config
  else config.

Definition saveConfig (lambdaMetadata : LambdaMetadata)
  : Pipeline LambdaMetadata :=
  let* r := the_role in
  let config := saved_config r lambdaMetadata in
  logStage "保存配置" >>
  call (WriteFile configFile config) (writeFile world) >>
  resolve lambdaMetadata.

Definition formatResult (lambdaMetadata : LambdaMetadata) : Pipeline json :=
  let* r := the_role in
  let* st := get in
  let config := JObj [("lambda", lambda_section r lambdaMetadata)] in
  let config :=
    if jtruthy (api lambdaMetadata)
    then jset "api" (api lambdaMetadata) config else config in
  let config :=
    if supplied (s3Key st) then jset "s3key" (jopt (s3Key st)) config
    else config in
  resolve config.

Definition loadRole (functionName : option string) : Pipeline RoleMetadata :=
  logStage "初始化 IAM 角色" >>
  if supplied (role options) then
    let role := default "" (role options) in
    if isRoleArn world role
    then resolve {| RoleName := role; Arn := role |}
    else call (IamGetRole role) (iam_getRole world role)
  else
    let roleName := show functionName +:+ "-role" in
    call (IamCreateRole roleName) (iam_createRole world roleName).

(** [.replace(/[^A-z0-9]/g, '-')] *)
Definition policy_char (c : ascii) : ascii :=
  let n := nat_of_ascii c in
  if ((65 <=? n)%nat && (n <=? 122)%nat) || ((48 <=? n)%nat && (n <=? 57)%nat)
  then c else "-"%char.

Fixpoint map_chars (f : ascii -> ascii) (s : string) : string :=
  match s with
  | EmptyString => EmptyString
  | String c r => String (f c) (map_chars f r)
  end.

Definition addExtraPolicies : Pipeline (list unit) :=
  let* st := get in
  match roleMetadata st with
  | None =>
      if bool_decide (policyFiles (default "" (policies options)) = [])
      then resolve []
      else reject (ErrObject None "TypeError")
  | Some r =>
      all (map (fun fileName =>
                  let policyName :=
                    map_chars policy_char (path_basename world fileName) in
                  call (AddPolicy policyName (RoleName r) fileName)
                       (addPolicy world policyName (RoleName r) fileName))
               (policyFiles (default "" (policies options))))
  end.

Definition cleanup (result : json) : Pipeline json :=
  let* st := get in
  if negb (keep options) then
    call (RmDir (workingDir st)) (rmDir world) >>
    call (UnlinkSync (packageArchive st)) (unlinkSync world) >>
    resolve result
  else
    resolve (jset "archive" (jopt (packageArchive st)) result).

(** *** The chain *)

(** The promise chain of [create] up to, and without, its last link
    [.then(cleanup)]. *)
Definition provision : Pipeline json :=
  call InitEnvVarsFromOptions (initEnvVarsFromOptions world)
  >>= (fun opts => modify (set_customEnvVars opts))
  >>= (fun _ => getPackageInfo)
  >>= (fun packageInfo =>
         modify (set_packageInfo (Some packageInfo.1) packageInfo.2))
  >>= (fun _ => call (GetOwnerInfo (region options)) (getOwnerInfo world))
  >>= (fun ownerInfo =>
         modify (set_ownerInfo (Some (account ownerInfo))
                               (Some (partition ownerInfo))))
  >>= (fun _ => call (Mkdtemp (tmpdir world +:+ path_sep world))
                     (mkdtemp world))
  >>= (fun dir => modify (set_workingDir (Some dir)))
  >>= (fun _ =>
         let* st := get in
         call (CollectFiles source_dir (workingDir st)) (collectFiles world))
  >>= (fun dir =>
         logStage "验证包" >>
         call (ValidatePackage dir) (validatePackage world))
  >>= (fun dir =>
         modify (set_packageFileDir (Some dir)) >>
         call (CleanUpPackage dir) (cleanUpPackage world))
  >>= (fun dir =>
         logStage "打包项目包" >>
         call (Zipdir dir) (zipdir world))
  >>= (fun zipFile => modify (set_packageArchive (Some zipFile)))
  >>= (fun _ => let* st := get in loadRole (functionName st))
  >>= (fun result => modify (set_roleMetadata (Some result)))
  >>= (fun _ =>
         if negb (supplied (role options)) then
           let* r := the_role in
           let* st := get in
           call (IamPutRolePolicy (RoleName r) "log-writer" (awsPartition st))
                (iam_putRolePolicy world)
         else resolve tt)
  >>= (fun _ =>
         if supplied (policies options) then addExtraPolicies >> resolve tt
         else resolve tt)
  >>= (fun _ =>
         let* st := get in
         call (LambadCode (packageArchive st) (use_s3_bucket options)
                 (s3_see options) (s3_key options))
              (lambadCode world))
  >>= (fun functionCode =>
         modify (set_s3Key (S3Key functionCode)) >>
         let* r := the_role in
         let* st := get in
         createLambda (functionName st) (functionDesc st) functionCode (Arn r))
  >>= markAliases
  >>= (fun lambdaMetadata =>
         if supplied (api_module options) then
           let* st := get in createWebApi lambdaMetadata (packageFileDir st)
         else if deploy_proxy_api options then
           call (DeployProxyApi (FunctionName lambdaMetadata))
                (deployProxyApi world lambdaMetadata)
         else resolve lambdaMetadata)
  >>= saveConfig
  >>= formatResult.

(** [module.exports = function create (options, optionalLogger)] *)
Definition create : Pipeline json :=
  if supplied validationError
  then reject (ErrString (default "" validationError))
  else provision >>= cleanup.

End Command.

End Create.

(** ** The S3 event-source command ([addS3EventSource]) *)

Module S3EventSource.

Record Options : Type := {
  bucket : option string;
  prefix : option string;
  suffix : option string;
  version : option string;
  events : option string;
  source : option string;
  config : option string
}.

(** [config.lambda] as loaded, then completed with [arn] and [version]
    from the function's configuration. *)
Record LambdaConfig : Type := {
  name : string;
  region : string;
  role : string;
  arn : option string;
  lambda_version : option string
}.

Record FunctionConfiguration : Type :=
  { FunctionArn : string; Version : string }.

Record FilterRule : Type := { Name : string; Value : string }.

(** One Lambda subscription of a bucket.  [Filter = Some rules] stands for
    [{Key: {FilterRules: rules}}]; [None] for a rule without the field. *)
Record LambdaFunctionConfiguration : Type := {
  Id : option string;
  LambdaFunctionArn : option string;
  Events : list string;
  Filter : option (list FilterRule)
}.

(** A bucket's notification configuration: the Lambda subscriptions
    ([None] when the property is missing) and its other properties. *)
Record NotificationConfiguration : Type := {
  LambdaFunctionConfigurations : option (list LambdaFunctionConfiguration);
  other_properties : list (string * json)
}.

(** Requests of the AWS SDK.  Calling an operation without a callback
    only builds the request; it is sent by [.promise()]. *)
Inductive Request : Type :=
| GetFunctionConfiguration (FunctionName : string) (Qualifier : option string)
| PutRolePolicy (RoleName PolicyName : string) (PolicyDocument : json)
| AddPermission (Action FunctionName Principal SourceArn : string)
    (Qualifier : option string) (StatementId : string)
| GetBucketNotificationConfiguration (Bucket : option string)
| PutBucketNotificationConfiguration (Bucket : option string)
    (NotificationConfiguration : NotificationConfiguration).

Inductive Event : Type :=
| LoadConfig
| Sent (request : Request).

Record World : Type := {
  now : Z;
  iamNameSanitize : string -> string;
  loadConfig : result LambdaConfig;
  getFunctionConfiguration : result FunctionConfiguration;
  putRolePolicy : result unit;
  addPermission : result unit;
  getBucketNotificationConfiguration : result (option NotificationConfiguration);
  putBucketNotificationConfiguration : result unit
}.

(** The variables of the closure. *)
Record State : Type := {
  lambdaConfig : option LambdaConfig;
  awsPartition : option string
}.

Definition initial : State := {| lambdaConfig := None; awsPartition := None |}.

Definition Pipeline : Type -> Type := M State Event.

Section Command.
Variable options : Options.
Variable world : World.

(** [request.promise()]: the request is sent and the promise settles
    with the service's answer. *)
Definition promise {A} (request : Request) (answer : result A) : Pipeline A :=
  call (Sent request) answer.

(** Reading a property of [lambdaConfig] before it is set throws. *)
Definition the_lambdaConfig : Pipeline LambdaConfig :=
  let* st := get in
  match lambdaConfig st with
  | Some c => resolve c
  | None => reject (ErrObject None "TypeError")
  end.

Definition ts : string := pretty (now world).

Definition getLambda (config : LambdaConfig) : Pipeline FunctionConfiguration :=
  modify (fun st => {| lambdaConfig := Some config;
                       awsPartition := awsPartition st |}) >>
  promise (GetFunctionConfiguration (name config) (version options))
          (getFunctionConfiguration world).

Definition readConfig : Pipeline unit :=
  let* config := call LoadConfig (loadConfig world) in
  let* result := getLambda config in
  let* c := the_lambdaConfig in
  modify (fun st =>
    {| lambdaConfig :=
         Some {| name := name c; region := region c; role := role c;
                 arn := Some (FunctionArn result);
                 lambda_version := Some (Version result) |};
       awsPartition := split_on ":" (FunctionArn result) !! 1%nat |}).

Definition addS3AccessPolicy : Pipeline unit :=
  let* c := the_lambdaConfig in
  let* st := get in
  promise
    (PutRolePolicy (role c)
       (iamNameSanitize world
          ("s3-" +:+ show (bucket options) +:+ "-access-" +:+ ts))
       (JObj [("Version", JStr "2012-10-17");
              ("Statement",
               JArr [JObj [("Effect", JStr "Allow");
                           ("Action", JArr [JStr "s3:*"]);
                           ("Resource",
                            JArr [JStr ("arn:" +:+ show (awsPartition st) +:+
                                        ":s3:::" +:+ show (bucket options) +:+
                                        "/*")])]])]))
    (putRolePolicy world).

(** [return lambda.addPermission({...})]: the request is built and
    returned as it is. *)
Definition addInvokePermission : Pipeline Request :=
  let* c := the_lambdaConfig in
  let* st := get in
  resolve
    (AddPermission "lambda:InvokeFunction" (name c) "s3.amazonaws.com"
       ("arn:" +:+ show (awsPartition st) +:+ ":s3:::" +:+ show (bucket options))
       (version options)
       (iamNameSanitize world (show (bucket options) +:+ "-access-" +:+ ts))).

Definition filterRules : list FilterRule :=
  (if supplied (prefix options)
   then [{| Name := "prefix"; Value := default "" (prefix options) |}]
   else []) ++
  (if supplied (suffix options)
   then [{| Name := "suffix"; Value := default "" (suffix options) |}]
   else []).

(** The new rule, for a function whose ARN is [arn]. *)
Definition eventConfig (arn : option string) : LambdaFunctionConfiguration :=
  {| Id := None;
     LambdaFunctionArn := arn;
     Events :=
       if supplied (events options)
       then split_on "," (default "" (events options))
       else ["s3:ObjectCreated:*"];
     Filter :=
       if bool_decide (length filterRules = 0%nat) then None
       else Some filterRules |}.

(** The handler of the fetched configuration, up to the write:
    [currentConfig || {}], a missing subscription list made empty, the
    new rule pushed at its end. *)
Definition merge (currentConfig : option NotificationConfiguration)
    (eventConfig : LambdaFunctionConfiguration) : NotificationConfiguration :=
  let merged :=
    default {| LambdaFunctionConfigurations := None;
               other_properties := [] |} currentConfig in
  let subscriptions := default [] (LambdaFunctionConfigurations merged) in
  {| LambdaFunctionConfigurations := Some (subscriptions ++ [eventConfig]);
     other_properties := other_properties merged |}.

Definition addBucketNotificationConfig : Pipeline unit :=
  let* c := the_lambdaConfig in
  let* currentConfig :=
    promise (GetBucketNotificationConfiguration (bucket options))
            (getBucketNotificationConfiguration world) in
  promise
    (PutBucketNotificationConfiguration (bucket options)
       (merge currentConfig (eventConfig (arn c))))
    (putBucketNotificationConfiguration world).

(** [module.exports = function addS3EventSource(options)] *)
Definition addS3EventSource : Pipeline unit :=
  if negb (supplied (bucket options))
  then reject (ErrString "没有指定 bucket 桶的名称，请使用 --bucket 指定")
  else
    readConfig
    >>= (fun _ => addS3AccessPolicy)
    >>= (fun _ => addInvokePermission)
    >>= (fun _ => addBucketNotificationConfig).

End Command.

End S3EventSource.

(** ** The [setVersion] command *)

Module SetVersion.

Record Options : Type := {
  version : option string;
  region : option string;
  source : option string;
  config : option string
}.

(** The loaded descriptor: [config.lambda] with the two required fields,
    and [config.api] when the descriptor has one. *)
Record LambdaConfig : Type := { name : string; lambda_region : string }.
Record ApiConfig : Type := { id : option string }.
Record Config : Type := { lambda : LambdaConfig; api : option ApiConfig }.

Record OwnerInfo : Type := { account : string; partition : string }.

Inductive Event : Type :=
| LogStage (message : string)
| LoadConfig
| GetFunctionConfiguration (FunctionName : string)
| UpdateEnvVars (FunctionName : string) (existing : json)
| PublishVersion (FunctionName : string)
| MarkAlias (functionName versionName versionAlias : string)
| GetOwnerInfo (region : option string)
| AllowApiInvocation (functionName version apiId account partition region : string)
| CreateDeployment (restApiId stageName lambdaVersion : string).

(** The collaborators of the command, none of which is under src/: how
    each of them settles. *)
Record World : Type := {
  readEnvVarsFromOptions : result unit;
  loadConfig : result Config;
  getFunctionConfiguration : result json;
  updateEnvVars : json -> result unit;
  publishVersion : result string;
  markAlias : string -> string -> string -> result unit;
  getOwnerInfo : result OwnerInfo;
  allowApiInvocation : result unit;
  createDeployment : result unit;
  apiGWUrl : string -> string -> string -> string
}.

(** The variables of the closure. *)
Record State : Type := {
  lambdaConfig : option LambdaConfig;
  apiConfig : option ApiConfig
}.

Definition initial : State := {| lambdaConfig := None; apiConfig := None |}.

Definition Pipeline : Type -> Type := M State Event.

Section Command.
Variable options : Options.
Variable world : World.

Definition logStage (message : string) : Pipeline unit :=
  emit (LogStage message).

(** Reading a property of [lambdaConfig] or [apiConfig] before it is set
    throws. *)
Definition the_lambdaConfig : Pipeline LambdaConfig :=
  let* st := get in
  match lambdaConfig st with
  | Some c => resolve c
  | None => reject (ErrObject None "TypeError")
  end.

Definition the_apiConfig : Pipeline ApiConfig :=
  let* st := get in
  match apiConfig st with
  | Some a => resolve a
  | None => reject (ErrObject None "TypeError")
  end.

Definition updateApi : Pipeline json :=
  call (GetOwnerInfo (region options)) (getOwnerInfo world)
  >>= (fun ownerInfo =>
         let* c := the_lambdaConfig in
         let* a := the_apiConfig in
         call (AllowApiInvocation (name c) (default "" (version options))
                 (show (id a)) (account ownerInfo) (partition ownerInfo)
                 (lambda_region c))
              (allowApiInvocation world))
  >>= (fun _ =>
         let* a := the_apiConfig in
         call (CreateDeployment (show (id a)) (default "" (version options))
                 (default "" (version options)))
              (createDeployment world))
  >>= (fun _ =>
         let* c := the_lambdaConfig in
         let* a := the_apiConfig in
         resolve (JObj [("url",
                         JStr (apiGWUrl world (show (id a)) (lambda_region c)
                                 (default "" (version options))))])).

Definition updateConfiguration : Pipeline unit :=
  logStage "更新配置" >>
  (resolve tt
   >>= (fun _ =>
          let* c := the_lambdaConfig in
          call (GetFunctionConfiguration (name c))
               (getFunctionConfiguration world))
   >>= (fun functionConfiguration =>
          let* c := the_lambdaConfig in
          let environment := jget "Environment" functionConfiguration in
          let existing :=
            if jtruthy environment then jget "variables" environment
            else environment in
          call (UpdateEnvVars (name c) existing)
               (updateEnvVars world existing))).

(** [module.exports = function setVersion(options, optionalLogger)] *)
Definition setVersion : Pipeline json :=
  if negb (supplied (version options))
  then reject (ErrString "版本信息未指定，请使用 --version 指定版本")
  else
    match readEnvVarsFromOptions world with
    | Err e => reject e
    | Ok _ =>
        logStage "加载配置" >>
        (call LoadConfig (loadConfig world)
         >>= (fun config =>
                modify (fun _ => {| lambdaConfig := Some (lambda config);
                                    apiConfig := api config |}))
         >>= (fun _ => updateConfiguration)
         >>= (fun _ =>
                logStage "更新版本" >>
                let* c := the_lambdaConfig in
                call (PublishVersion (name c)) (publishVersion world))
         >>= (fun versionResult =>
                let* c := the_lambdaConfig in
                call (MarkAlias (name c) versionResult
                        (default "" (version options)))
                     (markAlias world (name c) versionResult
                        (default "" (version options))))
         >>= (fun _ =>
                let* st := get in
                match apiConfig st with
                | Some a =>
                    if supplied (id a) then updateApi else resolve JUndefined
                | None => resolve JUndefined
                end))
    end.

End Command.

End SetVersion.

(** ** The express proxy generator ([generateServerlessExpressProxy]) *)

Module ExpressProxy.

Record Options : Type := {
  source : option string;
  aws_serverless_express_module : option string;
  proxy_module_name : option string;
  express_module : option string
}.

Inductive Event : Type :=
| RunNpm (dir : string) (args : list string)
| WriteFile (path contents : string).

Record World : Type := {
  cwd : string;
  path_join : string -> string -> string;
  fileExists : string -> bool;
  runNpm : result unit;
  writeFile : result unit
}.

Definition Pipeline : Type -> Type := M unit Event.

Section Command.
Variable options : Options.
Variable world : World.

Definition source_dir : string :=
  if supplied (source options) then default "" (source options)
  else cwd world.

Definition serverlessModule : string :=
  if supplied (aws_serverless_express_module options)
  then default "" (aws_serverless_express_module options)
  else "aws-serverless-express".

Definition proxyModuleName : string :=
  if supplied (proxy_module_name options)
  then default "" (proxy_module_name options)
  else "lambda".

Definition proxyModulePath : string :=
  path_join world source_dir (proxyModuleName +:+ ".js").

Definition installDependencies (targetDir : string) : Pipeline unit :=
  call (RunNpm targetDir ["install"; serverlessModule; "-S"]) (runNpm world).

(** The template literal, line by line. *)
Definition contents (expressModule : string) : string :=
  "'use strict'" +:+ nl +:+
  "                const awsServerlessExpress = require('aws-serverless-express')" +:+ nl +:+
  "                const app = require('./" +:+ expressModule +:+ "')" +:+ nl +:+
  "                const binaryMimeTypes = [" +:+ nl +:+
  "                    'application/octet-stream'," +:+ nl +:+
  "                    'font/eot'," +:+ nl +:+
  "                    'font/opentype'," +:+ nl +:+
  "                    'font/otf'," +:+ nl +:+
  "                    'image/jpeg'," +:+ nl +:+
  "                    'image/png'," +:+ nl +:+
  "                    'image/svg+xml'" +:+ nl +:+
  "                ]" +:+ nl +:+
  "                const server = awsServerlessExpress.createServer(app, null, binaryMimeTypes);" +:+ nl +:+
  "                exports.handler = (event, context) => awsServerlessExpress.proxy(server, event, context)" +:+ nl +:+
  "                ".

(** [module.exports = function generateServerlessExpressProxy(options,
    optionalLogger)].  The fourth test calls [fileExists('-e',
    proxyModulePath)]: the path the helper is given is its first
    argument. *)
Definition generateServerlessExpressProxy : Pipeline json :=
  if negb (supplied (express_module options)) then
    reject (ErrString "请使用 --express-module 指定express应用模块")
  else
    let expressModule := default "" (express_module options) in
    if negb (fileExists world (path_join world source_dir (expressModule +:+ ".js")))
    then reject (ErrString ("目标目录下不包含 " +:+ expressModule +:+ ".js"))
    else if negb (fileExists world (path_join world source_dir "package.json"))
    then reject (ErrString "目标路径不是一个node.js项目")
    else if fileExists world "-e"
    then reject (ErrString (proxyModuleName +:+ ".js已经存在目标目录下"))
    else if contains_char "/" proxyModuleName
    then reject (ErrString (proxyModuleName +:+ ".js 不能在一个子目录下"))
    else
      installDependencies source_dir
      >>= (fun _ =>
             call (WriteFile proxyModulePath (contents expressModule))
                  (writeFile world))
      >>= (fun _ =>
             resolve (JObj [("lambda-handler",
                             JStr (proxyModuleName +:+ ".handler"))])).

End Command.

End ExpressProxy.

(** ** Vocabulary of the statements *)

(** An option (or environment variable) that selects nothing: absent, the
    string ['0'], or text that [parseInt] cannot read a number from. *)
Definition selects_nothing (o : option string) : bool :=
  match o with
  | None => true
  | Some s => String.eqb s "0" || bool_decide (parseInt10 s = None)
  end.

(** The events by which [cleanup] removes the staging directory and the
    temporary archive. *)
Definition is_removal (e : Create.Event) : bool :=
  match e with
  | Create.RmDir _ | Create.UnlinkSync _ => true
  | _ => false
  end.

(** The requests by which a label is bound in an alias table: the
    creation, followed by the update when the label is already there. *)
Definition upsert_requests (table : Create.AliasTable)
    (fn ver label : string) : list Create.Event :=
  if bool_decide (is_Some (Create.alias_lookup table fn label))
  then [Create.LambdaCreateAlias fn ver label;
        Create.LambdaUpdateAlias fn ver label]
  else [Create.LambdaCreateAlias fn ver label].

(** What an alias request of [markAliases] may be: for the function just
    created, either label 'latest' on the $LATEST reference or the
    requested label on the version the creation published. *)
Definition alias_target_ok (o : Create.Options) (lambdaData : Create.LambdaMetadata)
    (request : option (string * string * string)) : Prop :=
  match request with
  | None => True
  | Some (fn, ver, label) =>
      fn = Create.FunctionName lambdaData /\
      ((ver = "$LATEST" /\ label = "latest") \/
       (supplied (Create.version o) = true /\
        ver = Create.Version lambdaData /\
        label = default "" (Create.version o)))
  end.

(** The same for a whole run of [create], in which function creation was
    answered with [bound] (if it was answered at all). *)
Definition alias_target_in_run (o : Create.Options)
    (bound : option Create.FunctionConfiguration)
    (request : option (string * string * string)) : Prop :=
  match request with
  | None => True
  | Some binding =>
      exists response,
        bound = Some response /\
        alias_target_ok o (Create.metadata_of response) (Some binding)
  end.


(** The alias requests of a trace, as (function, version, label). *)
Definition alias_request (e : Create.Event) : option (string * string * string) :=
  match e with
  | Create.LambdaCreateAlias fn ver label
  | Create.LambdaUpdateAlias fn ver label => Some (fn, ver, label)
  | _ => None
  end.

Definition is_staging (e : Create.Event) : bool :=
  match e with
  | Create.Mkdtemp _ | Create.Zipdir _ => true
  | _ => false
  end.

Definition is_createFunction (e : Create.Event) : bool :=
  match e with
  | Create.LambdaCreateFunction _ => true
  | _ => false
  end.

Definition is_addPermission (e : S3EventSource.Event) : bool :=
  match e with
  | S3EventSource.Sent (S3EventSource.AddPermission _ _ _ _ _ _) => true
  | _ => false
  end.

Definition is_notification_write (e : S3EventSource.Event) : bool :=
  match e with
  | S3EventSource.Sent (S3EventSource.PutBucketNotificationConfiguration _ _) => true
  | _ => false
  end.

(** ** Sample runs *)

Module Sample.

(** [--region us-east-1 --handler main.handler], with an optional
    [--version], [--use-s3-bucket] and [--api-module]. *)
Definition options (version bucket api_module : option string) : Create.Options :=
  {| Create.region := Some "us-east-1";
     Create.handler :=
       match api_module with Some _ => None | None => Some "main.handler" end;
     Create.api_module := api_module;
     Create.deploy_proxy_api := false; Create.name := None;
     Create.description := None; Create.version := version;
     Create.source := None; Create.config := None; Create.policies := None;
     Create.allow_recursion := false; Create.role := None;
     Create.runtime := None; Create.memory := None; Create.timeout := None;
     Create.cache_api_config := None; Create.keep := false;
     Create.use_s3_bucket := bucket; Create.s3_key := None;
     Create.s3_see := None; Create.aws_delay := None;
     Create.aws_retries := None; Create.env_kms_key_arn := None;
     Create.Layers := None |}.

Definition both_options : Create.Options :=
  {| Create.region := Some "us-east-1";
     Create.handler := Some "main.handler"; Create.api_module := Some "web";
     Create.deploy_proxy_api := false; Create.name := None;
     Create.description := None; Create.version := None;
     Create.source := None; Create.config := None; Create.policies := None;
     Create.allow_recursion := false; Create.role := None;
     Create.runtime := None; Create.memory := None; Create.timeout := None;
     Create.cache_api_config := None; Create.keep := false;
     Create.use_s3_bucket := None; Create.s3_key := None;
     Create.s3_see := None; Create.aws_delay := None;
     Create.aws_retries := None; Create.env_kms_key_arn := None;
     Create.Layers := None |}.

Definition created : Create.FunctionConfiguration :=
  {| Create.fc_FunctionName := "app"; Create.fc_Version := "1" |}.

Definition deployed : Create.LambdaMetadata := Create.metadata_of created.

Definition role_pending : error :=
  ErrObject (Some "InvalidParameterValueException")
    "The role defined for the function cannot be assumed by Lambda.".

Definition access_denied : error :=
  ErrObject (Some "AccessDeniedException") "not authorized".

(** A project in [/app] with a [package.json] and no [sln.json]; every
    collaborator succeeds, function creation settles as [creation] says
    and the upload yields [code]. *)
Definition world (creation : nat -> result Create.FunctionConfiguration)
    (code : Create.FunctionCode) : Create.World :=
  {| Create.cwd := "/app";
     Create.env_AWS_DELAY := None;
     Create.tmpdir := "/tmp";
     Create.path_sep := "/";
     Create.path_join := fun a b => a +:+ "/" +:+ b;
     Create.path_dirname := fun _ => "/app";
     Create.path_basename := fun p => p;
     Create.path_resolve := fun p => p;
     Create.isDir := fun _ => true;
     Create.isFile := fun _ => true;
     Create.fileExists := fun p => String.eqb p "/app/package.json";
     Create.recursiveList := fun _ => [];
     Create.isRoleArn := fun _ => false;
     Create.apiGWUrl := fun id _ alias => id +:+ "/" +:+ alias;
     Create.initEnvVarsFromOptions := Ok None;
     Create.readJson := fun _ =>
       Ok {| Create.pkg_name := Some "app"; Create.pkg_description := None |};
     Create.getOwnerInfo :=
       Ok {| Create.account := "123456789012"; Create.partition := "aws" |};
     Create.mkdtemp := Ok "/tmp/a1";
     Create.collectFiles := Ok "/tmp/a1/app";
     Create.validatePackage := Ok "/tmp/a1/app";
     Create.cleanUpPackage := Ok "/tmp/a1/app";
     Create.zipdir := Ok "/tmp/a1.zip";
     Create.iam_getRole := fun n =>
       Ok {| Create.RoleName := n; Create.Arn := "arn:aws:iam::role/" +:+ n |};
     Create.iam_createRole := fun n =>
       Ok {| Create.RoleName := n; Create.Arn := "arn:aws:iam::role/" +:+ n |};
     Create.iam_putRolePolicy := Ok tt;
     Create.addPolicy := fun _ _ _ => Ok tt;
     Create.lambadCode := Ok code;
     Create.lambda_createFunction := creation;
     Create.lambda_alias_fault := fun _ => None;
     Create.require_api_module := fun _ =>
       Ok {| Create.apiConfig := Some "routes"; Create.postDeploy := None |};
     Create.createRestApi := Ok "api1";
     Create.rebuildWebApi := Ok tt;
     Create.deployProxyApi := fun m => Ok m;
     Create.writeFile := Ok tt;
     Create.rmDir := Ok tt;
     Create.unlinkSync := Ok tt |}.

Definition with_AWS_DELAY (delay : option string) (w : Create.World)
  : Create.World :=
  {| Create.cwd := Create.cwd w;
     Create.env_AWS_DELAY := delay;
     Create.tmpdir := Create.tmpdir w;
     Create.path_sep := Create.path_sep w;
     Create.path_join := Create.path_join w;
     Create.path_dirname := Create.path_dirname w;
     Create.path_basename := Create.path_basename w;
     Create.path_resolve := Create.path_resolve w;
     Create.isDir := Create.isDir w;
     Create.isFile := Create.isFile w;
     Create.fileExists := Create.fileExists w;
     Create.recursiveList := Create.recursiveList w;
     Create.isRoleArn := Create.isRoleArn w;
     Create.apiGWUrl := Create.apiGWUrl w;
     Create.initEnvVarsFromOptions := Create.initEnvVarsFromOptions w;
     Create.readJson := Create.readJson w;
     Create.getOwnerInfo := Create.getOwnerInfo w;
     Create.mkdtemp := Create.mkdtemp w;
     Create.collectFiles := Create.collectFiles w;
     Create.validatePackage := Create.validatePackage w;
     Create.cleanUpPackage := Create.cleanUpPackage w;
     Create.zipdir := Create.zipdir w;
     Create.iam_getRole := Create.iam_getRole w;
     Create.iam_createRole := Create.iam_createRole w;
     Create.iam_putRolePolicy := Create.iam_putRolePolicy w;
     Create.addPolicy := Create.addPolicy w;
     Create.lambadCode := Create.lambadCode w;
     Create.lambda_createFunction := Create.lambda_createFunction w;
     Create.lambda_alias_fault := Create.lambda_alias_fault w;
     Create.require_api_module := Create.require_api_module w;
     Create.createRestApi := Create.createRestApi w;
     Create.rebuildWebApi := Create.rebuildWebApi w;
     Create.deployProxyApi := Create.deployProxyApi w;
     Create.writeFile := Create.writeFile w;
     Create.rmDir := Create.rmDir w;
     Create.unlinkSync := Create.unlinkSync w |}.

Definition zip_code : Create.FunctionCode :=
  {| Create.ZipFile := Some "<archive>"; Create.S3Bucket := None;
     Create.S3Key := None |}.


Definition s3_options : S3EventSource.Options :=
  {| S3EventSource.bucket := Some "photos"; S3EventSource.prefix := None;
     S3EventSource.suffix := None; S3EventSource.version := None;
     S3EventSource.events := None; S3EventSource.source := None;
     S3EventSource.config := None |}.

(** A deployed function [app], a bucket without subscriptions, and every
    request answered with success. *)
Definition s3_world : S3EventSource.World :=
  {| S3EventSource.now := 1700000000000;
     S3EventSource.iamNameSanitize := fun s => s;
     S3EventSource.loadConfig :=
       Ok {| S3EventSource.name := "app"; S3EventSource.region := "us-east-1";
             S3EventSource.role := "app-role"; S3EventSource.arn := None;
             S3EventSource.lambda_version := None |};
     S3EventSource.getFunctionConfiguration :=
       Ok {| S3EventSource.FunctionArn :=
               "arn:aws:lambda:us-east-1:123456789012:function:app";
             S3EventSource.Version := "$LATEST" |};
     S3EventSource.putRolePolicy := Ok tt;
     S3EventSource.addPermission := Ok tt;
     S3EventSource.getBucketNotificationConfiguration := Ok None;
     S3EventSource.putBucketNotificationConfiguration := Ok tt |}.

End Sample.

(** ** Vocabulary of the further statements *)

(** Requests that create a role or attach the logging policy to it. *)
Definition creates_role (e : Create.Event) : bool :=
  match e with
  | Create.IamCreateRole _ | Create.IamPutRolePolicy _ _ _ => true
  | _ => false
  end.

Definition is_getRole (e : Create.Event) : bool :=
  match e with
  | Create.IamGetRole _ => true
  | _ => false
  end.

(** Events of the gateway set-up, by either way. *)
Definition is_gateway (e : Create.Event) : bool :=
  match e with
  | Create.RequireApiModule _ | Create.CreateRestApi _
  | Create.RebuildWebApi _ _ _ | Create.PostDeploy
  | Create.DeployProxyApi _ => true
  | _ => false
  end.

Definition is_deployProxyApi (e : Create.Event) : bool :=
  match e with
  | Create.DeployProxyApi _ => true
  | _ => false
  end.

(** The characters [/[^A-z0-9]/] does not match. *)
Definition policy_name_char (c : ascii) : bool :=
  let n := nat_of_ascii c in
  ((65 <=? n)%nat && (n <=? 122)%nat) || ((48 <=? n)%nat && (n <=? 57)%nat).

Fixpoint all_chars (p : ascii -> bool) (s : string) : bool :=
  match s with
  | EmptyString => true
  | String c r => p c && all_chars p r
  end.

(** The first rejection among the outcomes of calls started together. *)
Fixpoint first_error {A : Type} (outcomes : list (result A)) : option error :=
  match outcomes with
  | [] => None
  | Err e :: _ => Some e
  | Ok _ :: rest => first_error rest
  end.

(** A chain that settles with a rejection from every state. *)
Definition never_returns {S E A : Type} (m : M S E A) : Prop :=
  forall st, exists e, outcome (m st) = Err e.

(** A chain whose final state is always related to its first one. *)
Definition preserves {S E A : Type} (R : S -> S -> Prop) (m : M S E A) : Prop :=
  forall st, R st (final (m st)).

(** The events of [create] that reach beyond packaging: requests to the
    identity, function, storage and gateway services, and the write of
    the configuration file. *)
Definition provisions (e : Create.Event) : bool :=
  match e with
  | Create.IamGetRole _ | Create.IamCreateRole _
  | Create.IamPutRolePolicy _ _ _ | Create.AddPolicy _ _ _
  | Create.LambadCode _ _ _ _ | Create.LambdaCreateFunction _
  | Create.LambdaCreateAlias _ _ _ | Create.LambdaUpdateAlias _ _ _
  | Create.RequireApiModule _ | Create.CreateRestApi _
  | Create.RebuildWebApi _ _ _ | Create.PostDeploy
  | Create.DeployProxyApi _ | Create.WriteFile _ _ => true
  | _ => false
  end.

(** The packaging steps of [create] all settled with a value. *)
Definition packaged (w : Create.World) : Prop :=
  (exists ownerInfo, Create.getOwnerInfo w = Ok ownerInfo) /\
  (exists dir, Create.mkdtemp w = Ok dir) /\
  (exists dir, Create.collectFiles w = Ok dir) /\
  (exists dir, Create.validatePackage w = Ok dir) /\
  (exists dir, Create.cleanUpPackage w = Ok dir) /\
  (exists zipFile, Create.zipdir w = Ok zipFile).

(** The staging variables of [create] are the same in both states. *)
Definition staging_kept (st st' : Create.State) : Prop :=
  Create.workingDir st' = Create.workingDir st /\
  Create.packageArchive st' = Create.packageArchive st.

(** What [cleanup] may remove: the directory [mkdtemp] made and the
    archive [zipdir] wrote. *)
Definition removal_ok (w : Create.World) (e : Create.Event) : Prop :=
  match e with
  | Create.RmDir d => exists dir, Create.mkdtemp w = Ok dir /\ d = Some dir
  | Create.UnlinkSync z =>
      exists zipFile, Create.zipdir w = Ok zipFile /\ z = Some zipFile
  | _ => True
  end.

(** The role a run of [create] works with, for a function of the given
    name: the supplied ARN taken as it is, the supplied role as the
    identity service returned it, or the role created as [<name>-role]. *)
Definition role_of_run (o : Create.Options) (w : Create.World)
    (functionName : string) (r : Create.RoleMetadata) : Prop :=
  if supplied (Create.role o) then
    if Create.isRoleArn w (default "" (Create.role o))
    then r = {| Create.RoleName := default "" (Create.role o);
                Create.Arn := default "" (Create.role o) |}
    else Create.iam_getRole w (default "" (Create.role o)) = Ok r
  else Create.iam_createRole w (functionName +:+ "-role") = Ok r.

(** A function-creation request that carries what the run prepared: the
    environment read from the options, the name resolved from the
    options or the package, the code [lambadCode] produced and the ARN of
    the role of the run; it asks for a published version. *)
Definition creation_request_ok (o : Create.Options) (w : Create.World)
    (p : Create.CreateFunctionParams) : Prop :=
  exists env json code r n,
    Create.initEnvVarsFromOptions w = Ok env /\
    Create.readJson w
      (Create.path_join w (Create.source_dir o w) "package.json") = Ok json /\
    Create.lambadCode w = Ok code /\
    or_opt (Create.name o) (Create.pkg_name json) = Some n /\
    n <> "" /\
    role_of_run o w n r /\
    Create.cf_Environment p = env /\
    Create.cf_FunctionName p = Some n /\
    Create.cf_Code p = code /\
    Create.cf_Role p = Create.Arn r /\
    Create.cf_Publish p = true.

(** A request of [create] that is fed by the steps before it: the files
    are collected into the directory [mkdtemp] made; validation, clean-up
    and archiving each work on the directory the step before returned;
    a role is created under the resolved function name; the logging
    policy goes to the role just created, for the partition of the owner
    lookup; and the code is produced from the archive [zipdir] wrote,
    with the storage options as given. *)
Definition fed_by_previous (o : Create.Options) (w : Create.World)
    (e : Create.Event) : Prop :=
  match e with
  | Create.CollectFiles src dir =>
      src = Create.source_dir o w /\
      exists made, Create.mkdtemp w = Ok made /\ dir = Some made
  | Create.ValidatePackage dir => Create.collectFiles w = Ok dir
  | Create.CleanUpPackage dir => Create.validatePackage w = Ok dir
  | Create.Zipdir dir => Create.cleanUpPackage w = Ok dir
  | Create.IamCreateRole roleName =>
      supplied (Create.role o) = false /\
      exists json n,
        Create.readJson w
          (Create.path_join w (Create.source_dir o w) "package.json")
          = Ok json /\
        or_opt (Create.name o) (Create.pkg_name json) = Some n /\
        roleName = n +:+ "-role"
  | Create.IamPutRolePolicy roleName policyName partition =>
      supplied (Create.role o) = false /\
      policyName = "log-writer" /\
      (exists created r,
         Create.iam_createRole w created = Ok r /\
         roleName = Create.RoleName r) /\
      (exists ownerInfo,
         Create.getOwnerInfo w = Ok ownerInfo /\
         partition = Some (Create.partition ownerInfo))
  | Create.LambadCode archive bucket sse key =>
      (exists zipFile, Create.zipdir w = Ok zipFile /\ archive = Some zipFile) /\
      bucket = Create.use_s3_bucket o /\
      sse = Create.s3_see o /\
      key = Create.s3_key o
  | _ => True
  end.

(** ** Further sample runs *)

Module Scenario.

(** [--region eu-west-1 --handler api.handler --name svc --version dev
     --role arn:aws:iam::123456789012:role/exec --policies policies
     --memory 512 --timeout 30 --aws-delay 250 --aws-retries 3 --keep] *)
Definition options : Create.Options :=
  {| Create.region := Some "eu-west-1";
     Create.handler := Some "api.handler";
     Create.api_module := None;
     Create.deploy_proxy_api := false; Create.name := Some "svc";
     Create.description := None; Create.version := Some "dev";
     Create.source := None; Create.config := None;
     Create.policies := Some "policies";
     Create.allow_recursion := false;
     Create.role := Some "arn:aws:iam::123456789012:role/exec";
     Create.runtime := None; Create.memory := Some 512;
     Create.timeout := Some 30;
     Create.cache_api_config := None; Create.keep := true;
     Create.use_s3_bucket := None; Create.s3_key := None;
     Create.s3_see := None; Create.aws_delay := Some "250";
     Create.aws_retries := Some "3"; Create.env_kms_key_arn := None;
     Create.Layers := None |}.

(** The project of [Sample.world], with a directory of two policy files
    and a helper that recognises role ARNs. *)
Definition world : Create.World :=
  {| Create.cwd := "/app";
     Create.env_AWS_DELAY := Some "100";
     Create.tmpdir := "/tmp";
     Create.path_sep := "/";
     Create.path_join := fun a b => a +:+ "/" +:+ b;
     Create.path_dirname := fun _ => "/app";
     Create.path_basename := fun p => default p (last (split_on "/" p));
     Create.path_resolve := fun p => p;
     Create.isDir := fun _ => true;
     Create.isFile := fun _ => true;
     Create.fileExists := fun p => String.eqb p "/app/package.json";
     Create.recursiveList := fun d =>
       if String.eqb d "policies" then ["s3 read.json"; "queue.json"] else [];
     Create.isRoleArn := fun r => String.prefix "arn:" r;
     Create.apiGWUrl := fun id _ alias => id +:+ "/" +:+ alias;
     Create.initEnvVarsFromOptions := Ok None;
     Create.readJson := fun _ =>
       Ok {| Create.pkg_name := Some "app"; Create.pkg_description := None |};
     Create.getOwnerInfo :=
       Ok {| Create.account := "123456789012"; Create.partition := "aws" |};
     Create.mkdtemp := Ok "/tmp/a1";
     Create.collectFiles := Ok "/tmp/a1/app";
     Create.validatePackage := Ok "/tmp/a1/app";
     Create.cleanUpPackage := Ok "/tmp/a1/app";
     Create.zipdir := Ok "/tmp/a1.zip";
     Create.iam_getRole := fun n =>
       Ok {| Create.RoleName := n; Create.Arn := "arn:aws:iam::role/" +:+ n |};
     Create.iam_createRole := fun n =>
       Ok {| Create.RoleName := n; Create.Arn := "arn:aws:iam::role/" +:+ n |};
     Create.iam_putRolePolicy := Ok tt;
     Create.addPolicy := fun _ _ file =>
       if String.eqb file "policies/queue.json"
       then Err Sample.access_denied else Ok tt;
     Create.lambadCode := Ok Sample.zip_code;
     Create.lambda_createFunction := fun _ => Ok Sample.created;
     Create.lambda_alias_fault := fun _ => None;
     Create.require_api_module := fun _ =>
       Ok {| Create.apiConfig := Some "routes";
             Create.postDeploy := Some (Ok (JStr "seeded")) |};
     Create.createRestApi := Ok "api1";
     Create.rebuildWebApi := Ok tt;
     Create.deployProxyApi := fun m => Ok m;
     Create.writeFile := Ok tt;
     Create.rmDir := Ok tt;
     Create.unlinkSync := Ok tt |}.

(** [--region us-east-1 --handler main.handler], with the retry options
    as given. *)
Definition retry_options (delay retries : option string) : Create.Options :=
  {| Create.region := Some "us-east-1";
     Create.handler := Some "main.handler";
     Create.api_module := None;
     Create.deploy_proxy_api := false; Create.name := None;
     Create.description := None; Create.version := None;
     Create.source := None; Create.config := None; Create.policies := None;
     Create.allow_recursion := false; Create.role := None;
     Create.runtime := None; Create.memory := None; Create.timeout := None;
     Create.cache_api_config := None; Create.keep := false;
     Create.use_s3_bucket := None; Create.s3_key := None;
     Create.s3_see := None; Create.aws_delay := delay;
     Create.aws_retries := retries; Create.env_kms_key_arn := None;
     Create.Layers := None |}.

(** A no-break space, then the digits of 250. *)
Definition padded_250 : string := String (ascii_of_nat 160) "250".

(** The closure variables once the role of the run is known. *)
Definition with_role : Create.State :=
  Create.set_roleMetadata
    (Some {| Create.RoleName := "exec";
             Create.Arn := "arn:aws:iam::123456789012:role/exec" |})
    (Create.initial []).

(** The function-creation request of the run of [Sample.options]. *)
Definition request : Create.CreateFunctionParams :=
  {| Create.cf_Code := Sample.zip_code;
     Create.cf_FunctionName := Some "app";
     Create.cf_Description := None;
     Create.cf_MemorySize := None;
     Create.cf_Timeout := None;
     Create.cf_Environment := None;
     Create.cf_KMSKeyArn := None;
     Create.cf_Handler := "main.handler";
     Create.cf_Role := "arn:aws:iam::role/app-role";
     Create.cf_Runtime := "nodejs12.x";
     Create.cf_Publish := true;
     Create.cf_Layers := None |}.

(** [--version dev] for a project whose descriptor names function [svc]
    and api [api1]; every collaborator succeeds. *)
Definition version_options : SetVersion.Options :=
  {| SetVersion.version := Some "dev"; SetVersion.region := Some "eu-west-1";
     SetVersion.source := None; SetVersion.config := None |}.

Definition version_world : SetVersion.World :=
  {| SetVersion.readEnvVarsFromOptions := Ok tt;
     SetVersion.loadConfig :=
       Ok {| SetVersion.lambda :=
               {| SetVersion.name := "svc";
                  SetVersion.lambda_region := "eu-west-1" |};
             SetVersion.api := Some {| SetVersion.id := Some "api1" |} |};
     SetVersion.getFunctionConfiguration := Ok (JObj []);
     SetVersion.updateEnvVars := fun _ => Ok tt;
     SetVersion.publishVersion := Ok "7";
     SetVersion.markAlias := fun _ _ _ => Ok tt;
     SetVersion.getOwnerInfo :=
       Ok {| SetVersion.account := "123456789012";
             SetVersion.partition := "aws" |};
     SetVersion.allowApiInvocation := Ok tt;
     SetVersion.createDeployment := Ok tt;
     SetVersion.apiGWUrl := fun id region stage =>
       "https://" +:+ id +:+ ".execute-api." +:+ region +:+
       ".amazonaws.com/" +:+ stage |}.

(** [--express-module server --source /app], in a project that has
    [server.js] and [package.json]. *)
Definition proxy_options : ExpressProxy.Options :=
  {| ExpressProxy.source := Some "/app";
     ExpressProxy.aws_serverless_express_module := None;
     ExpressProxy.proxy_module_name := None;
     ExpressProxy.express_module := Some "server" |}.

Definition proxy_world : ExpressProxy.World :=
  {| ExpressProxy.cwd := "/";
     ExpressProxy.path_join := fun a b => a +:+ "/" +:+ b;
     ExpressProxy.fileExists := fun p =>
       String.eqb p "/app/server.js" || String.eqb p "/app/package.json";
     ExpressProxy.runNpm := Ok tt;
     ExpressProxy.writeFile := Ok tt |}.

End Scenario.

(** * Properties *)

(** ** Traces of promise chains *)

Section Traces.
Context {S E : Type} (P : E -> Prop).
Local Abbreviation M := (M S E).

Lemma emits_only_resolve {A} (a : A) : emits_only P (resolve a : M A).
Proof. intros st. constructor. Qed.

Lemma emits_only_reject {A} e : emits_only P (reject e : M A).
Proof. intros st. constructor. Qed.

Lemma emits_only_settle {A} (r : result A) : emits_only P (settle r : M A).
Proof. intros st. constructor. Qed.

Lemma emits_only_get : emits_only P (get : M S).
Proof. intros st. constructor. Qed.

Lemma emits_only_modify f : emits_only P (modify f : M unit).
Proof. intros st. constructor. Qed.

Lemma emits_only_emit e : P e -> emits_only P (emit e : M unit).
Proof. intros He st. repeat constructor. exact He. Qed.

Lemma emits_only_bind {A B} (m : M A) (f : A -> M B) :
  emits_only P m -> (forall a, emits_only P (f a)) -> emits_only P (bind m f).
Proof.
  intros Hm Hf st. specialize (Hm st). unfold bind, events in *.
  destruct (m st) as [[ev1 st1] [a|e]]; simpl in *; [|exact Hm].
  specialize (Hf a st1). unfold events in Hf.
  destruct (f a st1) as [[ev2 st2] r]; simpl in *.
  apply Forall_app; split; assumption.
Qed.

Lemma emits_only_catch {A} (m : M A) (h : error -> M A) :
  emits_only P m -> (forall e, emits_only P (h e)) -> emits_only P (catch m h).
Proof.
  intros Hm Hh st. specialize (Hm st). unfold catch, events in *.
  destruct (m st) as [[ev1 st1] [a|e]]; simpl in *; [exact Hm|].
  specialize (Hh e st1). unfold events in Hh.
  destruct (h e st1) as [[ev2 st2] r]; simpl in *.
  apply Forall_app; split; assumption.
Qed.

Lemma emits_only_call {A} e (r : result A) :
  P e -> emits_only P (call e r : M A).
Proof.
  intros He. apply emits_only_bind.
  - apply emits_only_emit, He.
  - intros _. apply emits_only_settle.
Qed.

Lemma emits_only_all {A} (ms : list (M A)) :
  Forall (emits_only P) ms -> emits_only P (all ms).
Proof.
  induction 1 as [|m ms Hm _ IH]; intros st; [constructor|].
  specialize (Hm st). specialize (IH).
  unfold events in *. simpl.
  destruct (m st) as [[ev1 st1] r1]; simpl in *.
  specialize (IH st1).
  destruct (all ms st1) as [[ev2 st2] r2]; simpl in *.
  apply Forall_app; split; assumption.
Qed.

Lemma emits_only_retry_loop {A} (operation : M A) wait isRetryable onRetry n :
  emits_only P operation -> emits_only P wait -> emits_only P onRetry ->
  emits_only P (retry_loop operation wait isRetryable onRetry n).
Proof.
  intros Hop Hwait Hon. induction n as [|n IH]; simpl.
  - apply emits_only_catch; [exact Hop|].
    intros e. destruct (isRetryable e); apply emits_only_reject.
  - apply emits_only_catch; [exact Hop|].
    intros e. destruct (isRetryable e); [|apply emits_only_reject].
    apply emits_only_bind; [exact Hon|]. intros _.
    apply emits_only_bind; [exact Hwait|]. intros _. exact IH.
Qed.

(** A chain that settles with a value ran both of its links. *)
Lemma bind_Ok_inv {A B} (m : M A) (f : A -> M B) st evs st' b :
  bind m f st = (evs, st', Ok b) ->
  exists ev1 st1 a ev2,
    m st = (ev1, st1, Ok a) /\ f a st1 = (ev2, st', Ok b) /\
    evs = ev1 ++ ev2.
Proof.
  unfold bind. destruct (m st) as [[ev1 st1] [a|e]]; [|discriminate].
  destruct (f a st1) as [[ev2 st2] r] eqn:Hf. intros [= <- <- ->].
  exists ev1, st1, a, ev2. auto.
Qed.

(** A link after a rejection does not run. *)
Lemma bind_Err {A B} (m : M A) (f : A -> M B) st evs st' e :
  m st = (evs, st', Err e) -> bind m f st = (evs, st', Err e).
Proof. unfold bind. intros ->. reflexivity. Qed.


(** A retried operation settles only with values the operation itself
    settles with. *)
Lemma returns_only_retry_loop {A} (Q : A -> Prop) (operation : M A)
    wait isRetryable onRetry n :
  returns_only Q operation ->
  returns_only Q (retry_loop operation wait isRetryable onRetry n).
Proof.
  intros Hop. induction n as [|n IH]; intros st evs st' a; simpl; unfold catch.
  - destruct (operation st) as [[ev1 st1] [a1|e]] eqn:Hrun.
    + intros [= <- <- <-]. eapply Hop, Hrun.
    + destruct (isRetryable e); discriminate.
  - destruct (operation st) as [[ev1 st1] [a1|e]] eqn:Hrun.
    + intros [= <- <- <-]. eapply Hop, Hrun.
    + destruct (isRetryable e); [|discriminate].
      destruct (bind onRetry _ st1) as [[ev2 st2] r] eqn:Hretry.
      intros [= <- <- ->].
      apply bind_Ok_inv in Hretry as (? & ? & ? & ? & _ & Hretry & _).
      apply bind_Ok_inv in Hretry as (? & ? & ? & ? & _ & Hretry & _).
      eapply IH, Hretry.
Qed.

Lemma returns_only_bind {A B} (Q : B -> Prop) (m : M A) (f : A -> M B) :
  (forall a, returns_only Q (f a)) -> returns_only Q (bind m f).
Proof.
  intros Hf st evs st' b Hrun.
  apply bind_Ok_inv in Hrun as (? & ? & a & ? & _ & Hrun & _).
  eapply Hf, Hrun.
Qed.

(** The events of a chain, run from a given state: those of its first
    link, then those of the second on the value the first settled with. *)
Lemma Forall_events_bind {A B} (m : M A) (f : A -> M B) st :
  Forall P (events (m st)) ->
  (forall a, outcome (m st) = Ok a -> Forall P (events (f a (final (m st))))) ->
  Forall P (events (bind m f st)).
Proof.
  unfold bind, events, final, outcome.
  destruct (m st) as [[ev1 st1] [a|e]]; simpl; intros Hm Hf; [|exact Hm].
  specialize (Hf a eq_refl).
  destruct (f a st1) as [[ev2 st2] r]; simpl in *.
  apply Forall_app; split; assumption.
Qed.

Lemma bind_Ok {A B} (m : M A) (f : A -> M B) st ev1 st1 a :
  m st = (ev1, st1, Ok a) ->
  bind m f st =
    (ev1 ++ events (f a st1), final (f a st1), outcome (f a st1)).
Proof.
  unfold bind, events, final, outcome. intros ->.
  destruct (f a st1) as [[ev2 st2] r]. reflexivity.
Qed.
End Traces.

(** One step of a proof that a chain emits only events satisfying a
    decidable property: follow the structure of the chain. *)
Ltac trace_step :=
  lazymatch goal with
  | |- emits_only _ (if ?b then _ else _) => destruct b
  | |- emits_only _ (match ?x with _ => _ end) => destruct x
  | |- emits_only _ (resolve _) => apply emits_only_resolve
  | |- emits_only _ (reject _) => apply emits_only_reject
  | |- emits_only _ (settle _) => apply emits_only_settle
  | |- emits_only _ get => apply emits_only_get
  | |- emits_only _ (modify _) => apply emits_only_modify
  | |- emits_only _ (emit _) => apply emits_only_emit; simpl; auto
  | |- emits_only _ (call _ _) => apply emits_only_call; simpl; auto
  | |- emits_only _ (retry _ _ _ _ _ _) =>
      unfold retry; apply emits_only_retry_loop
  | |- emits_only _ (all (map _ _)) =>
      apply emits_only_all; apply Forall_map, Forall_forall; intros ? _
  | |- emits_only _ (bind _ _) => apply emits_only_bind; [|intros ?; cbv beta]
  | |- emits_only _ (catch _ _) => apply emits_only_catch; [|intros ?; cbv beta]
  end.

(** ** Retry settings of [create] *)

Lemma selects_nothing_falls_through (o : option string) :
  selects_nothing o = true ->
  truthy (Js.and (of_opt o) (parseInt (of_opt o))) = false.
Proof.
  destruct o as [s|]; [|reflexivity]. simpl. unfold Js.and. simpl.
  intros H. destruct (String.eqb s "") eqn:Hempty; simpl.
  { rewrite Hempty. reflexivity. }
  apply orb_true_iff in H as [H|H].
  - apply String.eqb_eq in H. subst s. reflexivity.
  - apply bool_decide_eq_true in H. rewrite H. reflexivity.
Qed.

(** The parsed operand of [||] is a number, or else it is falsy. *)
Lemma parsed_operand (o : option string) :
  truthy (Js.and (of_opt o) (parseInt (of_opt o))) = true ->
  exists z, Js.and (of_opt o) (parseInt (of_opt o)) = VNum (Some z) /\ z <> 0.
Proof.
  destruct o as [s|]; [|discriminate]. unfold Js.and. simpl.
  destruct (String.eqb s "") eqn:Hempty; simpl.
  - rewrite Hempty. discriminate.
  - destruct (parseInt10 s) as [z|]; [|discriminate]. simpl.
    intros Hz. exists z. split; [reflexivity|].
    intros ->. discriminate.
Qed.

(** C10. When the aws-delay option and the AWS_DELAY environment variable
    are each absent, the string '0' or unparseable, the retry delay is
    5000 ms; when the aws-retries option is absent, '0' or unparseable, the
    attempt cap is 5; and whatever the options are, neither the delay nor
    the cap is ever zero. *)
Theorem aws_retry_settings (o : Create.Options) (w : Create.World) :
  (selects_nothing (Create.aws_delay o) = true ->
   selects_nothing (Create.env_AWS_DELAY w) = true ->
   Create.awsDelay o w = VNum (Some 5000)) /\
  (selects_nothing (Create.aws_retries o) = true ->
   Create.awsRetries o = VNum (Some 5)) /\
  (exists delay, Create.awsDelay o w = VNum (Some delay) /\ delay <> 0) /\
  (exists cap, Create.awsRetries o = VNum (Some cap) /\ cap <> 0).
Proof.
  unfold Create.awsDelay, Create.awsRetries.
  repeat split.
  - intros Ho He.
    apply selects_nothing_falls_through in Ho, He.
    unfold Js.or at 2. rewrite Ho. unfold Js.or. rewrite He. reflexivity.
  - intros Ho. apply selects_nothing_falls_through in Ho.
    unfold Js.or. rewrite Ho. reflexivity.
  - unfold Js.or at 2.
    destruct (truthy (Js.and (of_opt (Create.aws_delay o)) _)) eqn:Ho.
    + unfold Js.or. rewrite Ho. apply parsed_operand, Ho.
    + unfold Js.or.
      destruct (truthy (Js.and (of_opt (Create.env_AWS_DELAY w)) _)) eqn:He.
      * apply parsed_operand, He.
      * exists 5000. split; [reflexivity|lia].
  - unfold Js.or.
    destruct (truthy (Js.and (of_opt (Create.aws_retries o)) _)) eqn:Ho.
    + apply parsed_operand, Ho.
    + exists 5. split; [reflexivity|lia].
Qed.

Lemma aws_retry_settings_witness :
  let o := Scenario.retry_options (Some "soon") (Some "0") in
  let w :=
    Sample.with_AWS_DELAY (Some "0")
      (Sample.world (fun _ => Ok Sample.created) Sample.zip_code) in
  selects_nothing (Create.aws_delay o) = true /\
  selects_nothing (Create.env_AWS_DELAY w) = true /\
  selects_nothing (Create.aws_retries o) = true /\
  Create.awsDelay o w = VNum (Some 5000) /\
  Create.awsRetries o = VNum (Some 5).
Proof.
  intros o w.
  destruct (aws_retry_settings o w) as (Hdelay & Hcap & _).
  split; [reflexivity|]. split; [reflexivity|]. split; [reflexivity|].
  split; [apply Hdelay; reflexivity | apply Hcap; reflexivity].
Defined.

(** White space before the digits is skipped, the no-break space
    included; what follows the digits is ignored; and an integer that no
    double represents is read as the double nearest to it. *)
Example parseInt10_reads :
  parseInt10 Scenario.padded_250 = Some 250 /\
  parseInt10 " -12px" = Some (-12) /\
  parseInt10 "px" = None /\
  parseInt10 "9007199254740993" = Some 9007199254740992.
Proof. repeat split; reflexivity. Qed.

(** An environment variable that parses to a number selects the delay
    when the option selects nothing. *)
Example aws_delay_from_environment :
  Create.awsDelay (Sample.options None None None)
    (Sample.with_AWS_DELAY (Some "3000")
       (Sample.world (fun _ => Ok Sample.created) Sample.zip_code))
  = VNum (Some 3000).
Proof. reflexivity. Qed.

(** ** Validation of [create] *)

(** C4. When both the handler and the api-module option are supplied
    (each with a non-empty value, which is how the code tests them),
    [create] is rejected with a validation message (the missing region, or
    else the handler/api-module conflict) and its trace is empty: no
    remote call was issued, nothing was created, and the state is
    untouched. *)
Theorem create_rejects_handler_with_api_module
    (o : Create.Options) (w : Create.World) (st : Create.State) :
  supplied (Create.handler o) = true ->
  supplied (Create.api_module o) = true ->
  let message :=
    if supplied (Create.region o)
    then "不能同时使用 handler 和 api-module 两个参数" +:+ nl
    else "AWS region 参数未定义，请使用 --region 定义该参数值" +:+ nl in
  Create.validationError o w = Some message /\
  Create.create o w st = ([], st, Err (ErrString message)).
Proof.
  intros Hh Ha message.
  assert (Hv : Create.validationError o w = Some message).
  { unfold Create.validationError, message. rewrite Hh, Ha.
    destruct (supplied (Create.region o)); reflexivity. }
  split; [exact Hv|].
  unfold Create.create. rewrite Hv. unfold message.
  destruct (supplied (Create.region o)); reflexivity.
Qed.

Lemma create_rejects_handler_with_api_module_witness :
  Create.create Sample.both_options
    (Sample.world (fun _ => Ok Sample.created) Sample.zip_code)
    (Create.initial [])
  = ([], Create.initial [],
     Err (ErrString ("不能同时使用 handler 和 api-module 两个参数" +:+ nl))).
Proof.
  apply (create_rejects_handler_with_api_module Sample.both_options
           (Sample.world (fun _ => Ok Sample.created) Sample.zip_code)
           (Create.initial [])); reflexivity.
Defined.

(** ** The S3 event source *)

(** C3. The merge step keeps the existing configuration and appends the
    new rule to its Lambda subscription list: the prior entries are a
    prefix of the new list, unchanged and in order, the new rule is its
    last element, and the other properties of the configuration are kept;
    for an absent configuration, and for one without a subscription list,
    the list is exactly the singleton of the new rule. *)
Theorem merge_appends_rule
    (existing : S3EventSource.NotificationConfiguration)
    (newRule : S3EventSource.LambdaFunctionConfiguration) :
  let prior := default [] (S3EventSource.LambdaFunctionConfigurations existing) in
  let merged := S3EventSource.merge (Some existing) newRule in
  S3EventSource.LambdaFunctionConfigurations merged = Some (prior ++ [newRule]) /\
  (exists subscriptions,
      S3EventSource.LambdaFunctionConfigurations merged = Some subscriptions /\
      take (length prior) subscriptions = prior /\
      last subscriptions = Some newRule /\
      length subscriptions = Datatypes.S (length prior)) /\
  S3EventSource.other_properties merged =
    S3EventSource.other_properties existing /\
  S3EventSource.LambdaFunctionConfigurations
    (S3EventSource.merge None newRule) = Some [newRule].
Proof.
  intros prior merged. subst merged. unfold S3EventSource.merge. simpl.
  fold prior. repeat split.
  exists (prior ++ [newRule]). repeat split.
  - rewrite take_app_length. reflexivity.
  - apply last_snoc.
  - rewrite length_app. simpl. lia.
Qed.

(** The configuration written to the bucket is the merge of the one that
    was fetched. *)
Lemma addBucketNotificationConfig_writes_merge
    (o : S3EventSource.Options) (w : S3EventSource.World)
    (st : S3EventSource.State) c current :
  S3EventSource.lambdaConfig st = Some c ->
  S3EventSource.getBucketNotificationConfiguration w = Ok current ->
  S3EventSource.addBucketNotificationConfig o w st =
    ([S3EventSource.Sent
        (S3EventSource.GetBucketNotificationConfiguration (S3EventSource.bucket o));
      S3EventSource.Sent
        (S3EventSource.PutBucketNotificationConfiguration (S3EventSource.bucket o)
           (S3EventSource.merge current
              (S3EventSource.eventConfig o (S3EventSource.arn c))))],
     st, S3EventSource.putBucketNotificationConfiguration w).
Proof.
  intros Hc Hget.
  unfold S3EventSource.addBucketNotificationConfig,
    S3EventSource.the_lambdaConfig, S3EventSource.promise,
    call, bind, get, emit, settle, resolve.
  rewrite Hc, Hget. reflexivity.
Qed.

(** C7. The new rule has a filter exactly when the prefix or the suffix
    option is supplied (with a non-empty value); with neither, the field is absent (not an empty
    rule list); each supplied option contributes exactly its one rule,
    the prefix before the suffix. *)
Theorem eventConfig_filter (o : S3EventSource.Options) (arn : option string) :
  let prefixRule :=
    {| S3EventSource.Name := "prefix";
       S3EventSource.Value := default "" (S3EventSource.prefix o) |} in
  let suffixRule :=
    {| S3EventSource.Name := "suffix";
       S3EventSource.Value := default "" (S3EventSource.suffix o) |} in
  S3EventSource.Filter (S3EventSource.eventConfig o arn) =
    match supplied (S3EventSource.prefix o), supplied (S3EventSource.suffix o) with
    | true, true => Some [prefixRule; suffixRule]
    | true, false => Some [prefixRule]
    | false, true => Some [suffixRule]
    | false, false => None
    end /\
  (is_Some (S3EventSource.Filter (S3EventSource.eventConfig o arn)) <->
   supplied (S3EventSource.prefix o) || supplied (S3EventSource.suffix o) = true) /\
  S3EventSource.Filter (S3EventSource.eventConfig o arn) <> Some [].
Proof.
  intros prefixRule suffixRule.
  unfold S3EventSource.eventConfig, S3EventSource.filterRules. simpl.
  destruct (supplied (S3EventSource.prefix o)),
    (supplied (S3EventSource.suffix o)); simpl;
    (split; [reflexivity|split; [|discriminate]]);
    split; intros H; try reflexivity; try discriminate;
    try (eexists; reflexivity); destruct H; discriminate.
Qed.

(** No run of the command ever sends an [addPermission] request: the
    request is built and dropped. *)
Lemma addS3EventSource_sends_no_addPermission
    (o : S3EventSource.Options) (w : S3EventSource.World) :
  emits_only (fun e => is_addPermission e = false)
    (S3EventSource.addS3EventSource o w).
Proof.
  unfold S3EventSource.addS3EventSource, S3EventSource.readConfig,
    S3EventSource.addS3AccessPolicy, S3EventSource.addInvokePermission,
    S3EventSource.addBucketNotificationConfig, S3EventSource.getLambda,
    S3EventSource.the_lambdaConfig, S3EventSource.promise.
  repeat trace_step.
Qed.

(** C8. The run for bucket "photos" of a deployed function, with every
    request answered with success: the merged notification configuration
    is written, and the invoke permission for the S3 principal was never
    sent, let alone awaited. *)
Theorem addS3EventSource_writes_without_permission :
  let run :=
    S3EventSource.addS3EventSource Sample.s3_options Sample.s3_world
      S3EventSource.initial in
  outcome run = Ok tt /\
  filter (fun e => is_notification_write e = true) (events run) =
    [S3EventSource.Sent
       (S3EventSource.PutBucketNotificationConfiguration (Some "photos")
          (S3EventSource.merge None
             (S3EventSource.eventConfig Sample.s3_options
                (Some "arn:aws:lambda:us-east-1:123456789012:function:app"))))] /\
  filter (fun e => is_addPermission e = true) (events run) = [] /\
  length (events run) = 5%nat.
Proof. vm_compute. repeat split; reflexivity. Qed.

(** ** Cleanup of [create] *)

(** Nothing before the last link of the chain removes the staging
    directory or the archive. *)
Lemma provision_never_removes (o : Create.Options) (w : Create.World) :
  emits_only (fun e => is_removal e = false) (Create.provision o w).
Proof.
  unfold Create.provision, Create.getPackageInfo, Create.loadRole,
    Create.addExtraPolicies, Create.createLambda,
    Create.markAliases, Create.markAlias, Create.createAlias,
    Create.updateAlias, Create.createWebApi, Create.saveConfig,
    Create.formatResult, Create.the_role, Create.logStage.
  repeat trace_step;
    unfold Create.createLambda_attempt, Create.createFunction,
      Create.onRetry, Create.setTimeout, Create.logStage;
    repeat trace_step.
Qed.

(** C1 (as the code has it). For every run that passes validation (the
    test [if (validationError())] is false): when
    the chain before [cleanup] settles with a result, [cleanup] runs (it
    removes the staging directory and then the archive, or, when
    artifact retention was requested, removes nothing and reports the
    archive in the result); when that chain is rejected, [create] is
    rejected with the same error and [cleanup] does not run.  In either
    case nothing before [cleanup] removes anything. *)
Theorem create_cleans_up_after_success
    (o : Create.Options) (w : Create.World) (st : Create.State) :
  supplied (Create.validationError o w) = false ->
  let run := Create.provision o w st in
  Forall (fun e => is_removal e = false) (events run) /\
  Create.create o w st =
    match outcome run with
    | Err e => (events run, final run, Err e)
    | Ok result =>
        if Create.keep o then
          (events run, final run,
           Ok (jset "archive" (jopt (Create.packageArchive (final run))) result))
        else
          match Create.rmDir w with
          | Err e =>
              (events run ++ [Create.RmDir (Create.workingDir (final run))],
               final run, Err e)
          | Ok _ =>
              (events run ++
               [Create.RmDir (Create.workingDir (final run));
                Create.UnlinkSync (Create.packageArchive (final run))],
               final run,
               match Create.unlinkSync w with
               | Ok _ => Ok result
               | Err e => Err e
               end)
          end
    end.
Proof.
  intros Hvalid run.
  split; [apply provision_never_removes|].
  unfold Create.create. rewrite Hvalid.
  subst run. unfold events, final, outcome.
  destruct (Create.provision o w st) as [[evs st1] [result|e]] eqn:Hrun;
    cbn [fst snd].
  - rewrite (bind_Ok _ _ _ _ _ _ Hrun).
    unfold Create.cleanup, bind, get, call, emit, settle, resolve,
      events, final, outcome.
    destruct (Create.keep o); simpl.
    + rewrite app_nil_r. reflexivity.
    + destruct (Create.rmDir w) as [[]|e]; simpl; [|reflexivity].
      destruct (Create.unlinkSync w) as [[]|e]; reflexivity.
  - apply bind_Err, Hrun.
Qed.

Lemma create_cleans_up_after_success_witness :
  let o := Sample.options None None None in
  let w := Sample.world (fun _ => Ok Sample.created) Sample.zip_code in
  let st := Create.initial [] in
  supplied (Create.validationError o w) = false /\
  (let run := Create.provision o w st in
   Forall (fun e => is_removal e = false) (events run) /\
   Create.create o w st =
     match outcome run with
     | Err e => (events run, final run, Err e)
     | Ok result =>
         if Create.keep o then
           (events run, final run,
            Ok (jset "archive" (jopt (Create.packageArchive (final run))) result))
         else
           match Create.rmDir w with
           | Err e =>
               (events run ++ [Create.RmDir (Create.workingDir (final run))],
                final run, Err e)
           | Ok _ =>
               (events run ++
                [Create.RmDir (Create.workingDir (final run));
                 Create.UnlinkSync (Create.packageArchive (final run))],
                final run,
                match Create.unlinkSync w with
                | Ok _ => Ok result
                | Err e => Err e
                end)
           end
     end).
Proof.
  intros o w st.
  split; [reflexivity|].
  apply (create_cleans_up_after_success o w st). reflexivity.
Defined.

(** On the sample project the successful run ends with the two removals. *)
Example create_success_ends_with_removals :
  let o := Sample.options None None None in
  let w := Sample.world (fun _ => Ok Sample.created) Sample.zip_code in
  let run := Create.create o w (Create.initial []) in
  filter (fun e => is_removal e = true) (events run) =
    [Create.RmDir (Some "/tmp/a1"); Create.UnlinkSync (Some "/tmp/a1.zip")] /\
  last (events run) = Some (Create.UnlinkSync (Some "/tmp/a1.zip")).
Proof. vm_compute. split; reflexivity. Qed.

(** C1 (as stated) fails: function creation is refused with an access
    error; the run passes validation, retention was not requested, the
    staging directory and the archive were created, the run is rejected,
    and neither removal was attempted. *)
Lemma create_failure_skips_cleanup :
  let o := Sample.options None None None in
  let w := Sample.world (fun _ => Err Sample.access_denied) Sample.zip_code in
  let run := Create.create o w (Create.initial []) in
  Create.validationError o w = None /\
  Create.keep o = false /\
  outcome run = Err Sample.access_denied /\
  filter (fun e => is_staging e = true) (events run) =
    [Create.Mkdtemp "/tmp/"; Create.Zipdir "/tmp/a1/app"] /\
  filter (fun e => is_removal e = true) (events run) = [].
Proof. vm_compute. repeat split; reflexivity. Qed.

(** ** Retry of the function creation *)

Lemma isRetryable_code (e : error) :
  Create.isRetryable e = true <->
  error_code e = Some "InvalidParameterValueException".
Proof.
  unfold Create.isRetryable. rewrite andb_true_iff, bool_decide_eq_true.
  split; [intros [_ H]; exact H|].
  intros H. split; [|exact H].
  destruct e; try discriminate. reflexivity.
Qed.

Lemma createLambda_attempt_run (w : Create.World) params (st : Create.State) :
  Create.createLambda_attempt w params st =
    ([Create.LogStage "创建 Lambda 函数"; Create.LambdaCreateFunction params],
     Create.count_createFunction st,
     match Create.lambda_createFunction w (Create.createFunction_requests st) with
     | Ok response => Ok (Create.metadata_of response)
     | Err e => Err e
     end).
Proof.
  unfold Create.createLambda_attempt, Create.createFunction, Create.logStage,
    bind, call, get, modify, emit, settle, resolve.
  destruct (Create.lambda_createFunction w _); reflexivity.
Qed.

(** [createLambda] is the retry loop with [awsRetries - 1] re-attempts
    allowed. *)
Lemma createLambda_loop (o : Create.Options) (w : Create.World)
    fn desc code arn (st : Create.State) :
  Create.createLambda o w fn desc code arn st =
    retry_loop
      (Create.createLambda_attempt w
         (Create.createFunctionParams o st fn desc code arn))
      (Create.setTimeout (Create.awsDelay o w))
      Create.isRetryable Create.onRetry
      (Z.to_nat (Create.number (Create.awsRetries o) - 1)) st.
Proof.
  unfold Create.createLambda, retry, bind, get.
  destruct (retry_loop _ _ _ _ _ st) as [[evs st'] r]. reflexivity.
Qed.

(** C2 (as the code has it). [createLambda] is the retry loop allowed
    [awsRetries - 1] further attempts.  For an error [e] raised by one of
    its function-creation attempts: [e] is classified retryable exactly
    when its code is 'InvalidParameterValueException'; an error that is
    not is terminal, propagated unchanged after that one attempt whatever
    budget is left; a retryable error is followed by the retry notice,
    the wait of [awsDelay] and a further attempt when attempts remain
    under the cap, and ends the run (tagged as exhausted) when none
    does. *)
Theorem createLambda_retries_by_code
    (o : Create.Options) (w : Create.World) fn desc code arn
    (st0 st : Create.State) (e : error) (remaining : nat) :
  Create.lambda_createFunction w (Create.createFunction_requests st) = Err e ->
  let params := Create.createFunctionParams o st0 fn desc code arn in
  let loop :=
    retry_loop (Create.createLambda_attempt w params)
      (Create.setTimeout (Create.awsDelay o w))
      Create.isRetryable Create.onRetry in
  let attempt :=
    [Create.LogStage "创建 Lambda 函数"; Create.LambdaCreateFunction params] in
  let st1 := Create.count_createFunction st in
  Create.createLambda o w fn desc code arn st0 =
    loop (Z.to_nat (Create.number (Create.awsRetries o) - 1)) st0 /\
  (Create.isRetryable e = true <->
   error_code e = Some "InvalidParameterValueException") /\
  (error_code e <> Some "InvalidParameterValueException" ->
   loop remaining st = (attempt, st1, Err e)) /\
  (error_code e = Some "InvalidParameterValueException" ->
   loop (S remaining) st =
     (attempt ++
      [Create.LogStage "等待 IAM 角色生效";
       Create.SetTimeout (Create.awsDelay o w)] ++
      events (loop remaining st1),
      final (loop remaining st1), outcome (loop remaining st1)) /\
   loop 0%nat st = (attempt, st1, Err (ErrRetryExhausted e))).
Proof.
  intros Hfail params loop attempt st1.
  split; [apply createLambda_loop|].
  split; [apply isRetryable_code|]. split.
  - intros Hcode.
    assert (Hno : Create.isRetryable e = false).
    { destruct (Create.isRetryable e) eqn:H; [|reflexivity].
      apply isRetryable_code in H. contradiction. }
    subst loop. destruct remaining; simpl; unfold catch;
      rewrite createLambda_attempt_run, Hfail, Hno; reflexivity.
  - intros Hcode. apply isRetryable_code in Hcode.
    subst loop. split; simpl; unfold catch at 1;
      rewrite createLambda_attempt_run, Hfail, Hcode.
    + unfold bind, Create.onRetry, Create.logStage, Create.setTimeout, emit,
        events, final, outcome. fold st1.
      destruct (retry_loop _ _ _ _ remaining st1) as [[evs st'] r].
      reflexivity.
    + reflexivity.
Qed.

Lemma createLambda_retries_by_code_witness :
  let w := Sample.world (fun _ => Err Sample.access_denied) Sample.zip_code in
  let o := Sample.options None None None in
  let st := Create.initial [] in
  let params :=
    Create.createFunctionParams o st (Some "app") None
      Sample.zip_code "arn:aws:iam::role/app-role" in
  Create.lambda_createFunction w (Create.createFunction_requests st) =
    Err Sample.access_denied /\
  Create.createLambda o w (Some "app") None Sample.zip_code
    "arn:aws:iam::role/app-role" st =
  ([Create.LogStage "创建 Lambda 函数"; Create.LambdaCreateFunction params],
   Create.count_createFunction st,
   Err Sample.access_denied).
Proof.
  intros w o st params.
  split; [reflexivity|].
  destruct (createLambda_retries_by_code o w (Some "app") None Sample.zip_code
              "arn:aws:iam::role/app-role" st st Sample.access_denied 4%nat
              eq_refl) as (Hloop & _ & Hterminal & _).
  rewrite Hloop. apply Hterminal. discriminate.
Defined.

(** C2 (as stated) fails at the cap: with the default five attempts and a
    role that is never recognised, the fifth attempt fails with the
    retryable code and is not followed by another one. *)
Lemma createLambda_stops_at_cap :
  let o := Sample.options None None None in
  let w := Sample.world (fun _ => Err Sample.role_pending) Sample.zip_code in
  let run :=
    Create.createLambda o w (Some "app") None Sample.zip_code
      "arn:aws:iam::role/app-role" (Create.initial []) in
  Create.lambda_createFunction w 4%nat = Err Sample.role_pending /\
  error_code Sample.role_pending = Some "InvalidParameterValueException" /\
  length (filter (fun e => is_createFunction e = true) (events run)) = 5%nat /\
  Create.createFunction_requests (final run) = 5%nat /\
  outcome run = Err (ErrRetryExhausted Sample.role_pending).
Proof. vm_compute. repeat split; reflexivity. Qed.

(** ** Aliases *)

(** Pointing a label makes it read as the version and leaves every other
    label of every function as it was. *)
Lemma alias_lookup_point (table : Create.AliasTable) (fn label ver fn' label' : string) :
  Create.alias_lookup (Create.alias_point table fn label ver) fn' label' =
    if String.eqb fn fn' && String.eqb label label' then Some ver
    else Create.alias_lookup table fn' label'.
Proof.
  induction table as [|[[f l] v] rest IH]; simpl.
  - reflexivity.
  - destruct (String.eqb f fn && String.eqb l label) eqn:Hhere; simpl.
    + apply andb_true_iff in Hhere as [Hf Hl].
      apply String.eqb_eq in Hf, Hl. subst f l.
      destruct (String.eqb fn fn' && String.eqb label label'); reflexivity.
    + rewrite IH.
      destruct (String.eqb fn fn' && String.eqb label label') eqn:Hkey;
        [|reflexivity].
      apply andb_true_iff in Hkey as [Hf Hl].
      apply String.eqb_eq in Hf, Hl. subst fn' label'.
      rewrite Hhere. reflexivity.
Qed.

(** A binding is an upsert: the creation is attempted, a label that is
    already there is repointed instead, and in both cases the label ends
    on the version. *)
Lemma markAlias_upsert (w : Create.World) (fn ver label : string)
    (st : Create.State) :
  Create.lambda_alias_fault w label = None ->
  Create.markAlias w fn ver label st =
    (upsert_requests (Create.aliases st) fn ver label,
     Create.set_aliases (Create.alias_point (Create.aliases st) fn label ver) st,
     Ok tt).
Proof.
  intros Hfault.
  unfold Create.markAlias, Create.createAlias, Create.updateAlias,
    upsert_requests, catch, bind, emit, get, modify, reject.
  rewrite Hfault. simpl.
  destruct (bool_decide (is_Some (Create.alias_lookup (Create.aliases st) fn label)))
    eqn:Hin;
    simpl; [|reflexivity].
  rewrite Hin. reflexivity.
Qed.

(** Every function-creation request asks for a version to be published. *)
Lemma createLambda_publishes (o : Create.Options) (w : Create.World)
    fn desc code arn :
  emits_only
    (fun e =>
       match e with
       | Create.LambdaCreateFunction params => Create.cf_Publish params = true
       | _ => True
       end)
    (Create.createLambda o w fn desc code arn).
Proof.
  unfold Create.createLambda.
  repeat trace_step;
    unfold Create.createLambda_attempt, Create.createFunction,
      Create.onRetry, Create.setTimeout, Create.logStage;
    repeat trace_step.
Qed.

(** C5. After a successful function creation, and when the alias
    requests meet no provider failure, [markAliases] settles with the
    function's data; it binds label 'latest' to "$LATEST" and then,
    exactly when a version label was requested, that label to the version
    the creation returned; each binding is an upsert, both in the
    requests sent and in the resulting alias table. *)
Theorem markAliases_binds
    (o : Create.Options) (w : Create.World) fn desc code arn
    (st0 : Create.State) (lambdaData : Create.LambdaMetadata) :
  let created := Create.createLambda o w fn desc code arn st0 in
  outcome created = Ok lambdaData ->
  Create.lambda_alias_fault w "latest" = None ->
  (supplied (Create.version o) = true ->
   Create.lambda_alias_fault w (default "" (Create.version o)) = None) ->
  let run := Create.markAliases o w lambdaData (final created) in
  let f := Create.FunctionName lambdaData in
  let table := Create.aliases (final created) in
  let latest := Create.alias_point table f "latest" "$LATEST" in
  outcome run = Ok lambdaData /\
  events run =
    Create.LogStage "创建当前版本别名" ::
    upsert_requests table f "$LATEST" "latest" ++
    (if supplied (Create.version o)
     then upsert_requests latest f (Create.Version lambdaData)
            (default "" (Create.version o))
     else []) /\
  Create.aliases (final run) =
    if supplied (Create.version o)
    then Create.alias_point latest f (default "" (Create.version o))
           (Create.Version lambdaData)
    else latest.
Proof.
  intros created _ Hlatest Hlabel run f table latest.
  subst run. unfold Create.markAliases, Create.logStage.
  unfold bind, emit, resolve. cbv beta iota.
  rewrite (markAlias_upsert _ _ _ _ _ Hlatest). cbv beta iota.
  fold f table latest.
  destruct (supplied (Create.version o)); cbv beta iota.
  - rewrite (markAlias_upsert _ _ _ _ _ (Hlabel eq_refl)).
    unfold events, final, outcome. simpl. rewrite app_nil_r.
    repeat split.
  - unfold events, final, outcome. simpl. rewrite !app_nil_r.
    repeat split.
Qed.

Lemma markAliases_binds_witness :
  let o := Sample.options (Some "dev") None None in
  let w := Sample.world (fun _ => Ok Sample.created) Sample.zip_code in
  let created :=
    Create.createLambda o w (Some "app") None Sample.zip_code
      "arn:aws:iam::role/app-role" (Create.initial []) in
  let run := Create.markAliases o w Sample.deployed (final created) in
  outcome created = Ok Sample.deployed /\
  outcome run = Ok Sample.deployed /\
  events run =
    [Create.LogStage "创建当前版本别名";
     Create.LambdaCreateAlias "app" "$LATEST" "latest";
     Create.LambdaCreateAlias "app" "1" "dev"] /\
  Create.aliases (final run) =
    [("app", "latest", "$LATEST"); ("app", "dev", "1")].
Proof.
  intros o w created run.
  assert (Hcreated : outcome created = Ok Sample.deployed)
    by (vm_compute; reflexivity).
  split; [exact Hcreated|].
  pose proof (markAliases_binds o w (Some "app") None Sample.zip_code
                "arn:aws:iam::role/app-role" (Create.initial [])
                Sample.deployed Hcreated eq_refl (fun _ => eq_refl))
    as (H1 & H2 & H3).
  split; [exact H1|]. split; [|exact H3].
  etransitivity; [exact H2|]. vm_compute. reflexivity.
Defined.

(** An existing label is repointed. *)
Example markAlias_repoints :
  let w := Sample.world (fun _ => Ok Sample.created) Sample.zip_code in
  let st := Create.initial [("app", "latest", "7")] in
  let run := Create.markAlias w "app" "$LATEST" "latest" st in
  events run =
    [Create.LambdaCreateAlias "app" "$LATEST" "latest";
     Create.LambdaUpdateAlias "app" "$LATEST" "latest"] /\
  Create.aliases (final run) = [("app", "latest", "$LATEST")] /\
  outcome run = Ok tt.
Proof. vm_compute. repeat split; reflexivity. Qed.

(** Every alias request of [markAliases] is for the function it was
    given, and targets either the $LATEST reference under label 'latest'
    or the function's version under the requested label. *)
Lemma markAliases_targets
    (o : Create.Options) (w : Create.World)
    (lambdaData : Create.LambdaMetadata) :
  emits_only (fun e => alias_target_ok o lambdaData (alias_request e))
    (Create.markAliases o w lambdaData).
Proof.
  unfold Create.markAliases, Create.logStage.
  destruct (supplied (Create.version o)) eqn:Hversion;
    unfold Create.markAlias, Create.createAlias, Create.updateAlias;
    repeat trace_step.
Qed.

(** What [createLambda] settles with is an answer of the service. *)
Lemma createLambda_answer (o : Create.Options) (w : Create.World)
    fn desc code arn :
  returns_only
    (fun lambdaData =>
       exists n response,
         Create.lambda_createFunction w n = Ok response /\
         lambdaData = Create.metadata_of response)
    (Create.createLambda o w fn desc code arn).
Proof.
  intros st evs st' lambdaData. rewrite createLambda_loop.
  apply (returns_only_retry_loop
           (fun lambdaData =>
              exists n response,
                Create.lambda_createFunction w n = Ok response /\
                lambdaData = Create.metadata_of response)).
  intros st1 evs1 st1' created. rewrite createLambda_attempt_run.
  destruct (Create.lambda_createFunction w _) as [response|] eqn:Hanswer;
    [|discriminate].
  intros [= _ _ <-]. eauto.
Qed.

(** C6 (as the code has it). In every run of [create], all alias requests
    are for the one function whose creation the service answered in that
    run, and each targets either the $LATEST reference under label
    'latest' or, under the requested label, the version that answer
    reports as published. *)
Theorem create_alias_targets
    (o : Create.Options) (w : Create.World) (st : Create.State) :
  exists bound,
    match bound with
    | Some response => exists n, Create.lambda_createFunction w n = Ok response
    | None => True
    end /\
    Forall (fun e => alias_target_in_run o bound (alias_request e))
      (events (Create.create o w st)).
Proof.
  assert (Hnone : forall bound e,
            alias_request e = None ->
            alias_target_in_run o bound (alias_request e)).
  { intros bound e ->. exact I. }
  assert (Hsilent : forall bound A (m : Create.Pipeline A),
            emits_only (fun e => alias_request e = None) m ->
            emits_only (fun e => alias_target_in_run o bound (alias_request e)) m).
  { intros bound A m Hm st0. eapply Forall_impl; [apply Hm|].
    intros e He. apply Hnone, He. }
  unfold Create.create.
  destruct (supplied (Create.validationError o w)).
  { exists None. split; [exact I|constructor]. }
  unfold Create.provision.
  match goal with
  | |- context [bind ?deploy (Create.markAliases o w)] =>
      set (function := deploy)
  end.
  assert (Hfunction : emits_only (fun e => alias_request e = None) function).
  { subst function.
    unfold Create.getPackageInfo, Create.loadRole, Create.addExtraPolicies,
      Create.createLambda, Create.the_role, Create.logStage.
    repeat trace_step;
      unfold Create.createLambda_attempt, Create.createFunction,
        Create.onRetry, Create.setTimeout, Create.logStage;
      repeat trace_step. }
  assert (Hanswer : returns_only
            (fun lambdaData =>
               exists n response,
                 Create.lambda_createFunction w n = Ok response /\
                 lambdaData = Create.metadata_of response) function).
  { subst function. apply returns_only_bind. intros functionCode.
    apply returns_only_bind. intros _.
    apply returns_only_bind. intros r.
    apply returns_only_bind. intros st0.
    apply createLambda_answer. }
  assert (Hbound : exists bound,
            match bound with
            | Some response =>
                (exists n, Create.lambda_createFunction w n = Ok response) /\
                outcome (function st) = Ok (Create.metadata_of response)
            | None => forall lambdaData, outcome (function st) <> Ok lambdaData
            end).
  { destruct (function st) as [[ev1 st1] [lambdaData|e]] eqn:Hrun.
    - destruct (Hanswer _ _ _ _ Hrun) as (n & response & Hn & ->).
      exists (Some response). split; [eauto|reflexivity].
    - exists None. intros lambdaData. discriminate. }
  destruct Hbound as (bound & Hbound). exists bound. split.
  { destruct bound; [apply Hbound|exact I]. }
  apply Forall_events_bind;
    [apply Forall_events_bind;
     [apply Forall_events_bind;
      [apply Forall_events_bind;
       [apply Forall_events_bind|]|]|]|].
  - apply Hsilent, Hfunction.
  - intros lambdaData Hrun.
    destruct bound as [response|]; [|destruct (Hbound _ Hrun)].
    destruct Hbound as (_ & Hsame). rewrite Hrun in Hsame.
    injection Hsame as ->.
    eapply Forall_impl; [apply markAliases_targets|].
    intros e. unfold alias_target_in_run.
    destruct (alias_request e) as [binding|]; [|trivial].
    intros He. exists response. split; [reflexivity|exact He].
  - intros lambdaMetadata _. apply Hsilent.
    unfold Create.createWebApi, Create.logStage. repeat trace_step.
  - intros lambdaMetadata _. apply Hsilent.
    unfold Create.saveConfig, Create.the_role, Create.logStage.
    repeat trace_step.
  - intros lambdaMetadata _. apply Hsilent.
    unfold Create.formatResult, Create.the_role. repeat trace_step.
  - intros result _. apply Hsilent.
    unfold Create.cleanup. repeat trace_step.
Qed.

(** C6 (as stated) fails: with a version label requested and version "1"
    published, the two bindings of the run target "$LATEST" and "1". *)
Lemma create_alias_targets_differ :
  let o := Sample.options (Some "dev") None None in
  let w := Sample.world (fun _ => Ok Sample.created) Sample.zip_code in
  let run := Create.create o w (Create.initial []) in
  omap alias_request (events run) =
    [("app", "$LATEST", "latest"); ("app", "1", "dev")] /\
  "$LATEST" <> "1" /\
  exists result, outcome run = Ok result.
Proof.
  vm_compute. split; [reflexivity|]. split; [discriminate|].
  eexists. reflexivity.
Qed.

(** ** The persisted descriptor *)










(** * Further properties of the commands *)

(** ** What validation guarantees *)

Lemma orelse_None (a b : option string) :
  Create.orelse a b = None -> a = None /\ b = None.
Proof. destruct a; simpl; [discriminate|auto]. Qed.

Lemma check_None (failed : bool) (message : string) :
  Create.check failed message = None -> failed = false.
Proof. destruct failed; simpl; [discriminate|reflexivity]. Qed.

(** A run passes validation only if none of the tests of
    [validationError] fired. *)
Lemma validationError_None (o : Create.Options) (w : Create.World) :
  Create.validationError o w = None ->
  let has_handler := supplied (Create.handler o) in
  let has_api := supplied (Create.api_module o) in
  supplied (Create.region o) = true /\
  negb has_handler && negb has_api = false /\
  has_handler && has_api = false /\
  negb has_handler && Create.deploy_proxy_api o = false /\
  has_handler && negb (contains_char "." (default "" (Create.handler o))) = false /\
  has_api && contains_char "." (default "" (Create.api_module o)) = false /\
  Create.isDir w (Create.path_dirname w (Create.configFile o w)) = true /\
  Create.fileExists w (Create.configFile o w) = false /\
  Create.fileExists w (Create.path_join w (Create.source_dir o w) "package.json")
    = true /\
  supplied (Create.policies o) &&
    bool_decide (Create.policyFiles w (default "" (Create.policies o)) = []) = false /\
  Create.memory_error o = None /\
  Create.timeout_error o = None /\
  Create.allow_recursion o && supplied (Create.role o) &&
    Create.isRoleArn w (default "" (Create.role o)) = false /\
  supplied (Create.s3_key o) && negb (supplied (Create.use_s3_bucket o)) = false.
Proof.
  unfold Create.validationError. cbv zeta. intros H.
  repeat (apply orelse_None in H as [?H H]).
  repeat match goal with
         | H : Create.check _ _ = None |- _ => apply check_None in H
         end.
  repeat match goal with
         | H : negb _ = false |- _ => apply negb_false_iff in H
         end.
  destruct (Create.fileExists w (Create.configFile o w)) eqn:Hexists.
  { destruct (supplied (Create.config o)); discriminate. }
  repeat split; assumption.
Qed.

(** No validation message is empty. *)
Lemma validationError_message (o : Create.Options) (w : Create.World) m :
  Create.validationError o w = Some m -> supplied (Some m) = true.
Proof.
  unfold Create.validationError, Create.memory_error, Create.timeout_error,
    Create.check, Create.orelse.
  cbv zeta.
  repeat match goal with
         | |- context [if ?c then Some _ else None] =>
             destruct c; [intros [= <-]; reflexivity|]
         end.
  destruct (Create.fileExists w (Create.configFile o w)).
  { destruct (Create.config o) as [[|c s]|] eqn:Hconfig; simpl;
      intros [= <-]; reflexivity. }
  repeat match goal with
         | |- context [if ?c then Some _ else None] =>
             destruct c; [intros [= <-]; reflexivity|]
         end.
  destruct (Create.memory o) as [m0|].
  { repeat match goal with
           | |- context [if ?c then Some _ else None] =>
               destruct c; [intros [= <-]; reflexivity|]
           end.
    destruct (Create.timeout o) as [t|];
      repeat match goal with
             | |- context [if ?c then Some _ else None] =>
                 destruct c; [intros [= <-]; reflexivity|]
             end; discriminate. }
  destruct (Create.timeout o) as [t|];
    repeat match goal with
           | |- context [if ?c then Some _ else None] =>
               destruct c; [intros [= <-]; reflexivity|]
           end; discriminate.
Qed.

Lemma validation_passed (o : Create.Options) (w : Create.World) :
  supplied (Create.validationError o w) = false ->
  Create.validationError o w = None.
Proof.
  destruct (Create.validationError o w) as [m|] eqn:Hm; [|reflexivity].
  apply validationError_message in Hm. rewrite Hm. discriminate.
Qed.

(** X1. A run that passes validation has a region, and either a handler
    of the form module.function and no api module, or an api module whose
    name has no dot, no handler and no proxy api; a storage key only
    together with a bucket; and recursion only with a role that is not
    given by its ARN. *)
Theorem validated_options (o : Create.Options) (w : Create.World) :
  supplied (Create.validationError o w) = false ->
  supplied (Create.region o) = true /\
  ((supplied (Create.handler o) = true /\
    supplied (Create.api_module o) = false /\
    contains_char "." (default "" (Create.handler o)) = true) \/
   (supplied (Create.handler o) = false /\
    supplied (Create.api_module o) = true /\
    contains_char "." (default "" (Create.api_module o)) = false /\
    Create.deploy_proxy_api o = false)) /\
  (supplied (Create.s3_key o) = true ->
   supplied (Create.use_s3_bucket o) = true) /\
  (Create.allow_recursion o = true -> supplied (Create.role o) = true ->
   Create.isRoleArn w (default "" (Create.role o)) = false).
Proof.
  intros Hvalid. apply validation_passed, validationError_None in Hvalid.
  cbv zeta in Hvalid.
  destruct Hvalid as (Hregion & Hnone & Hboth & Hproxy & Hdot & Hapi & _ & _ &
                      _ & _ & _ & _ & Hrec & Hkey).
  split; [exact Hregion|].
  destruct (supplied (Create.handler o)), (supplied (Create.api_module o));
    simpl in *; try discriminate.
  - split; [left; repeat split; apply negb_false_iff, Hdot|].
    split.
    + intros Hs. rewrite Hs in Hkey. apply negb_false_iff in Hkey. exact Hkey.
    + intros Ha Hr. rewrite Ha, Hr in Hrec. exact Hrec.
  - split; [right; repeat split; assumption|].
    split.
    + intros Hs. rewrite Hs in Hkey. apply negb_false_iff in Hkey. exact Hkey.
    + intros Ha Hr. rewrite Ha, Hr in Hrec. exact Hrec.
Qed.

Lemma validated_options_witness :
  let o := Scenario.options in
  let w := Scenario.world in
  supplied (Create.validationError o w) = false /\
  (supplied (Create.region o) = true /\
   ((supplied (Create.handler o) = true /\
     supplied (Create.api_module o) = false /\
     contains_char "." (default "" (Create.handler o)) = true) \/
    (supplied (Create.handler o) = false /\
     supplied (Create.api_module o) = true /\
     contains_char "." (default "" (Create.api_module o)) = false /\
     Create.deploy_proxy_api o = false)) /\
   (supplied (Create.s3_key o) = true ->
    supplied (Create.use_s3_bucket o) = true) /\
   (Create.allow_recursion o = true -> supplied (Create.role o) = true ->
    Create.isRoleArn w (default "" (Create.role o)) = false)).
Proof.
  intros o w. split; [reflexivity|].
  apply (validated_options o w). reflexivity.
Defined.

(** X2. A run that passes validation with a memory size has one between
    128 and 3008 that is a multiple of 64; with a timeout, one between 1
    and 9000. *)
Theorem validated_sizes (o : Create.Options) (w : Create.World) :
  supplied (Create.validationError o w) = false ->
  match Create.memory o with
  | Some m => 128 <= m <= 3008 /\ Z.rem m 64 = 0
  | None => True
  end /\
  match Create.timeout o with
  | Some t => 1 <= t <= 9000
  | None => True
  end.
Proof.
  intros Hvalid. apply validation_passed, validationError_None in Hvalid.
  destruct Hvalid as (_ & _ & _ & _ & _ & _ & _ & _ & _ & _ & Hm & Ht & _).
  unfold Create.memory_error in Hm. unfold Create.timeout_error in Ht.
  split.
  - destruct (Create.memory o) as [m|]; [|exact I].
    apply orelse_None in Hm as [H1 Hm]. apply orelse_None in Hm as [H2 H3].
    apply check_None in H1, H2, H3.
    apply negb_false_iff in H3. lia.
  - destruct (Create.timeout o) as [t|]; [|exact I].
    apply orelse_None in Ht as [H1 H2]. apply check_None in H1, H2. lia.
Qed.

Lemma validated_sizes_witness :
  let o := Scenario.options in
  let w := Scenario.world in
  supplied (Create.validationError o w) = false /\
  (match Create.memory o with
   | Some m => 128 <= m <= 3008 /\ Z.rem m 64 = 0
   | None => True
   end /\
   match Create.timeout o with
   | Some t => 1 <= t <= 9000
   | None => True
   end).
Proof.
  intros o w. split; [reflexivity|].
  apply (validated_sizes o w). reflexivity.
Defined.

(** X3. A run that passes validation starts from a project directory
    with a package.json, a configuration file that does not exist yet in
    a directory that does, and, when policies were asked for, at least
    one policy file. *)
Theorem validated_files (o : Create.Options) (w : Create.World) :
  supplied (Create.validationError o w) = false ->
  Create.isDir w (Create.path_dirname w (Create.configFile o w)) = true /\
  Create.fileExists w (Create.configFile o w) = false /\
  Create.fileExists w (Create.path_join w (Create.source_dir o w) "package.json")
    = true /\
  (supplied (Create.policies o) = true ->
   Create.policyFiles w (default "" (Create.policies o)) <> [] /\
   Forall (fun f => Create.isFile w f = true)
     (Create.policyFiles w (default "" (Create.policies o)))).
Proof.
  intros Hvalid. apply validation_passed, validationError_None in Hvalid.
  destruct Hvalid as (_ & _ & _ & _ & _ & _ & Hdir & Hconfig & Hpackage &
                      Hpolicies & _).
  split; [exact Hdir|]. split; [exact Hconfig|]. split; [exact Hpackage|].
  intros Hsupplied. split.
  - rewrite Hsupplied in Hpolicies. simpl in Hpolicies.
    apply bool_decide_eq_false in Hpolicies. exact Hpolicies.
  - unfold Create.policyFiles. apply Forall_forall. intros f Hf.
    apply list_elem_of_filter in Hf as [Hf _]. exact Hf.
Qed.

Lemma validated_files_witness :
  let o := Scenario.options in
  let w := Scenario.world in
  supplied (Create.validationError o w) = false /\
  (Create.isDir w (Create.path_dirname w (Create.configFile o w)) = true /\
   Create.fileExists w (Create.configFile o w) = false /\
   Create.fileExists w
     (Create.path_join w (Create.source_dir o w) "package.json") = true /\
   (supplied (Create.policies o) = true ->
    Create.policyFiles w (default "" (Create.policies o)) <> [] /\
    Forall (fun f => Create.isFile w f = true)
      (Create.policyFiles w (default "" (Create.policies o))))).
Proof.
  intros o w. split; [reflexivity|].
  apply (validated_files o w). reflexivity.
Defined.

(** X4. Whatever test of [validationError] fires, [create] is rejected
    with exactly that message, without any event and without touching its
    state. *)
Theorem create_rejects_invalid
    (o : Create.Options) (w : Create.World) (st : Create.State) m :
  Create.validationError o w = Some m ->
  Create.create o w st = ([], st, Err (ErrString m)).
Proof.
  intros Hm. unfold Create.create.
  rewrite Hm, (validationError_message o w m Hm). reflexivity.
Qed.

Lemma create_rejects_invalid_witness :
  let o := Sample.both_options in
  let w := Sample.world (fun _ => Ok Sample.created) Sample.zip_code in
  let st := Create.initial [] in
  let m := "不能同时使用 handler 和 api-module 两个参数" +:+ nl in
  Create.validationError o w = Some m /\
  Create.create o w st = ([], st, Err (ErrString m)).
Proof.
  intros o w st m. split; [reflexivity|].
  apply (create_rejects_invalid o w st m). reflexivity.
Defined.

(** ** Roles and gateways of [create] *)

Ltac unfold_create :=
  unfold Create.create, Create.provision, Create.getPackageInfo,
    Create.loadRole, Create.addExtraPolicies, Create.createLambda,
    Create.markAliases, Create.markAlias, Create.createAlias,
    Create.updateAlias, Create.createWebApi, Create.saveConfig,
    Create.formatResult, Create.cleanup, Create.the_role, Create.logStage.

Ltac trace_create :=
  repeat trace_step;
  unfold Create.createLambda_attempt, Create.createFunction,
    Create.onRetry, Create.setTimeout, Create.logStage;
  repeat trace_step.

(** X5. With a role supplied, no run of [create] creates a role or
    attaches the logging policy; when the role is given by its ARN, the
    role is not even looked up. *)
Theorem create_with_role_creates_none
    (o : Create.Options) (w : Create.World) (st : Create.State) :
  supplied (Create.role o) = true ->
  Forall (fun e => creates_role e = false) (events (Create.create o w st)) /\
  (Create.isRoleArn w (default "" (Create.role o)) = true ->
   Forall (fun e => is_getRole e = false) (events (Create.create o w st))).
Proof.
  intros Hrole. split.
  - revert st.
    change (emits_only (fun e => creates_role e = false) (Create.create o w)).
    unfold_create. rewrite Hrole. cbv beta iota delta [negb].
    trace_create.
  - intros Harn. revert st.
    change (emits_only (fun e => is_getRole e = false) (Create.create o w)).
    unfold_create. rewrite Hrole, Harn. cbv beta iota delta [negb].
    trace_create.
Qed.

Lemma create_with_role_creates_none_witness :
  let o := Scenario.options in
  let w := Scenario.world in
  let st := Create.initial [] in
  supplied (Create.role o) = true /\
  (Forall (fun e => creates_role e = false) (events (Create.create o w st)) /\
   (Create.isRoleArn w (default "" (Create.role o)) = true ->
    Forall (fun e => is_getRole e = false) (events (Create.create o w st)))).
Proof.
  intros o w st. split; [reflexivity|].
  apply (create_with_role_creates_none o w st). reflexivity.
Defined.

(** X6. Without a role supplied, no run of [create] looks a role up: the
    only role it uses is the one it creates, named after the function. *)
Theorem create_without_role_looks_none_up
    (o : Create.Options) (w : Create.World) (st : Create.State) :
  supplied (Create.role o) = false ->
  Forall (fun e => is_getRole e = false) (events (Create.create o w st)).
Proof.
  intros Hrole. revert st.
  change (emits_only (fun e => is_getRole e = false) (Create.create o w)).
  unfold_create. rewrite Hrole. cbv beta iota delta [negb].
  trace_create.
Qed.

Lemma create_without_role_looks_none_up_witness :
  let o := Sample.options None None None in
  let w := Sample.world (fun _ => Ok Sample.created) Sample.zip_code in
  let st := Create.initial [] in
  supplied (Create.role o) = false /\
  Forall (fun e => is_getRole e = false) (events (Create.create o w st)).
Proof.
  intros o w st. split; [reflexivity|].
  apply (create_without_role_looks_none_up o w st). reflexivity.
Defined.

(** X7. Without an api module and without the proxy-api flag, no run of
    [create] touches the gateway; with an api module, the proxy api is
    never deployed. *)
Theorem create_gateway_on_request
    (o : Create.Options) (w : Create.World) (st : Create.State) :
  (supplied (Create.api_module o) = false ->
   Create.deploy_proxy_api o = false ->
   Forall (fun e => is_gateway e = false) (events (Create.create o w st))) /\
  (supplied (Create.api_module o) = true ->
   Forall (fun e => is_deployProxyApi e = false)
     (events (Create.create o w st))).
Proof.
  split.
  - intros Hapi Hproxy. revert st.
    change (emits_only (fun e => is_gateway e = false) (Create.create o w)).
    unfold_create. rewrite Hapi, Hproxy. cbv beta iota.
    trace_create.
  - intros Hapi. revert st.
    change (emits_only (fun e => is_deployProxyApi e = false)
              (Create.create o w)).
    unfold_create. rewrite Hapi. cbv beta iota.
    trace_create.
Qed.

Lemma create_gateway_on_request_witness :
  let o := Scenario.options in
  let w := Scenario.world in
  let st := Create.initial [] in
  supplied (Create.api_module o) = false /\
  Create.deploy_proxy_api o = false /\
  Forall (fun e => is_gateway e = false) (events (Create.create o w st)).
Proof.
  intros o w st. split; [reflexivity|]. split; [reflexivity|].
  destruct (create_gateway_on_request o w st) as [Hnone _].
  apply Hnone; reflexivity.
Defined.

(** ** Retry settings: which source wins *)

(** X8. A delay option that [parseInt] reads as a non-zero number is the
    delay, whatever the environment says; when the option selects
    nothing, a non-zero AWS_DELAY is the delay; a retries option that
    [parseInt] reads as a non-zero number is the attempt cap.  The number
    is the one [parseInt] returns: white space before it is skipped, and
    it is a double.  Nothing requires it to be positive. *)
Theorem aws_setting_precedence
    (o : Create.Options) (w : Create.World) (s : string) (z : Z) :
  parseInt10 s = Some z ->
  z <> 0 ->
  (Create.aws_delay o = Some s -> Create.awsDelay o w = VNum (Some z)) /\
  (selects_nothing (Create.aws_delay o) = true ->
   Create.env_AWS_DELAY w = Some s -> Create.awsDelay o w = VNum (Some z)) /\
  (Create.aws_retries o = Some s -> Create.awsRetries o = VNum (Some z)).
Proof.
  intros Hparse Hz.
  assert (Hs : String.eqb s "" = false).
  { destruct s; [discriminate Hparse|reflexivity]. }
  assert (Hnz : (z =? 0) = false) by (apply Z.eqb_neq, Hz).
  assert (Hoperand :
    Js.and (of_opt (Some s)) (parseInt (of_opt (Some s))) = VNum (Some z)).
  { unfold Js.and. simpl. rewrite Hs, Hparse. reflexivity. }
  assert (Htruthy : truthy (VNum (Some z)) = true).
  { simpl. rewrite Hnz. reflexivity. }
  unfold Create.awsDelay, Create.awsRetries. repeat split.
  - intros ->. rewrite Hoperand. unfold Js.or. rewrite Htruthy.
    simpl. rewrite Hnz. reflexivity.
  - intros Hnothing ->. apply selects_nothing_falls_through in Hnothing.
    rewrite Hoperand. unfold Js.or at 2. rewrite Hnothing.
    unfold Js.or. rewrite Htruthy. reflexivity.
  - intros ->. rewrite Hoperand. unfold Js.or. rewrite Htruthy. reflexivity.
Qed.

Lemma aws_setting_precedence_witness :
  let o := Scenario.retry_options (Some Scenario.padded_250) None in
  let w := Scenario.world in
  parseInt10 Scenario.padded_250 = Some 250 /\
  250 <> 0 /\
  Create.aws_delay o = Some Scenario.padded_250 /\
  Create.env_AWS_DELAY w = Some "100" /\
  Create.awsDelay o w = VNum (Some 250).
Proof.
  intros o w. split; [reflexivity|]. split; [discriminate|].
  split; [reflexivity|]. split; [reflexivity|].
  destruct (aws_setting_precedence o w Scenario.padded_250 250)
    as [Hoption _]; [reflexivity|discriminate|].
  apply Hoption. reflexivity.
Defined.

(** ** Policy names *)

Lemma policy_char_allowed (c : ascii) :
  policy_name_char (Create.policy_char c) || Ascii.eqb (Create.policy_char c) "-"
  = true.
Proof.
  unfold Create.policy_char, policy_name_char.
  destruct (((65 <=? nat_of_ascii c)%nat && (nat_of_ascii c <=? 122)%nat)
            || ((48 <=? nat_of_ascii c)%nat && (nat_of_ascii c <=? 57)%nat))
    eqn:Hc.
  - rewrite Hc. reflexivity.
  - reflexivity.
Qed.

Lemma policy_char_cases (c : ascii) :
  (policy_name_char c = true /\ Create.policy_char c = c) \/
  (policy_name_char c = false /\ Create.policy_char c = "-"%char).
Proof.
  unfold Create.policy_char, policy_name_char.
  destruct (((65 <=? nat_of_ascii c)%nat && (nat_of_ascii c <=? 122)%nat)
            || ((48 <=? nat_of_ascii c)%nat && (nat_of_ascii c <=? 57)%nat));
    [left|right]; split; reflexivity.
Qed.

Lemma policy_char_idempotent (c : ascii) :
  Create.policy_char (Create.policy_char c) = Create.policy_char c.
Proof.
  assert (Hcases : Create.policy_char c = c \/ Create.policy_char c = "-"%char).
  { unfold Create.policy_char.
    destruct (((65 <=? nat_of_ascii c)%nat && (nat_of_ascii c <=? 122)%nat)
              || ((48 <=? nat_of_ascii c)%nat && (nat_of_ascii c <=? 57)%nat));
      [left|right]; reflexivity. }
  destruct Hcases as [Hkept|Hdash].
  - rewrite Hkept. exact Hkept.
  - rewrite Hdash. reflexivity.
Qed.

(** X9. The name under which a policy file is attached consists of
    letters, digits, the characters between 'Z' and 'a', and dashes; it is
    as long as the file's base name, coincides with it exactly when the
    base name has no other character, and sanitising it again changes
    nothing. *)
Theorem policy_name_sanitized (s : string) :
  let allowed c := policy_name_char c || Ascii.eqb c "-" in
  let sanitized := Create.map_chars Create.policy_char s in
  all_chars allowed sanitized = true /\
  String.length sanitized = String.length s /\
  Create.map_chars Create.policy_char sanitized = sanitized /\
  (all_chars allowed s = true <-> sanitized = s).
Proof.
  induction s as [|c s (IH1 & IH2 & IH3 & IH4)]; simpl.
  - repeat split; reflexivity.
  - split; [rewrite policy_char_allowed; exact IH1|].
    split; [rewrite IH2; reflexivity|].
    split; [rewrite policy_char_idempotent, IH3; reflexivity|].
    destruct (policy_char_cases c) as [[Hc Hkept]|[Hc Hdash]].
    + rewrite Hkept, Hc. simpl. split.
      * intros Hall. apply IH4 in Hall. cbv zeta in Hall.
        rewrite Hall. reflexivity.
      * intros [= Hs]. apply IH4, Hs.
    + rewrite Hdash, Hc. simpl. split.
      * intros Hall. apply andb_true_iff in Hall as [Hd Hall].
        apply Ascii.eqb_eq in Hd. apply IH4 in Hall. cbv zeta in Hall.
        rewrite Hall, Hd. reflexivity.
      * intros [= Hd Hs]. apply andb_true_iff.
        split; [apply Ascii.eqb_eq; symmetry; exact Hd|apply IH4, Hs].
Qed.

(** ** Extra policies *)

(** Calls started together all run, in order; the state is untouched and
    the first rejection is the one reported. *)
Lemma all_calls {S E A B : Type} (event : B -> E) (answer : B -> result A)
    (l : list B) (st : S) :
  let run := all (map (fun x => call (event x) (answer x)) l) st in
  events run = map event l /\
  final run = st /\
  match first_error (map answer l) with
  | Some e => outcome run = Err e
  | None => exists values, outcome run = Ok values
  end.
Proof.
  induction l as [|x l IH]; simpl.
  - repeat split. eexists. reflexivity.
  - cbv zeta in IH. unfold events, final, outcome in *.
    destruct (all (map (fun x => call (event x) (answer x)) l) st)
      as [[ev st'] r]; simpl in *.
    destruct IH as (-> & -> & IH).
    repeat split.
    destruct (answer x) as [a|e]; [|reflexivity].
    destruct (first_error (map answer l)) as [e|].
    + rewrite IH. reflexivity.
    + destruct IH as (values & ->). eexists. reflexivity.
Qed.

Lemma first_error_Some {A B : Type} (answer : B -> result A) (l : list B) e :
  first_error (map answer l) = Some e ->
  Exists (fun x => answer x = Err e) l.
Proof.
  induction l as [|x l IH]; simpl; [discriminate|].
  destruct (answer x) as [a|e'] eqn:Hx.
  - intros H. apply Exists_cons_tl, IH, H.
  - intros [= <-]. apply Exists_cons_hd, Hx.
Qed.

Lemma first_error_None {A B : Type} (answer : B -> result A) (l : list B) :
  first_error (map answer l) = None ->
  Forall (fun x => exists a, answer x = Ok a) l.
Proof.
  induction l as [|x l IH]; simpl; [constructor|].
  destruct (answer x) as [a|e'] eqn:Hx; [|discriminate].
  intros H. constructor; [eauto|apply IH, H].
Qed.

(** X10. [addExtraPolicies] starts the attachment of every policy file
    that [policyFiles] lists, in that order and under its sanitised base
    name, to the role of the run, whether or not any of them fails, and
    it leaves the closure variables alone.  It settles with a value only
    if every file was attached, and it is rejected only with the failure
    of one of the files (which one, when several fail, depends on the
    order in which the calls settle). *)
Theorem addExtraPolicies_attempts_all
    (o : Create.Options) (w : Create.World) (st : Create.State)
    (r : Create.RoleMetadata) :
  Create.roleMetadata st = Some r ->
  let files := Create.policyFiles w (default "" (Create.policies o)) in
  let policyName f :=
    Create.map_chars Create.policy_char (Create.path_basename w f) in
  let attach f := Create.addPolicy w (policyName f) (Create.RoleName r) f in
  let run := Create.addExtraPolicies o w st in
  events run =
    map (fun f => Create.AddPolicy (policyName f) (Create.RoleName r) f) files /\
  final run = st /\
  match outcome run with
  | Ok attached => Forall (fun f => attach f = Ok tt) files
  | Err e => Exists (fun f => attach f = Err e) files
  end.
Proof.
  intros Hrole files policyName attach run. subst run.
  unfold Create.addExtraPolicies, bind, get. rewrite Hrole. fold files.
  pose proof (all_calls (S := Create.State)
                (fun f => Create.AddPolicy (policyName f) (Create.RoleName r) f)
                attach files st) as (Hevents & Hfinal & Houtcome).
  pose proof (first_error_Some attach files) as Hsome.
  pose proof (first_error_None attach files) as Hnone.
  unfold events, final, outcome in *.
  destruct (all _ st) as [[ev st'] res]; simpl in *.
  split; [exact Hevents|]. split; [exact Hfinal|].
  destruct (first_error (map attach files)) as [e|].
  - rewrite Houtcome. apply Hsome. reflexivity.
  - destruct Houtcome as (attached & ->).
    eapply List.Forall_impl; [|apply Hnone; reflexivity].
    intros f [[] Hf]. exact Hf.
Qed.

Lemma addExtraPolicies_attempts_all_witness :
  let o := Scenario.options in
  let w := Scenario.world in
  let st := Scenario.with_role in
  let r := {| Create.RoleName := "exec";
              Create.Arn := "arn:aws:iam::123456789012:role/exec" |} in
  Create.roleMetadata st = Some r /\
  (let files := Create.policyFiles w (default "" (Create.policies o)) in
   let policyName f :=
     Create.map_chars Create.policy_char (Create.path_basename w f) in
   let attach f := Create.addPolicy w (policyName f) (Create.RoleName r) f in
   let run := Create.addExtraPolicies o w st in
   events run =
     map (fun f => Create.AddPolicy (policyName f) (Create.RoleName r) f) files /\
   final run = st /\
   match outcome run with
   | Ok attached => Forall (fun f => attach f = Ok tt) files
   | Err e => Exists (fun f => attach f = Err e) files
   end).
Proof.
  intros o w st r. split; [reflexivity|].
  apply (addExtraPolicies_attempts_all o w st r). reflexivity.
Defined.

(** ** Chains that stop *)

Section Stops.
Context {S E : Type}.
Local Abbreviation M := (M S E).

Lemma never_returns_reject {A} e : never_returns (reject e : M A).
Proof. intros st. exists e. reflexivity. Qed.

Lemma never_returns_call {A} ev e : never_returns (call ev (Err e) : M A).
Proof. intros st. exists e. reflexivity. Qed.

Lemma never_returns_bind_l {A B} (m : M A) (f : A -> M B) :
  never_returns m -> never_returns (bind m f).
Proof.
  intros Hm st. destruct (Hm st) as [e He]. exists e.
  unfold bind, outcome in *.
  destruct (m st) as [[ev1 st1] [a|e1]]; simpl in *; congruence.
Qed.

Lemma never_returns_bind_r {A B} (m : M A) (f : A -> M B) :
  (forall a, never_returns (f a)) -> never_returns (bind m f).
Proof.
  intros Hf st. unfold bind, outcome.
  destruct (m st) as [[ev1 st1] [a|e1]]; simpl; [|eauto].
  destruct (Hf a st1) as [e He]. exists e. unfold outcome in He.
  destruct (f a st1) as [[ev2 st2] r]; simpl in *. exact He.
Qed.

(** The links after a chain that never returns add no event. *)
Lemma emits_only_bind_stopped (P : E -> Prop) {A B} (m : M A) (f : A -> M B) :
  emits_only P m -> never_returns m -> emits_only P (bind m f).
Proof.
  intros Hm Hstop st. specialize (Hm st). destruct (Hstop st) as [e He].
  unfold bind, events, outcome in *.
  destruct (m st) as [[ev1 st1] [a|e1]]; simpl in *; [discriminate|exact Hm].
Qed.
End Stops.

(** A chain never returns when one of its links is a call that was
    rejected, whatever the links before it did. *)
Ltac stops :=
  lazymatch goal with
  | |- never_returns (reject _) => apply never_returns_reject
  | |- never_returns (call _ (Err _)) => apply never_returns_call
  | |- never_returns (bind _ _) =>
      first [ apply never_returns_bind_r; intros ?; cbv beta; stops
            | apply never_returns_bind_l; stops ]
  end.

Ltac trace_stopped :=
  repeat first [ apply emits_only_bind_stopped; [|solve [stops]]
               | trace_step ].

(** ** Packaging comes first *)

Lemma create_stops_at (o : Create.Options) (w : Create.World) :
  ~ packaged w ->
  emits_only (fun e => provisions e = false) (Create.create o w).
Proof.
  intros Hnot. unfold Create.create.
  destruct (supplied (Create.validationError o w));
    [apply emits_only_reject|].
  unfold Create.provision, Create.getPackageInfo, Create.logStage.
  destruct (Create.getOwnerInfo w) as [ownerInfo|e0] eqn:H0;
    [|trace_stopped].
  destruct (Create.mkdtemp w) as [d1|e1] eqn:H1; [|trace_stopped].
  destruct (Create.collectFiles w) as [d2|e2] eqn:H2; [|trace_stopped].
  destruct (Create.validatePackage w) as [d3|e3] eqn:H3; [|trace_stopped].
  destruct (Create.cleanUpPackage w) as [d4|e4] eqn:H4; [|trace_stopped].
  destruct (Create.zipdir w) as [d5|e5] eqn:H5; [|trace_stopped].
  exfalso. apply Hnot. unfold packaged. rewrite H0, H1, H2, H3, H4, H5.
  repeat split; eexists; reflexivity.
Qed.

(** X11. Nothing is provisioned before the package is built: a run of
    [create] that sends a request to the identity, function, storage or
    gateway service, or writes the configuration file, is one in which
    the owner lookup, the staging directory, the collection, validation
    and clean-up of the files, and the archive all succeeded. *)
Theorem create_packages_first
    (o : Create.Options) (w : Create.World) (st : Create.State)
    (e : Create.Event) :
  In e (events (Create.create o w st)) ->
  provisions e = true ->
  packaged w.
Proof.
  intros Hin Hprov.
  assert (Hdec : packaged w \/ ~ packaged w).
  { unfold packaged.
    destruct (Create.getOwnerInfo w), (Create.mkdtemp w),
      (Create.collectFiles w), (Create.validatePackage w),
      (Create.cleanUpPackage w), (Create.zipdir w);
      first [ left; repeat split; eexists; reflexivity
            | right; intros (H0 & H1 & H2 & H3 & H4 & H5);
              destruct H0, H1, H2, H3, H4, H5; discriminate ]. }
  destruct Hdec as [Hyes|Hno]; [exact Hyes|].
  pose proof (create_stops_at o w Hno st) as Hall.
  rewrite List.Forall_forall in Hall. apply Hall in Hin. congruence.
Qed.

Lemma create_packages_first_witness :
  let o := Sample.options None None None in
  let w := Sample.world (fun _ => Ok Sample.created) Sample.zip_code in
  let st := Create.initial [] in
  let e := Create.IamCreateRole "app-role" in
  In e (events (Create.create o w st)) /\
  provisions e = true /\
  packaged w.
Proof.
  intros o w st e.
  assert (Hin : In e (events (Create.create o w st))).
  { vm_compute. repeat (first [left; reflexivity|right]). }
  split; [exact Hin|]. split; [reflexivity|].
  apply (create_packages_first o w st e Hin). reflexivity.
Defined.

(** ** Runs that settled with a value *)

Lemma call_run {S E A : Type} (e : E) (r : result A) (st : S) :
  call e r st = ([e], st, r).
Proof. reflexivity. Qed.

(** Take a successful run of a chain apart, link by link: what each
    external call answered, and which way each test went. *)
Ltac invert_run H :=
  cbv beta zeta in H;
  lazymatch type of H with
  | bind _ _ _ = (_, _, Ok _) =>
      let H1 := fresh "Hstep" in
      let H2 := fresh "Hrest" in
      apply bind_Ok_inv in H as (? & ? & ? & ? & H1 & H2 & ->);
      invert_run H1; invert_run H2
  | call _ _ _ = (_, _, Ok _) =>
      rewrite call_run in H; injection H as <- <- H
  | emit _ _ = (_, _, Ok _) => injection H as <- <- <-
  | modify _ _ = (_, _, Ok _) => injection H as <- <- <-
  | get _ = (_, _, Ok _) => injection H as <- <- <-
  | resolve _ _ = (_, _, Ok _) => injection H as <- <- <-
  | reject _ _ = (_, _, Ok _) => discriminate H
  | (if ?b then _ else _) _ = (_, _, Ok _) =>
      let Hb := fresh "Hcase" in destruct b eqn:Hb; invert_run H
  | (match ?x with _ => _ end) _ = (_, _, Ok _) =>
      let Hx := fresh "Hcase" in destruct x eqn:Hx; invert_run H
  | _ => idtac
  end.

Section Preserves.
Context {S E : Type} (R : S -> S -> Prop).
Hypothesis R_refl : forall st, R st st.
Hypothesis R_trans : forall a b c, R a b -> R b c -> R a c.
Local Abbreviation M := (M S E).

Lemma preserves_resolve {A} (a : A) : preserves R (resolve a : M A).
Proof. intros st. apply R_refl. Qed.

Lemma preserves_reject {A} e : preserves R (reject e : M A).
Proof. intros st. apply R_refl. Qed.

Lemma preserves_settle {A} (r : result A) : preserves R (settle r : M A).
Proof. intros st. apply R_refl. Qed.

Lemma preserves_get : preserves R (get : M S).
Proof. intros st. apply R_refl. Qed.

Lemma preserves_emit e : preserves R (emit e : M unit).
Proof. intros st. apply R_refl. Qed.

Lemma preserves_call {A} e (r : result A) : preserves R (call e r : M A).
Proof. intros st. apply R_refl. Qed.

Lemma preserves_modify f :
  (forall st, R st (f st)) -> preserves R (modify f : M unit).
Proof. intros Hf st. apply Hf. Qed.

Lemma preserves_bind {A B} (m : M A) (f : A -> M B) :
  preserves R m -> (forall a, preserves R (f a)) -> preserves R (bind m f).
Proof.
  intros Hm Hf st. specialize (Hm st). unfold bind, final in *.
  destruct (m st) as [[ev1 st1] [a|e]]; simpl in *; [|exact Hm].
  specialize (Hf a st1). unfold final in Hf.
  destruct (f a st1) as [[ev2 st2] r]; simpl in *.
  eapply R_trans; eassumption.
Qed.

Lemma preserves_catch {A} (m : M A) (h : error -> M A) :
  preserves R m -> (forall e, preserves R (h e)) -> preserves R (catch m h).
Proof.
  intros Hm Hh st. specialize (Hm st). unfold catch, final in *.
  destruct (m st) as [[ev1 st1] [a|e]]; simpl in *; [exact Hm|].
  specialize (Hh e st1). unfold final in Hh.
  destruct (h e st1) as [[ev2 st2] r]; simpl in *.
  eapply R_trans; eassumption.
Qed.

Lemma preserves_all {A} (ms : list (M A)) :
  Forall (preserves R) ms -> preserves R (all ms).
Proof.
  induction 1 as [|m ms Hm _ IH]; intros st; [apply R_refl|].
  specialize (Hm st). unfold final in *. simpl.
  destruct (m st) as [[ev1 st1] r1]; simpl in *.
  specialize (IH st1).
  destruct (all ms st1) as [[ev2 st2] r2]; simpl in *.
  eapply R_trans; eassumption.
Qed.

Lemma preserves_retry_loop {A} (operation : M A) wait isRetryable onRetry n :
  preserves R operation -> preserves R wait -> preserves R onRetry ->
  preserves R (retry_loop operation wait isRetryable onRetry n).
Proof.
  intros Hop Hwait Hon. induction n as [|n IH]; simpl.
  - apply preserves_catch; [exact Hop|].
    intros e. destruct (isRetryable e); apply preserves_reject.
  - apply preserves_catch; [exact Hop|].
    intros e. destruct (isRetryable e); [|apply preserves_reject].
    apply preserves_bind; [exact Hon|]. intros _.
    apply preserves_bind; [exact Hwait|]. intros _. exact IH.
Qed.

Lemma preserves_run {A} (m : M A) st evs st' r :
  preserves R m -> m st = (evs, st', r) -> R st st'.
Proof. intros Hm Hrun. specialize (Hm st). rewrite Hrun in Hm. exact Hm. Qed.
End Preserves.

Lemma staging_kept_refl st : staging_kept st st.
Proof. split; reflexivity. Qed.

Lemma staging_kept_trans a b c :
  staging_kept a b -> staging_kept b c -> staging_kept a c.
Proof. intros [? ?] [? ?]. split; congruence. Qed.

(** One step of a proof that a chain of [create] leaves the staging
    variables alone. *)
Ltac keep_step :=
  lazymatch goal with
  | |- preserves _ (if ?b then _ else _) => destruct b
  | |- preserves _ (match ?x with _ => _ end) => destruct x
  | |- preserves _ (resolve _) =>
      apply (preserves_resolve _ staging_kept_refl)
  | |- preserves _ (reject _) => apply (preserves_reject _ staging_kept_refl)
  | |- preserves _ (settle _) => apply (preserves_settle _ staging_kept_refl)
  | |- preserves _ get => apply (preserves_get _ staging_kept_refl)
  | |- preserves _ (emit _) => apply (preserves_emit _ staging_kept_refl)
  | |- preserves _ (call _ _) => apply (preserves_call _ staging_kept_refl)
  | |- preserves _ (modify _) =>
      apply preserves_modify; intros ?; split; reflexivity
  | |- preserves _ (retry _ _ _ _ _ _) =>
      unfold retry;
      apply (preserves_retry_loop _ staging_kept_refl staging_kept_trans)
  | |- preserves _ (all (map _ _)) =>
      apply (preserves_all _ staging_kept_refl staging_kept_trans);
      apply Forall_map, Forall_forall; intros ? _
  | |- preserves _ (bind _ _) =>
      apply (preserves_bind _ staging_kept_trans); [|intros ?; cbv beta]
  | |- preserves _ (catch _ _) =>
      apply (preserves_catch _ staging_kept_trans); [|intros ?; cbv beta]
  end.

Ltac unfold_steps :=
  unfold Create.formatResult, Create.saveConfig, Create.createWebApi,
    Create.markAliases, Create.markAlias, Create.createAlias,
    Create.updateAlias, Create.createLambda, Create.createLambda_attempt,
    Create.createFunction, Create.onRetry, Create.setTimeout,
    Create.addExtraPolicies, Create.loadRole, Create.the_role,
    Create.logStage.

(** ** What [cleanup] removes *)

(** A run of the chain before [cleanup] that settled with a value left
    the staging directory and the archive in the closure variables. *)
Lemma provision_staged (o : Create.Options) (w : Create.World)
    (st : Create.State) evs st' result :
  Create.provision o w st = (evs, st', Ok result) ->
  exists dir zipFile,
    Create.mkdtemp w = Ok dir /\ Create.zipdir w = Ok zipFile /\
    Create.workingDir st' = Some dir /\
    Create.packageArchive st' = Some zipFile.
Proof.
  unfold Create.provision. intros Hrun.
  do 10 (let Hk := fresh "Hkept" in
        apply bind_Ok_inv in Hrun as (? & ? & ? & ? & Hrun & Hk & _);
        apply (preserves_run staging_kept) in Hk;
        [|unfold_steps; repeat keep_step]).
  unfold Create.getPackageInfo, Create.logStage in Hrun.
  invert_run Hrun.
  match goal with
  | Hd : Create.mkdtemp w = Ok ?d, Hz : Create.zipdir w = Ok ?z |- _ =>
      exists d, z
  end.
  repeat match goal with H : staging_kept _ _ |- _ => destruct H end.
  simpl in *. repeat split; congruence.
Qed.

(** X12. Whatever [create] removes, it made itself: a directory is
    removed only if it is the one [mkdtemp] returned in this run, and a
    file only if it is the archive [zipdir] returned. *)
Theorem create_removes_what_it_staged
    (o : Create.Options) (w : Create.World) (st : Create.State) :
  Forall (removal_ok w) (events (Create.create o w st)).
Proof.
  unfold Create.create.
  destruct (supplied (Create.validationError o w)); [constructor|].
  apply Forall_events_bind.
  - eapply List.Forall_impl; [|apply (provision_never_removes o w st)].
    intros [] Hnone; simpl in *; try exact I; discriminate.
  - intros result Hresult.
    destruct (Create.provision o w st) as [[evs st'] r] eqn:Hrun.
    unfold outcome, final in *. simpl in *. subst r.
    apply provision_staged in Hrun as (dir & zipFile & Hd & Hz & Hw & Ha).
    unfold Create.cleanup, bind, get, call, emit, settle, resolve, events.
    rewrite Hw, Ha.
    destruct (negb (Create.keep o)); simpl; [|constructor].
    destruct (Create.rmDir w) as [[]|e]; simpl.
    + destruct (Create.unlinkSync w); simpl;
        repeat constructor; simpl; eauto.
    + repeat constructor; simpl; eauto.
Qed.

(** ** What a function-creation request carries *)

Ltac as_emits_only :=
  cbv beta;
  lazymatch goal with
  | |- Forall ?P (events (?m ?s)) => generalize s; change (emits_only P m)
  end.

Lemma addExtraPolicies_state (o : Create.Options) (w : Create.World)
    (st : Create.State) evs st' (r : result (list unit)) :
  Create.addExtraPolicies o w st = (evs, st', r) -> st' = st.
Proof.
  unfold Create.addExtraPolicies, bind, get.
  destruct (Create.roleMetadata st) as [role|].
  - pose proof (all_calls (S := Create.State)
      (fun f => Create.AddPolicy
                  (Create.map_chars Create.policy_char (Create.path_basename w f))
                  (Create.RoleName role) f)
      (fun f => Create.addPolicy w
                  (Create.map_chars Create.policy_char (Create.path_basename w f))
                  (Create.RoleName role) f)
      (Create.policyFiles w (default "" (Create.policies o))) st)
      as (_ & Hfinal & _).
    unfold final in Hfinal.
    destruct (all _ st) as [[ev s] res]; simpl in *.
    intros [= _ <- _]. exact Hfinal.
  - destruct (bool_decide _); intros [= _ <- _]; reflexivity.
Qed.

(** Every request of one [createLambda] call carries the parameters
    built when the call was made. *)
Lemma createLambda_requests (o : Create.Options) (w : Create.World)
    fn desc code arn (st : Create.State) :
  Forall
    (fun e =>
       forall p, e = Create.LambdaCreateFunction p ->
                 p = Create.createFunctionParams o st fn desc code arn)
    (events (Create.createLambda o w fn desc code arn st)).
Proof.
  unfold Create.createLambda.
  apply Forall_events_bind; [constructor|].
  intros s [= <-]. as_emits_only.
  unfold Create.createLambda_attempt, Create.createFunction,
    Create.onRetry, Create.setTimeout, Create.logStage.
  repeat trace_step; try (intros ? [=]; fail).
  intros p [= <-]. reflexivity.
Qed.

Lemma supplied_not_empty (name : option string) :
  supplied name = true -> exists n, name = Some n /\ n <> "".
Proof.
  destruct name as [n|]; [|discriminate]. simpl. intros Hn.
  exists n. split; [reflexivity|]. intros ->. discriminate.
Qed.

(** The link of the chain that creates the function sends only requests
    built from the closure variables as they are at that point. *)
Lemma createLambda_link (o : Create.Options) (w : Create.World)
    (code : Create.FunctionCode) (st : Create.State) r :
  Create.roleMetadata st = Some r ->
  Forall
    (fun e =>
       forall p, e = Create.LambdaCreateFunction p ->
                 p = Create.createFunctionParams o
                       (Create.set_s3Key (Create.S3Key code) st)
                       (Create.functionName st) (Create.functionDesc st)
                       code (Create.Arn r))
    (events
       ((modify (Create.set_s3Key (Create.S3Key code)) >>
         let* r := Create.the_role in
         let* st0 := get in
         Create.createLambda o w (Create.functionName st0)
           (Create.functionDesc st0) code (Create.Arn r)) st)).
Proof.
  intros Hrole.
  apply Forall_events_bind; [constructor|]. intros _ _.
  assert (Hthe : Create.the_role (Create.set_s3Key (Create.S3Key code) st)
                 = ([], Create.set_s3Key (Create.S3Key code) st, Ok r)).
  { unfold Create.the_role, bind, get. simpl. rewrite Hrole. reflexivity. }
  apply Forall_events_bind; unfold final, outcome, events; simpl;
    rewrite Hthe; simpl; [constructor|].
  intros r' [= <-].
  apply Forall_events_bind; [constructor|]. intros s [= <-].
  apply createLambda_requests.
Qed.

(** X13. Every function-creation request of [create] carries what the
    run prepared before it: the environment [initEnvVarsFromOptions]
    returned, a non-empty function name (the name option or, without
    one, the package's name), the code [lambadCode] returned, and the ARN
    of the role of the run (the supplied ARN, the supplied role as
    looked up, or the role created as [<name>-role]); and it asks for a
    published version. *)
Theorem create_function_requests
    (o : Create.Options) (w : Create.World) (st : Create.State)
    (p : Create.CreateFunctionParams) :
  In (Create.LambdaCreateFunction p) (events (Create.create o w st)) ->
  creation_request_ok o w p.
Proof.
  intros Hin.
  assert (Hall :
    Forall (fun e => forall p, e = Create.LambdaCreateFunction p ->
                               creation_request_ok o w p)
      (events (Create.create o w st))).
  { unfold Create.create.
    destruct (supplied (Create.validationError o w)); [constructor|].
    apply Forall_events_bind;
      [|intros; as_emits_only; unfold Create.cleanup;
        repeat trace_step; intros ? [=]].
    unfold Create.provision.
    do 4 (apply Forall_events_bind;
          [|intros; as_emits_only; unfold_steps;
            repeat trace_step; intros ? [=]]).
    apply Forall_events_bind.
    - as_emits_only.
      unfold Create.getPackageInfo. unfold_steps.
      repeat trace_step; intros ? [=].
    - intros code Hcode.
      match type of Hcode with outcome (?m st) = _ =>
        destruct (m st) as [[evs st'] r] eqn:Hrun end.
      unfold outcome, final in *. simpl in Hcode |- *. subst r.
      unfold Create.getPackageInfo, Create.loadRole, Create.the_role,
        Create.logStage in Hrun.
      invert_run Hrun;
        repeat match goal with
               | H : Create.addExtraPolicies _ _ _ = _ |- _ =>
                   apply addExtraPolicies_state in H; subst
               end;
        simpl in *; try discriminate;
        repeat match goal with
               | H : Some _ = Some _ |- _ => injection H as <-
               end;
        match goal with
        | H : negb (supplied _) = false |- _ =>
            apply negb_false_iff, supplied_not_empty in H
              as (n & Hname & Hnonempty)
        end;
        rewrite Hname in *; simpl in *;
        (eapply List.Forall_impl;
         [|apply createLambda_link; simpl; reflexivity]);
        intros e He p0 Hp0; specialize (He p0 Hp0); subst p0;
        unfold creation_request_ok;
        eexists _, _, _, _, _;
        (split; [eassumption|]); (split; [eassumption|]);
        (split; [eassumption|]); (split; [eassumption|]);
        (split; [assumption|]);
        (split;
         [unfold role_of_run;
          repeat match goal with
                 | H : supplied (Create.role o) = _ |- _ => rewrite H
                 | H : Create.isRoleArn w _ = _ |- _ => rewrite H
                 end;
          first [reflexivity|eassumption]|]);
        simpl; repeat split; reflexivity. }
  rewrite List.Forall_forall in Hall. eapply Hall; [exact Hin|reflexivity].
Qed.

Lemma create_function_requests_witness :
  let o := Sample.options None None None in
  let w := Sample.world (fun _ => Ok Sample.created) Sample.zip_code in
  let st := Create.initial [] in
  In (Create.LambdaCreateFunction Scenario.request)
     (events (Create.create o w st)) /\
  creation_request_ok o w Scenario.request.
Proof.
  intros o w st.
  assert (Hin : In (Create.LambdaCreateFunction Scenario.request)
                   (events (Create.create o w st))).
  { vm_compute. repeat (first [left; reflexivity|right]). }
  split; [exact Hin|].
  apply (create_function_requests o w st Scenario.request Hin).
Defined.

(** ** The S3 event source: what is sent, and when *)

Ltac unfold_s3 :=
  unfold S3EventSource.addS3EventSource, S3EventSource.readConfig,
    S3EventSource.addS3AccessPolicy, S3EventSource.addInvokePermission,
    S3EventSource.addBucketNotificationConfig, S3EventSource.getLambda,
    S3EventSource.the_lambdaConfig, S3EventSource.promise,
    events, outcome, bind, call, emit, settle, get, modify, resolve, reject.

(** X14. The bucket's notification configuration is written only in a
    run in which everything before the write succeeded: a bucket was
    named, the project configuration and the function's configuration
    were read, the access policy was attached and the bucket's current
    configuration was fetched.  What is written, for that bucket, is the
    fetched configuration with the new rule for the function's ARN
    merged in, and the command settles as the write does. *)
Theorem addS3EventSource_subscribes
    (o : S3EventSource.Options) (w : S3EventSource.World)
    (st : S3EventSource.State) b written :
  In (S3EventSource.Sent
        (S3EventSource.PutBucketNotificationConfiguration b written))
     (events (S3EventSource.addS3EventSource o w st)) ->
  exists c fc current,
    supplied (S3EventSource.bucket o) = true /\
    b = S3EventSource.bucket o /\
    S3EventSource.loadConfig w = Ok c /\
    S3EventSource.getFunctionConfiguration w = Ok fc /\
    S3EventSource.putRolePolicy w = Ok tt /\
    S3EventSource.getBucketNotificationConfiguration w = Ok current /\
    written =
      S3EventSource.merge current
        (S3EventSource.eventConfig o (Some (S3EventSource.FunctionArn fc))) /\
    outcome (S3EventSource.addS3EventSource o w st) =
      S3EventSource.putBucketNotificationConfiguration w.
Proof.
  unfold_s3.
  destruct (supplied (S3EventSource.bucket o)) eqn:Hbucket; simpl;
    [|intros []].
  destruct (S3EventSource.loadConfig w) as [c|e] eqn:Hload; simpl;
    [|intros [[=]|[]]].
  destruct (S3EventSource.getFunctionConfiguration w) as [fc|e] eqn:Hfc;
    simpl; [|intros [[=]|[[=]|[]]]].
  destruct (S3EventSource.putRolePolicy w) as [[]|e] eqn:Hpolicy; simpl;
    [|intros [[=]|[[=]|[[=]|[]]]]].
  destruct (S3EventSource.getBucketNotificationConfiguration w)
    as [current|e] eqn:Hcurrent; simpl;
    [|intros [[=]|[[=]|[[=]|[[=]|[]]]]]].
  intros [[=]|[[=]|[[=]|[[=]|[[= <- <-]|[]]]]]].
  exists c, fc, current. repeat split.
Qed.

Lemma addS3EventSource_subscribes_witness :
  let o := Sample.s3_options in
  let w := Sample.s3_world in
  let st := S3EventSource.initial in
  let written :=
    S3EventSource.merge None
      (S3EventSource.eventConfig o
         (Some "arn:aws:lambda:us-east-1:123456789012:function:app")) in
  In (S3EventSource.Sent
        (S3EventSource.PutBucketNotificationConfiguration (Some "photos")
           written))
     (events (S3EventSource.addS3EventSource o w st)) /\
  exists c fc current,
    supplied (S3EventSource.bucket o) = true /\
    Some "photos" = S3EventSource.bucket o /\
    S3EventSource.loadConfig w = Ok c /\
    S3EventSource.getFunctionConfiguration w = Ok fc /\
    S3EventSource.putRolePolicy w = Ok tt /\
    S3EventSource.getBucketNotificationConfiguration w = Ok current /\
    written =
      S3EventSource.merge current
        (S3EventSource.eventConfig o (Some (S3EventSource.FunctionArn fc))) /\
    outcome (S3EventSource.addS3EventSource o w st) =
      S3EventSource.putBucketNotificationConfiguration w.
Proof.
  intros o w st written.
  assert (Hin :
    In (S3EventSource.Sent
          (S3EventSource.PutBucketNotificationConfiguration (Some "photos")
             written))
       (events (S3EventSource.addS3EventSource o w st))).
  { vm_compute. repeat (first [left; reflexivity|right]). }
  split; [exact Hin|].
  apply (addS3EventSource_subscribes o w st (Some "photos") written Hin).
Defined.

(** X15. The access policy is attached only after the function's
    configuration was read; it goes to the role named in the project
    configuration and allows every S3 action on the objects of the
    bucket, in the partition that is the second field of the function's
    ARN. *)
Theorem addS3EventSource_access_policy
    (o : S3EventSource.Options) (w : S3EventSource.World)
    (st : S3EventSource.State) roleName policyName document :
  In (S3EventSource.Sent
        (S3EventSource.PutRolePolicy roleName policyName document))
     (events (S3EventSource.addS3EventSource o w st)) ->
  exists c fc,
    S3EventSource.loadConfig w = Ok c /\
    S3EventSource.getFunctionConfiguration w = Ok fc /\
    roleName = S3EventSource.role c /\
    jget "Statement" document =
      JArr [JObj [("Effect", JStr "Allow");
                  ("Action", JArr [JStr "s3:*"]);
                  ("Resource",
                   JArr [JStr ("arn:" +:+
                               show (split_on ":" (S3EventSource.FunctionArn fc)
                                       !! 1%nat) +:+
                               ":s3:::" +:+ show (S3EventSource.bucket o) +:+
                               "/*")])]].
Proof.
  unfold_s3.
  destruct (supplied (S3EventSource.bucket o)) eqn:Hbucket; simpl;
    [|intros []].
  destruct (S3EventSource.loadConfig w) as [c|e] eqn:Hload; simpl;
    [|intros [[=]|[]]].
  destruct (S3EventSource.getFunctionConfiguration w) as [fc|e] eqn:Hfc;
    simpl; [|intros [[=]|[[=]|[]]]].
  intros Hin. exists c, fc. split; [reflexivity|]. split; [reflexivity|].
  destruct (S3EventSource.putRolePolicy w) as [[]|e];
    [destruct (S3EventSource.getBucketNotificationConfiguration w)
       as [current|e]|];
    simpl in Hin;
    repeat (destruct Hin as [Hin|Hin]; [try discriminate Hin|]);
    try contradiction;
    injection Hin as <- _ <-; split; reflexivity.
Qed.

Lemma addS3EventSource_access_policy_witness :
  let o := Sample.s3_options in
  let w := Sample.s3_world in
  let st := S3EventSource.initial in
  let document :=
    JObj [("Version", JStr "2012-10-17");
          ("Statement",
           JArr [JObj [("Effect", JStr "Allow");
                       ("Action", JArr [JStr "s3:*"]);
                       ("Resource", JArr [JStr "arn:aws:s3:::photos/*"])]])] in
  In (S3EventSource.Sent
        (S3EventSource.PutRolePolicy "app-role"
           "s3-photos-access-1700000000000" document))
     (events (S3EventSource.addS3EventSource o w st)) /\
  exists c fc,
    S3EventSource.loadConfig w = Ok c /\
    S3EventSource.getFunctionConfiguration w = Ok fc /\
    "app-role" = S3EventSource.role c /\
    jget "Statement" document =
      JArr [JObj [("Effect", JStr "Allow");
                  ("Action", JArr [JStr "s3:*"]);
                  ("Resource",
                   JArr [JStr ("arn:" +:+
                               show (split_on ":" (S3EventSource.FunctionArn fc)
                                       !! 1%nat) +:+
                               ":s3:::" +:+ show (S3EventSource.bucket o) +:+
                               "/*")])]].
Proof.
  intros o w st document.
  assert (Hin :
    In (S3EventSource.Sent
          (S3EventSource.PutRolePolicy "app-role"
             "s3-photos-access-1700000000000" document))
       (events (S3EventSource.addS3EventSource o w st))).
  { vm_compute. repeat (first [left; reflexivity|right]). }
  split; [exact Hin|].
  apply (addS3EventSource_access_policy o w st "app-role"
           "s3-photos-access-1700000000000" document Hin).
Defined.

(** ** [setVersion]: what is bound, what is deployed *)

Ltac unfold_setVersion :=
  unfold SetVersion.setVersion, SetVersion.updateConfiguration,
    SetVersion.updateApi, SetVersion.the_lambdaConfig,
    SetVersion.the_apiConfig, SetVersion.logStage,
    events, outcome, bind, call, emit, settle, get, modify, resolve, reject.

(** Find an event in a trace that was computed. *)
Ltac pick_event H :=
  repeat (destruct H as [H|H]; [try discriminate H|]);
  try contradiction.

(** X16. Every alias request of [setVersion] is for the label given by
    the version option (which is not empty), of the function the project
    configuration names, and points it at the version the function
    service has just published; it is made only after the environment
    options were read and the function's configuration was updated. *)
Theorem setVersion_binds_published
    (o : SetVersion.Options) (w : SetVersion.World) (st : SetVersion.State)
    functionName versionName versionAlias :
  In (SetVersion.MarkAlias functionName versionName versionAlias)
     (events (SetVersion.setVersion o w st)) ->
  exists cfg fc existing,
    SetVersion.version o = Some versionAlias /\
    versionAlias <> "" /\
    SetVersion.readEnvVarsFromOptions w = Ok tt /\
    SetVersion.loadConfig w = Ok cfg /\
    functionName = SetVersion.name (SetVersion.lambda cfg) /\
    SetVersion.getFunctionConfiguration w = Ok fc /\
    SetVersion.updateEnvVars w existing = Ok tt /\
    SetVersion.publishVersion w = Ok versionName.
Proof.
  unfold_setVersion. intros Hin.
  destruct (supplied (SetVersion.version o)) eqn:Hv; simpl in Hin;
    [|contradiction].
  apply supplied_not_empty in Hv as (label & Hlabel & Hnonempty).
  rewrite Hlabel in Hin.
  destruct (SetVersion.readEnvVarsFromOptions w) as [[]|] eqn:Hread;
    simpl in Hin; [|contradiction].
  destruct (SetVersion.loadConfig w) as [cfg|] eqn:Hload; simpl in Hin;
    [|pick_event Hin].
  destruct (SetVersion.getFunctionConfiguration w) as [fc|] eqn:Hfc;
    simpl in Hin; [|pick_event Hin].
  destruct (SetVersion.updateEnvVars w _) as [[]|] eqn:Hupdate;
    simpl in Hin; [|pick_event Hin].
  destruct (SetVersion.publishVersion w) as [published|] eqn:Hpublish;
    simpl in Hin; [|pick_event Hin].
  assert (Hbound :
    SetVersion.MarkAlias (SetVersion.name (SetVersion.lambda cfg))
      published label =
    SetVersion.MarkAlias functionName versionName versionAlias).
  { destruct (SetVersion.markAlias w _ _ _) as [[]|]; simpl in Hin;
      [destruct (SetVersion.api cfg) as [a|];
       [destruct (supplied (SetVersion.id a));
        [destruct (SetVersion.getOwnerInfo w); simpl in Hin;
         [destruct (SetVersion.allowApiInvocation w); simpl in Hin;
          [destruct (SetVersion.createDeployment w); simpl in Hin|]|]|]|]|];
      simpl in Hin; pick_event Hin; exact Hin. }
  injection Hbound as <- <- <-.
  eexists cfg, fc, _. repeat split; try assumption. exact Hupdate.
Qed.

Lemma setVersion_binds_published_witness :
  let o := Scenario.version_options in
  let w := Scenario.version_world in
  let st := SetVersion.initial in
  In (SetVersion.MarkAlias "svc" "7" "dev")
     (events (SetVersion.setVersion o w st)) /\
  exists cfg fc existing,
    SetVersion.version o = Some "dev" /\
    "dev" <> "" /\
    SetVersion.readEnvVarsFromOptions w = Ok tt /\
    SetVersion.loadConfig w = Ok cfg /\
    "svc" = SetVersion.name (SetVersion.lambda cfg) /\
    SetVersion.getFunctionConfiguration w = Ok fc /\
    SetVersion.updateEnvVars w existing = Ok tt /\
    SetVersion.publishVersion w = Ok "7".
Proof.
  intros o w st.
  assert (Hin : In (SetVersion.MarkAlias "svc" "7" "dev")
                   (events (SetVersion.setVersion o w st))).
  { vm_compute. repeat (first [left; reflexivity|right]). }
  split; [exact Hin|].
  apply (setVersion_binds_published o w st "svc" "7" "dev" Hin).
Defined.

(** X17. [setVersion] deploys the gateway only when the project
    configuration has an api with an id: that api is deployed to the
    stage named by the version option, with the stage variable
    [lambdaVersion] set to the same label, after the alias was bound and
    the api was allowed to invoke the function. *)
Theorem setVersion_deploys_stage
    (o : SetVersion.Options) (w : SetVersion.World) (st : SetVersion.State)
    restApiId stageName lambdaVersion :
  In (SetVersion.CreateDeployment restApiId stageName lambdaVersion)
     (events (SetVersion.setVersion o w st)) ->
  exists cfg a published ownerInfo,
    SetVersion.version o = Some stageName /\
    lambdaVersion = stageName /\
    SetVersion.loadConfig w = Ok cfg /\
    SetVersion.api cfg = Some a /\
    SetVersion.id a = Some restApiId /\
    restApiId <> "" /\
    SetVersion.publishVersion w = Ok published /\
    SetVersion.markAlias w (SetVersion.name (SetVersion.lambda cfg))
      published stageName = Ok tt /\
    SetVersion.getOwnerInfo w = Ok ownerInfo /\
    SetVersion.allowApiInvocation w = Ok tt.
Proof.
  unfold_setVersion. intros Hin.
  destruct (supplied (SetVersion.version o)) eqn:Hv; simpl in Hin;
    [|contradiction].
  apply supplied_not_empty in Hv as (label & Hlabel & Hnonempty).
  rewrite Hlabel in Hin |- *.
  destruct (SetVersion.readEnvVarsFromOptions w) as [[]|] eqn:Hread;
    simpl in Hin; [|contradiction].
  destruct (SetVersion.loadConfig w) as [cfg|] eqn:Hload; simpl in Hin;
    [|pick_event Hin].
  destruct (SetVersion.getFunctionConfiguration w) as [fc|] eqn:Hfc;
    simpl in Hin; [|pick_event Hin].
  destruct (SetVersion.updateEnvVars w _) as [[]|] eqn:Hupdate;
    simpl in Hin; [|pick_event Hin].
  destruct (SetVersion.publishVersion w) as [published|] eqn:Hpublish;
    simpl in Hin; [|pick_event Hin].
  destruct (SetVersion.markAlias w _ _ _) as [[]|] eqn:Hmark; simpl in Hin;
    [|pick_event Hin].
  destruct (SetVersion.api cfg) as [a|] eqn:Hapi; simpl in Hin;
    [|pick_event Hin].
  destruct (supplied (SetVersion.id a)) eqn:Hid; simpl in Hin;
    [|pick_event Hin].
  apply supplied_not_empty in Hid as (i & Hi & Hinonempty).
  rewrite Hi in Hin. simpl in Hin.
  destruct (SetVersion.getOwnerInfo w) as [ownerInfo|] eqn:Howner;
    simpl in Hin; [|pick_event Hin].
  destruct (SetVersion.allowApiInvocation w) as [[]|] eqn:Hallow;
    simpl in Hin; [|pick_event Hin].
  assert (Hdeployed :
    SetVersion.CreateDeployment i label label =
    SetVersion.CreateDeployment restApiId stageName lambdaVersion).
  { destruct (SetVersion.createDeployment w); simpl in Hin;
      pick_event Hin; rewrite Hi in Hin; exact Hin. }
  injection Hdeployed as <- <- <-.
  exists cfg, a, published, ownerInfo. repeat split; assumption.
Qed.

Lemma setVersion_deploys_stage_witness :
  let o := Scenario.version_options in
  let w := Scenario.version_world in
  let st := SetVersion.initial in
  In (SetVersion.CreateDeployment "api1" "dev" "dev")
     (events (SetVersion.setVersion o w st)) /\
  exists cfg a published ownerInfo,
    SetVersion.version o = Some "dev" /\
    "dev" = "dev" /\
    SetVersion.loadConfig w = Ok cfg /\
    SetVersion.api cfg = Some a /\
    SetVersion.id a = Some "api1" /\
    "api1" <> "" /\
    SetVersion.publishVersion w = Ok published /\
    SetVersion.markAlias w (SetVersion.name (SetVersion.lambda cfg))
      published "dev" = Ok tt /\
    SetVersion.getOwnerInfo w = Ok ownerInfo /\
    SetVersion.allowApiInvocation w = Ok tt.
Proof.
  intros o w st.
  assert (Hin : In (SetVersion.CreateDeployment "api1" "dev" "dev")
                   (events (SetVersion.setVersion o w st))).
  { vm_compute. repeat (first [left; reflexivity|right]). }
  split; [exact Hin|].
  apply (setVersion_deploys_stage o w st "api1" "dev" "dev" Hin).
Defined.

(** X18. A run of [setVersion] that settles with a value read the
    configuration, published a version and bound the alias; when the
    project configuration has an api with an id, the deployment was
    created and the value is the URL of that api's stage for the version
    label, in the function's region; otherwise the value is undefined. *)
Theorem setVersion_result
    (o : SetVersion.Options) (w : SetVersion.World) (st : SetVersion.State)
    evs st' r :
  SetVersion.setVersion o w st = (evs, st', Ok r) ->
  exists cfg published label,
    SetVersion.version o = Some label /\
    SetVersion.loadConfig w = Ok cfg /\
    SetVersion.publishVersion w = Ok published /\
    SetVersion.markAlias w (SetVersion.name (SetVersion.lambda cfg))
      published label = Ok tt /\
    In (SetVersion.MarkAlias (SetVersion.name (SetVersion.lambda cfg))
          published label) evs /\
    match SetVersion.api cfg with
    | Some a =>
        if supplied (SetVersion.id a)
        then r = JObj [("url",
                        JStr (SetVersion.apiGWUrl w (show (SetVersion.id a))
                                (SetVersion.lambda_region (SetVersion.lambda cfg))
                                label))] /\
             SetVersion.createDeployment w = Ok tt /\
             In (SetVersion.CreateDeployment (show (SetVersion.id a))
                   label label) evs
        else r = JUndefined
    | None => r = JUndefined
    end.
Proof.
  unfold_setVersion.
  destruct (supplied (SetVersion.version o)) eqn:Hv; simpl; [|discriminate].
  apply supplied_not_empty in Hv as (label & Hlabel & Hnonempty).
  rewrite Hlabel.
  destruct (SetVersion.readEnvVarsFromOptions w) as [[]|] eqn:Hread;
    simpl; [|discriminate].
  destruct (SetVersion.loadConfig w) as [cfg|] eqn:Hload; simpl;
    [|discriminate].
  destruct (SetVersion.getFunctionConfiguration w) as [fc|] eqn:Hfc;
    simpl; [|discriminate].
  destruct (SetVersion.updateEnvVars w _) as [[]|] eqn:Hupdate;
    simpl; [|discriminate].
  destruct (SetVersion.publishVersion w) as [published|] eqn:Hpublish;
    simpl; [|discriminate].
  destruct (SetVersion.markAlias w _ _ _) as [[]|] eqn:Hmark; simpl;
    [|discriminate].
  destruct (SetVersion.api cfg) as [a|] eqn:Hapi; simpl.
  - destruct (supplied (SetVersion.id a)) eqn:Hid; simpl.
    + destruct (SetVersion.getOwnerInfo w) as [ownerInfo|] eqn:Howner;
        simpl; [|discriminate].
      destruct (SetVersion.allowApiInvocation w) as [[]|] eqn:Hallow;
        simpl; [|discriminate].
      destruct (SetVersion.createDeployment w) as [[]|] eqn:Hdeploy;
        simpl; [|discriminate].
      intros [= <- <- <-]. exists cfg, published, label.
      rewrite Hapi, Hid. simpl. repeat split; auto 20.
    + intros [= <- <- <-]. exists cfg, published, label.
      rewrite Hapi, Hid. simpl. repeat split; auto 20.
  - intros [= <- <- <-]. exists cfg, published, label.
    rewrite Hapi. simpl. repeat split; auto 20.
Qed.

Lemma setVersion_result_witness :
  let o := Scenario.version_options in
  let w := Scenario.version_world in
  let st := SetVersion.initial in
  let run := SetVersion.setVersion o w st in
  let r :=
    JObj [("url",
           JStr "https://api1.execute-api.eu-west-1.amazonaws.com/dev")] in
  run = (events run, final run, Ok r) /\
  exists cfg published label,
    SetVersion.version o = Some label /\
    SetVersion.loadConfig w = Ok cfg /\
    SetVersion.publishVersion w = Ok published /\
    SetVersion.markAlias w (SetVersion.name (SetVersion.lambda cfg))
      published label = Ok tt /\
    In (SetVersion.MarkAlias (SetVersion.name (SetVersion.lambda cfg))
          published label) (events run) /\
    match SetVersion.api cfg with
    | Some a =>
        if supplied (SetVersion.id a)
        then r = JObj [("url",
                        JStr (SetVersion.apiGWUrl w (show (SetVersion.id a))
                                (SetVersion.lambda_region (SetVersion.lambda cfg))
                                label))] /\
             SetVersion.createDeployment w = Ok tt /\
             In (SetVersion.CreateDeployment (show (SetVersion.id a))
                   label label) (events run)
        else r = JUndefined
    | None => r = JUndefined
    end.
Proof.
  intros o w st run r.
  assert (Hrun : run = (events run, final run, Ok r)) by reflexivity.
  split; [exact Hrun|].
  apply (setVersion_result o w st (events run) (final run) r Hrun).
Defined.

(** ** The express proxy generator *)

Ltac unfold_proxy :=
  unfold ExpressProxy.generateServerlessExpressProxy,
    ExpressProxy.installDependencies,
    events, outcome, bind, call, emit, settle, resolve, reject.

(** X19. The generator touches the project only after its checks: when
    it runs npm or writes a file, an express module was named, that
    module's file and package.json exist in the source directory, and
    the proxy module's name has no slash.  npm installs the serverless
    module into the source directory; the file is written only after
    the installation succeeded, as [<proxy module name>.js] in the
    source directory, from the template for the express module. *)
Theorem proxy_acts_after_checks
    (o : ExpressProxy.Options) (w : ExpressProxy.World) (e : ExpressProxy.Event) :
  In e (events (ExpressProxy.generateServerlessExpressProxy o w tt)) ->
  exists expressModule,
    ExpressProxy.express_module o = Some expressModule /\
    expressModule <> "" /\
    ExpressProxy.fileExists w
      (ExpressProxy.path_join w (ExpressProxy.source_dir o w)
         (expressModule +:+ ".js")) = true /\
    ExpressProxy.fileExists w
      (ExpressProxy.path_join w (ExpressProxy.source_dir o w) "package.json")
      = true /\
    contains_char "/" (ExpressProxy.proxyModuleName o) = false /\
    match e with
    | ExpressProxy.RunNpm dir args =>
        dir = ExpressProxy.source_dir o w /\
        args = ["install"; ExpressProxy.serverlessModule o; "-S"]
    | ExpressProxy.WriteFile path text =>
        ExpressProxy.runNpm w = Ok tt /\
        path = ExpressProxy.path_join w (ExpressProxy.source_dir o w)
                 (ExpressProxy.proxyModuleName o +:+ ".js") /\
        text = ExpressProxy.contents expressModule
    end.
Proof.
  unfold_proxy. intros Hin.
  destruct (supplied (ExpressProxy.express_module o)) eqn:Hmodule;
    simpl in Hin; [|contradiction].
  apply supplied_not_empty in Hmodule as (m & Hm & Hnonempty).
  rewrite Hm in Hin |- *. simpl in Hin.
  destruct (ExpressProxy.fileExists w
              (ExpressProxy.path_join w (ExpressProxy.source_dir o w)
                 (m +:+ ".js"))) eqn:Hfile;
    simpl in Hin; [|contradiction].
  destruct (ExpressProxy.fileExists w
              (ExpressProxy.path_join w (ExpressProxy.source_dir o w)
                 "package.json")) eqn:Hpackage;
    simpl in Hin; [|contradiction].
  destruct (ExpressProxy.fileExists w "-e"); [contradiction|].
  destruct (contains_char "/" (ExpressProxy.proxyModuleName o)) eqn:Hslash;
    [contradiction|].
  exists m. do 5 (split; [first [reflexivity|assumption]|]).
  destruct (ExpressProxy.runNpm w) as [[]|]; simpl in Hin;
    [destruct (ExpressProxy.writeFile w) as [[]|]; simpl in Hin|];
    pick_event Hin; subst e; repeat split.
Qed.

Lemma proxy_acts_after_checks_witness :
  let o := Scenario.proxy_options in
  let w := Scenario.proxy_world in
  let e :=
    ExpressProxy.WriteFile "/app/lambda.js" (ExpressProxy.contents "server") in
  In e (events (ExpressProxy.generateServerlessExpressProxy o w tt)) /\
  exists expressModule,
    ExpressProxy.express_module o = Some expressModule /\
    expressModule <> "" /\
    ExpressProxy.fileExists w
      (ExpressProxy.path_join w (ExpressProxy.source_dir o w)
         (expressModule +:+ ".js")) = true /\
    ExpressProxy.fileExists w
      (ExpressProxy.path_join w (ExpressProxy.source_dir o w) "package.json")
      = true /\
    contains_char "/" (ExpressProxy.proxyModuleName o) = false /\
    match e with
    | ExpressProxy.RunNpm dir args =>
        dir = ExpressProxy.source_dir o w /\
        args = ["install"; ExpressProxy.serverlessModule o; "-S"]
    | ExpressProxy.WriteFile path text =>
        ExpressProxy.runNpm w = Ok tt /\
        path = ExpressProxy.path_join w (ExpressProxy.source_dir o w)
                 (ExpressProxy.proxyModuleName o +:+ ".js") /\
        text = ExpressProxy.contents expressModule
    end.
Proof.
  intros o w e.
  assert (Hin :
    In e (events (ExpressProxy.generateServerlessExpressProxy o w tt))).
  { right. left. reflexivity. }
  split; [exact Hin|].
  apply (proxy_acts_after_checks o w e Hin).
Defined.

(** X20. A run of the generator that settles with a value installed the
    serverless module and then wrote the proxy file, both with success,
    and did nothing else; the value names the handler
    [<proxy module name>.handler], where the name is the option or,
    without one, 'lambda'. *)
Theorem proxy_result
    (o : ExpressProxy.Options) (w : ExpressProxy.World) evs st' r :
  ExpressProxy.generateServerlessExpressProxy o w tt = (evs, st', Ok r) ->
  ExpressProxy.runNpm w = Ok tt /\
  ExpressProxy.writeFile w = Ok tt /\
  evs =
    [ExpressProxy.RunNpm (ExpressProxy.source_dir o w)
       ["install"; ExpressProxy.serverlessModule o; "-S"];
     ExpressProxy.WriteFile (ExpressProxy.proxyModulePath o w)
       (ExpressProxy.contents (default "" (ExpressProxy.express_module o)))] /\
  r = JObj [("lambda-handler",
             JStr (default "lambda"
                     (if supplied (ExpressProxy.proxy_module_name o)
                      then ExpressProxy.proxy_module_name o else None)
                   +:+ ".handler"))].
Proof.
  unfold_proxy.
  destruct (supplied (ExpressProxy.express_module o)); simpl; [|discriminate].
  destruct (ExpressProxy.fileExists w
              (ExpressProxy.path_join w (ExpressProxy.source_dir o w) _));
    simpl; [|discriminate].
  destruct (ExpressProxy.fileExists w
              (ExpressProxy.path_join w (ExpressProxy.source_dir o w) _));
    simpl; [|discriminate].
  destruct (ExpressProxy.fileExists w "-e"); [discriminate|].
  destruct (contains_char "/" (ExpressProxy.proxyModuleName o));
    [discriminate|].
  destruct (ExpressProxy.runNpm w) as [[]|]; simpl; [|discriminate].
  destruct (ExpressProxy.writeFile w) as [[]|]; simpl; [|discriminate].
  intros [= <- _ <-]. repeat split.
  unfold ExpressProxy.proxyModuleName.
  destruct (supplied (ExpressProxy.proxy_module_name o)) eqn:Hname;
    [|reflexivity].
  apply supplied_not_empty in Hname as (n & -> & _). reflexivity.
Qed.

Lemma proxy_result_witness :
  let o := Scenario.proxy_options in
  let w := Scenario.proxy_world in
  let run := ExpressProxy.generateServerlessExpressProxy o w tt in
  let r := JObj [("lambda-handler", JStr "lambda.handler")] in
  run = (events run, tt, Ok r) /\
  (ExpressProxy.runNpm w = Ok tt /\
   ExpressProxy.writeFile w = Ok tt /\
   events run =
     [ExpressProxy.RunNpm (ExpressProxy.source_dir o w)
        ["install"; ExpressProxy.serverlessModule o; "-S"];
      ExpressProxy.WriteFile (ExpressProxy.proxyModulePath o w)
        (ExpressProxy.contents (default "" (ExpressProxy.express_module o)))] /\
   r = JObj [("lambda-handler",
              JStr (default "lambda"
                      (if supplied (ExpressProxy.proxy_module_name o)
                       then ExpressProxy.proxy_module_name o else None)
                    +:+ ".handler"))]).
Proof.
  intros o w run r.
  assert (Hrun : run = (events run, tt, Ok r)) by reflexivity.
  split; [exact Hrun|].
  apply (proxy_result o w (events run) tt r Hrun).
Defined.

(** ** Each step of [create] works on what the one before returned *)

(** One step along a chain run from a known state. *)
Ltac walk_step :=
  lazymatch goal with
  | |- Forall _ (events ((if ?b then _ else _) _)) => destruct b eqn:?
  | |- Forall _ (events ((match ?x with _ => _ end) _)) => destruct x eqn:?
  | |- Forall _ (events (bind _ _ _)) =>
      apply Forall_events_bind;
      [|let a := fresh "a" in
        let Ha := fresh "Ha" in
        intros a Ha; cbv beta;
        try (rewrite call_run in Ha |- *);
        unfold outcome, final in Ha |- *; cbn [fst snd] in Ha |- *;
        try (injection Ha as <-)]
  | |- Forall _ (events (get _)) => constructor
  | |- Forall _ (events (modify _ _)) => constructor
  | |- Forall _ (events (resolve _ _)) => constructor
  | |- Forall _ (events (reject _ _)) => constructor
  | |- Forall _ (events (emit _ _)) =>
      constructor; [try exact I|constructor]
  | |- Forall _ (events (call _ _ _)) =>
      rewrite call_run; constructor; [try exact I|constructor]
  end.

(** The events of a link that needs nothing from the links before it. *)
Ltac quiet_link :=
  as_emits_only; unfold Create.cleanup, Create.getPackageInfo; unfold_steps;
  repeat trace_step; exact I.

(** Split the events of a chain at each of its last [n] links; the links
    that need nothing from the ones before them are done with. *)
Ltac peel_links n :=
  lazymatch n with
  | O => idtac
  | Datatypes.S ?k =>
      apply Forall_events_bind;
      [peel_links k|intros a Ha; try solve [quiet_link]]
  end.

(** The run of the links before the one at hand, taken apart. *)
Ltac known_prefix Ha :=
  match type of Ha with
  | outcome (?m ?st) = _ =>
      let Hrun := fresh "Hrun" in
      destruct (m st) as [[? ?] ?] eqn:Hrun;
      unfold outcome, final in Ha |- *; cbn [fst snd] in Ha |- *;
      subst;
      unfold Create.getPackageInfo, Create.loadRole, Create.the_role,
        Create.logStage in Hrun;
      invert_run Hrun;
      repeat match goal with
             | H : Create.addExtraPolicies _ _ _ = _ |- _ =>
                 apply addExtraPolicies_state in H; subst
             end;
      simpl in *; try discriminate
  end.

(** X21. Each request of [create] is fed by the steps before it: the
    files are collected from the source directory into the directory
    [mkdtemp] made; validation, clean-up and archiving each work on the
    directory the step before returned; a role is created only without a
    role option, as [<function name>-role]; the logging policy goes to
    the role just created, for the partition the owner lookup returned;
    and the code is produced from the archive [zipdir] wrote, with the
    storage options as given. *)
Theorem create_data_flow
    (o : Create.Options) (w : Create.World) (st : Create.State) :
  Forall (fed_by_previous o w) (events (Create.create o w st)).
Proof.
  unfold Create.create.
  destruct (supplied (Create.validationError o w)); [constructor|].
  unfold Create.provision.
  peel_links 16%nat.
  - quiet_link.
  - (* collectFiles *)
    known_prefix Ha. repeat walk_step. simpl. eauto.
  - (* validatePackage *)
    known_prefix Ha. unfold Create.logStage. repeat walk_step.
    simpl. assumption.
  - (* cleanUpPackage *)
    known_prefix Ha. repeat walk_step. simpl. assumption.
  - (* zipdir *)
    known_prefix Ha. unfold Create.logStage. repeat walk_step.
    simpl. assumption.
  - (* loadRole *)
    known_prefix Ha. unfold Create.loadRole, Create.logStage.
    repeat walk_step.
    simpl. split; [assumption|].
    match goal with
    | H : negb (supplied _) = false |- _ =>
        apply negb_false_iff, supplied_not_empty in H as (n & Hname & _)
    end.
    eexists _, n. split; [eassumption|]. split; [exact Hname|].
    rewrite Hname. reflexivity.
  - (* the logging policy *)
    known_prefix Ha; unfold Create.the_role; repeat walk_step.
    simpl in *.
    split; [assumption|]. split; [reflexivity|]. split; eauto.
  - (* lambadCode *)
    known_prefix Ha; repeat walk_step; simpl; eauto 10.
Qed.

(** ** The gateway of an api module *)

(** X22. When [createWebApi] settles with a value, the api module was
    loaded from the package directory and has a configuration, and the
    gateway service created an api named after the function.  That api
    was rebuilt for the stage named by the version option, or 'latest'
    without one; the descriptor added to the function's data gives the
    URL of that api and stage in the region of the options; and the
    value of the module's [postDeploy] hook, when it has one and the
    value is truthy, is recorded under [deploy].  Name and published
    version of the function are handed on unchanged. *)
Theorem createWebApi_result
    (o : Create.Options) (w : Create.World)
    (lambdaMetadata : Create.LambdaMetadata) (packageDir : option string)
    (st : Create.State) evs st' updated :
  Create.createWebApi o w lambdaMetadata packageDir st = (evs, st', Ok updated) ->
  let alias :=
    if supplied (Create.version o) then default "" (Create.version o)
    else "latest" in
  exists dir module apiModule id,
    packageDir = Some dir /\
    Create.api_module o = Some module /\
    Create.require_api_module w
      (Create.path_resolve w (Create.path_join w dir module)) = Ok apiModule /\
    is_Some (Create.apiConfig apiModule) /\
    Create.createRestApi w = Ok id /\
    In (Create.CreateRestApi (Create.FunctionName lambdaMetadata)) evs /\
    In (Create.RebuildWebApi (Create.FunctionName lambdaMetadata) alias id) evs /\
    jget "url" (Create.api updated) =
      JStr (Create.apiGWUrl w id (Create.region o) alias) /\
    jget "deploy" (Create.api updated) =
      match Create.postDeploy apiModule with
      | Some (Ok value) => if jtruthy value then value else JUndefined
      | _ => JUndefined
      end /\
    Create.FunctionName updated = Create.FunctionName lambdaMetadata /\
    Create.Version updated = Create.Version lambdaMetadata /\
    st' = st.
Proof.
  unfold Create.createWebApi, Create.logStage, bind, call, emit, settle,
    resolve, reject.
  destruct packageDir as [dir|]; [|discriminate].
  destruct (Create.api_module o) as [module|]; [|discriminate].
  destruct (Create.require_api_module w _) as [apiModule|e] eqn:Hrequire;
    [|discriminate].
  destruct (Create.apiConfig apiModule) as [config|] eqn:Hconfig;
    [|discriminate].
  destruct (Create.createRestApi w) as [id|e]; [|discriminate].
  destruct (Create.rebuildWebApi w) as [[]|e]; [|discriminate].
  destruct (Create.postDeploy apiModule) as [[value|e]|] eqn:Hpost;
    try discriminate;
    simpl; [destruct (jtruthy value) eqn:Hvalue|];
    intros [= <- <- <-]; exists dir, module, apiModule, id;
    rewrite Hconfig, Hpost; try rewrite Hvalue;
    simpl; repeat split; eauto 10.
Qed.

Lemma createWebApi_result_witness :
  let o := Sample.options (Some "dev") None (Some "web") in
  let w := Scenario.world in
  let st := Create.initial [] in
  let run := Create.createWebApi o w Sample.deployed (Some "/tmp/a1/app") st in
  let updated :=
    Create.with_api
      (JObj [("id", JStr "api1"); ("module", JStr "web");
             ("url", JStr "api1/dev"); ("deploy", JStr "seeded")])
      Sample.deployed in
  run = (events run, final run, Ok updated) /\
  (let alias :=
     if supplied (Create.version o) then default "" (Create.version o)
     else "latest" in
   exists dir module apiModule id,
     Some "/tmp/a1/app" = Some dir /\
     Create.api_module o = Some module /\
     Create.require_api_module w
       (Create.path_resolve w (Create.path_join w dir module)) = Ok apiModule /\
     is_Some (Create.apiConfig apiModule) /\
     Create.createRestApi w = Ok id /\
     In (Create.CreateRestApi (Create.FunctionName Sample.deployed))
        (events run) /\
     In (Create.RebuildWebApi (Create.FunctionName Sample.deployed) alias id)
        (events run) /\
     jget "url" (Create.api updated) =
       JStr (Create.apiGWUrl w id (Create.region o) alias) /\
     jget "deploy" (Create.api updated) =
       match Create.postDeploy apiModule with
       | Some (Ok value) => if jtruthy value then value else JUndefined
       | _ => JUndefined
       end /\
     Create.FunctionName updated = Create.FunctionName Sample.deployed /\
     Create.Version updated = Create.Version Sample.deployed /\
     final run = st).
Proof.
  intros o w st run updated.
  assert (Hrun : run = (events run, final run, Ok updated)) by reflexivity.
  split; [exact Hrun|].
  apply (createWebApi_result o w Sample.deployed (Some "/tmp/a1/app") st
           (events run) (final run) updated Hrun).
Defined.
